(** * ep3gen: the directive-driven parser and the section partitioner

    A shallow embedding of the Go program [ep3gen] and the properties of
    its structural parser ([main], loops 1 to 3), of the metadata scan
    ([LoadAttributes]) and of the table-of-contents partitioner
    ([GenNAVFile]).

    The embedding follows the current sources: [main] and [extractHeading]
    of package [main], and [input_buffer.go] and [gen.go] of package
    [internal/gen].  The older single-package sources ([main.go], [gen.go],
    [utils.go]) have the same three loops, the same partitioner and the
    same metadata scan over global variables.

    Go strings are byte strings and are modelled by [string]; Go [int]
    values used as indices and counters are modelled by [nat]; Go maps are
    [gmap]s; a Go [panic] and the run-time panics of indexing and slicing
    are values of [error].  File creation and template execution are not
    part of the model: the functions below keep the effect the Go functions
    have on the [InputBuffer].  Loops are bounded by a fuel argument;
    [parse_fuel] and [GenNAVFile_fuel] show that the bound is never
    reached. *)

From Stdlib Require Import Ascii String DecimalString Decimal DecimalNat.
From stdpp Require Import base option list gmap strings.

Local Open Scope nat_scope.

(** ** Errors and results *)

Inductive error : Type :=
| Panic (msg : string)        (* panic(msg) *)
| IndexOutOfRange             (* run-time panic: index out of range *)
| SliceBoundsOutOfRange       (* run-time panic: slice bounds out of range *)
| OutOfFuel.                  (* the loop bound of the model was reached *)

Inductive result (A : Type) : Type :=
| Ok (a : A)
| Err (e : error).
Arguments Ok {A} a.
Arguments Err {A} e.

#[global] Instance result_ret : MRet result := fun A a => Ok a.
#[global] Instance result_bind : MBind result := fun A B f r =>
  match r with
  | Ok a => f a
  | Err e => Err e
  end.

Definition is_Ok {A} (r : result A) : bool :=
  match r with Ok _ => true | Err _ => false end.

(** ** Strings, as package [strings] and the slice expressions use them *)

Notation "s == t" := (String.eqb s t) (at level 70, no associativity).

(** The double quote character, [34]. *)
Definition dquote : string := String (ascii_of_nat 34) EmptyString.

(** [strings.HasPrefix(s, p)]. *)
Definition HasPrefix (s p : string) : bool := String.prefix p s.

(** [strings.Index(s, sub)]: [None] stands for [-1]. *)
Definition Index (s sub : string) : option nat := String.index 0 sub s.

(** [s[lo:]]: panics when [lo > len(s)]. *)
Definition sliceFrom (s : string) (lo : nat) : result string :=
  if decide (lo ≤ String.length s)
  then Ok (String.substring lo (String.length s - lo) s)
  else Err SliceBoundsOutOfRange.

(** [s[:hi]] for [hi <= len(s)]. *)
Definition sliceTo (s : string) (hi : nat) : string := String.substring 0 hi s.

(** [strings.Split(s, sep)] for a separator [sep] of one byte [c]. *)
Fixpoint SplitAcc (c : ascii) (s : string) (cur : string) : list string :=
  match s with
  | EmptyString => [cur]
  | String a s' =>
      if Ascii.eqb a c then cur :: SplitAcc c s' EmptyString
      else SplitAcc c s' (cur +:+ String a EmptyString)
  end.
Definition Split (s : string) (c : ascii) : list string := SplitAcc c s EmptyString.

(** [strings.Cut(s, sep)] for a separator of one byte: (before, after, found). *)
Fixpoint CutAcc (c : ascii) (s : string) (before : string) : string * string * bool :=
  match s with
  | EmptyString => (before, EmptyString, false)
  | String a s' =>
      if Ascii.eqb a c then (before, s', true)
      else CutAcc c s' (before +:+ String a EmptyString)
  end.
Definition Cut (s : string) (c : ascii) : string * string * bool := CutAcc c s EmptyString.

(** [fmt.Sprintf("%03d", n)] for [n >= 0]: the decimal digits of [n], padded
    on the left with zeros to width 3. *)
Definition decimal (n : nat) : string := NilEmpty.string_of_uint (Nat.to_uint n).
Fixpoint zeros (k : nat) : string :=
  match k with
  | 0 => EmptyString
  | S k' => String "0" (zeros k')
  end.
Definition pad3 (s : string) : string := zeros (3 - String.length s) +:+ s.
Definition Sprintf_section03d (n : nat) : string := "section" +:+ pad3 (decimal n).

(** ** Data model ([internal/gen]) *)

Record SectionData := mkSection {
  ID : string;        (* name of the section file, id in the manifest *)
  EpubType : string;  (* value of the epub-type attribute *)
  Heading : string    (* heading shown in the table of contents *)
}.

Record ImageData := mkImage {
  FileName : string;
  MediaType : string
}.

Record InputBuffer := mkBuffer {
  CurrLine : string;
  lineIndex : nat;
  lines : list string;
  attributes : gmap string string;
  coverImage : ImageData;
  images : gmap string ImageData;
  sections : list SectionData;
  guides : list SectionData;
  currSectionNo : nat
}.

(** The zero value of [SectionData] ([var section SectionData]). *)
Definition zeroSection : SectionData := mkSection "" "" "".

(** [b.attributes[key]]: the empty string when the key is absent. *)
Definition GetAttribute (b : InputBuffer) (key : string) : string :=
  default "" (attributes b !! key).

(** ** The partitioner: [GenNAVFile] *)

Record PartSectionData := mkPart {
  Part : SectionData;
  Chapters : list SectionData
}.

(** The struct handed to the NAV template. *)
Record NavData := mkNav {
  Title : string;
  FrontSections : list SectionData;
  HasParts : bool;
  PartSections : list PartSectionData;
  ChapterSections : list SectionData;
  BackSections : list SectionData;
  Guides : list SectionData
}.

(** [s[lo:hi]] on a slice of sections.  In every use below [hi] is a
    position that was just read and [lo] is at most [hi], so the slice
    expression does not panic. *)
Definition slice {A} (s : list A) (lo hi : nat) : list A := take (hi - lo) (drop lo s).

Definition isBodyMatter (section : SectionData) : bool :=
  (EpubType section == "part") || (EpubType section == "chapter").

(** [for index, section = range b.sections { if ... { break } }]: [i] is the
    position of the head of [l] in [b.sections]; [index] and [section] are
    the variables of the enclosing function, assigned at every iteration. *)
Fixpoint rangeSections (l : list SectionData) (i : nat)
    (index : nat) (section : SectionData) : nat * SectionData :=
  match l with
  | [] => (index, section)
  | s :: l' => if isBodyMatter s then (i, s) else rangeSections l' (S i) i s
  end.

(** The [for { ... index++ }] loop of the branch [hasParts]. *)
Fixpoint partsLoop (fuel : nat) (secs : list SectionData) (index : nat)
    (firstTime : bool) (currPart : SectionData) (startIndex : nat)
    (partSections : list PartSectionData) : result (list PartSectionData * nat) :=
  match fuel with
  | 0 => Err OutOfFuel
  | S fuel' =>
      match secs !! index with
      | None => Err IndexOutOfRange
      | Some section =>
          if EpubType section == "part" then
            if firstTime then
              partsLoop fuel' secs (S index) false section (S index) []
            else
              let partSection := mkPart currPart (slice secs startIndex index) in
              partsLoop fuel' secs (S index) false section (S index)
                        (partSections ++ [partSection])
          else if negb (EpubType section == "chapter") then
            let partSection := mkPart currPart (slice secs startIndex index) in
            Ok (partSections ++ [partSection], index)
          else
            partsLoop fuel' secs (S index) firstTime currPart startIndex partSections
      end
  end.

(** The branch without parts:
    [for ; b.sections[index].EpubType != "chapter"; index++ { break }].
    The body is [break], so the post statement never runs and [index] is
    left as it was, whatever the condition. *)
Definition chaptersLoop (secs : list SectionData) (index : nat) : result nat :=
  match secs !! index with
  | None => Err IndexOutOfRange
  | Some section =>
      if negb (EpubType section == "chapter") then Ok index (* break *)
      else Ok index (* condition false *)
  end.

Definition GenNAVFile (b : InputBuffer) : result NavData :=
  let '(index, section) := rangeSections (sections b) 0 0 zeroSection in
  let frontSections := take index (sections b) in
  let hasParts := EpubType section == "part" in
  '(partSections, chapterSections, index) ←
    (if hasParts then
       '(partSections, index) ←
         partsLoop (S (length (sections b))) (sections b) index true zeroSection 0 [];
       Ok (partSections, [], index)
     else
       let startIndex := index in
       index ← chaptersLoop (sections b) index;
       Ok ([], slice (sections b) startIndex index, index));
  let backSections := drop index (sections b) in
  Ok (mkNav (GetAttribute b "title") frontSections hasParts partSections
            chapterSections backSections (guides b)).

(** ** The line cursor and the section builder ([input_buffer.go]) *)

Definition NewInputBuffer (lines : list string) : InputBuffer :=
  mkBuffer "" 0 lines ∅ (mkImage "" "") ∅ [] [] 0.

Definition setCursor (b : InputBuffer) (i : nat) (line : string) : InputBuffer :=
  mkBuffer line i (lines b) (attributes b) (coverImage b) (images b)
           (sections b) (guides b) (currSectionNo b).

Definition setAttributes (b : InputBuffer) (m : gmap string string) : InputBuffer :=
  mkBuffer (CurrLine b) (lineIndex b) (lines b) m (coverImage b) (images b)
           (sections b) (guides b) (currSectionNo b).

Definition SetAttribute (b : InputBuffer) (key value : string) : InputBuffer :=
  setAttributes b (<[key := value]> (attributes b)).

Definition setCoverImage (b : InputBuffer) (image : ImageData) : InputBuffer :=
  mkBuffer (CurrLine b) (lineIndex b) (lines b) (attributes b) image (images b)
           (sections b) (guides b) (currSectionNo b).

Definition setImages (b : InputBuffer) (m : gmap string ImageData) : InputBuffer :=
  mkBuffer (CurrLine b) (lineIndex b) (lines b) (attributes b) (coverImage b) m
           (sections b) (guides b) (currSectionNo b).

Definition AddSection (b : InputBuffer) (section : SectionData) : InputBuffer :=
  mkBuffer (CurrLine b) (lineIndex b) (lines b) (attributes b) (coverImage b)
           (images b) (sections b ++ [section]) (guides b) (currSectionNo b).

Definition AddGuide (b : InputBuffer) (section : SectionData) : InputBuffer :=
  mkBuffer (CurrLine b) (lineIndex b) (lines b) (attributes b) (coverImage b)
           (images b) (sections b) (guides b ++ [section]) (currSectionNo b).

(** [NewSectionData]: the running number is incremented first. *)
Definition NewSectionData (b : InputBuffer) (epubType heading : string)
    : SectionData * InputBuffer :=
  let n := S (currSectionNo b) in
  (mkSection (Sprintf_section03d n) epubType heading,
   mkBuffer (CurrLine b) (lineIndex b) (lines b) (attributes b) (coverImage b)
            (images b) (sections b) (guides b) n).

(** [NextLine]: [b.lineIndex++], the end-of-input test, then the read. *)
Definition NextLine (b : InputBuffer) : result InputBuffer :=
  let i := S (lineIndex b) in
  if decide (i = length (lines b)) then
    Err (Panic "epubgen: unexpected end of input file")
  else
    match lines b !! i with
    | None => Err IndexOutOfRange
    | Some line => Ok (setCursor b i line)
    end.

(** ** The metadata scan: [LoadAttributes] *)

Definition invalidMeta (line : string) : error :=
  Panic ("Invalid 'meta' HTML line: " +:+ line).

(** The body of [if strings.HasPrefix(b.CurrLine, "<meta")]. *)
Definition loadMeta (b : InputBuffer) : result InputBuffer :=
  match Index (CurrLine b) "name=" with
  | None => Ok b
  | Some index =>
      name ← sliceFrom (CurrLine b) (index + String.length "name=" + 1);
      match Index name dquote with
      | None => Err (invalidMeta (CurrLine b))
      | Some index =>
          let name := sliceTo name index in
          match Index (CurrLine b) "content=" with
          | None => Err (invalidMeta (CurrLine b))
          | Some index =>
              content ← sliceFrom (CurrLine b) (index + String.length "content=" + 1);
              match Index content dquote with
              | None => Err (invalidMeta (CurrLine b))
              | Some index =>
                  let content := sliceTo content index in
                  if negb (name == "") then Ok (SetAttribute b name content)
                  else Ok b
              end
          end
      end
  end.

Fixpoint LoadAttributesLoop (fuel : nat) (b : InputBuffer) : result InputBuffer :=
  match fuel with
  | 0 => Err OutOfFuel
  | S fuel' =>
      b ← NextLine b;
      if CurrLine b == "</head>" then Ok b
      else if HasPrefix (CurrLine b) "<meta" then
        b ← loadMeta b; LoadAttributesLoop fuel' b
      else LoadAttributesLoop fuel' b
  end.

Definition LoadAttributes (b : InputBuffer) : result InputBuffer :=
  LoadAttributesLoop (S (length (lines b))) b.

(** ** Image attributes: [CheckCoverImage], [CheckImageFiles] *)

Definition unsupportedImage : error :=
  Panic "epubgen: only image files with extension 'png' or 'jpeg' are accepted".

Definition acceptedMediaType (mediaType : string) : bool :=
  negb (negb (mediaType == "png") && negb (mediaType == "jpeg")).

Definition CheckCoverImage (b : InputBuffer) : result InputBuffer :=
  let imageFile := GetAttribute b "cover-image" in
  if imageFile == "" then Err (Panic "epubgen: attribute 'cover-image' required")
  else
    let '(_, mediaType, _) := Cut imageFile "." in
    if negb (mediaType == "png") && negb (mediaType == "jpeg") then Err unsupportedImage
    else Ok (setCoverImage b (mkImage imageFile mediaType)).

(** [for _, imageFile := range files]. *)
Fixpoint checkImageFilesLoop (files : list string) (imgs : gmap string ImageData)
    : result (gmap string ImageData) :=
  match files with
  | [] => Ok imgs
  | imageFile :: files' =>
      let '(_, mediaType, _) := Cut imageFile "." in
      if negb (mediaType == "png") && negb (mediaType == "jpeg") then Err unsupportedImage
      else checkImageFilesLoop files' (<[imageFile := mkImage imageFile mediaType]> imgs)
  end.

Definition CheckImageFiles (b : InputBuffer) : result InputBuffer :=
  let value := GetAttribute b "images" in
  if value == "" then Ok b
  else
    imgs ← checkImageFilesLoop (Split value ",") ∅;
    Ok (setImages b imgs).

(** ** Section generators ([gen.go]) *)

(** The loop shared by the [Gen...Section] functions:
    [for { sectionLines = append(sectionLines, b.CurrLine); b.NextLine();
           if strings.HasPrefix(b.CurrLine, "<!--") { break } }]. *)
Fixpoint readSectionLines (fuel : nat) (sectionLines : list string) (b : InputBuffer)
    : result (list string * InputBuffer) :=
  match fuel with
  | 0 => Err OutOfFuel
  | S fuel' =>
      let sectionLines := sectionLines ++ [CurrLine b] in
      b ← NextLine b;
      if HasPrefix (CurrLine b) "<!--" then Ok (sectionLines, b)
      else readSectionLines fuel' sectionLines b
  end.

Definition GenCoverSection (b : InputBuffer) : InputBuffer :=
  let section := mkSection "cover" "cover" "Cover Page" in
  AddGuide (AddSection b section) section.

(** [GenFrontMatterSection], [GenBodyMatterSection] and [GenBackMatterSection]
    differ in the template only. *)
Definition GenFrontMatterSection (b : InputBuffer) (section : SectionData)
    : result InputBuffer :=
  '(sectionLines, b) ← readSectionLines (S (length (lines b))) [] b;
  Ok b.
Definition GenBodyMatterSection := GenFrontMatterSection.
Definition GenBackMatterSection := GenFrontMatterSection.

Definition GenTitlePageSection (b : InputBuffer) : result InputBuffer :=
  let titlePage :=
    if GetAttribute b "titlepage" == "" then "default" else GetAttribute b "titlepage" in
  let section := mkSection "titlepage" "titlepage" "Title Page" in
  let b := AddGuide (AddSection b section) section in
  if titlePage == "default" then Ok b
  else if titlePage == "custom" then
    b ← NextLine b;
    if CurrLine b == "<!--titlepage-->" then
      b ← NextLine b;
      GenFrontMatterSection b section
    else Err (Panic "epubgen: <!--titlepage--> directive expected")
  else
    let parts := Split titlePage "." in
    match parts !! 1 with
    | None => Err IndexOutOfRange
    | Some mediaType =>
        if negb (mediaType == "png") && negb (mediaType == "jpeg") then Err unsupportedImage
        else Ok b
    end.

Definition GenCopyrightSection (b : InputBuffer) (currDate : string) : result InputBuffer :=
  if negb (CurrLine b == "<!--copyright-->") then
    Err (Panic "epubgen: <!--copyright--> directive expected")
  else
    b ← NextLine b;
    let section := mkSection "copyright" "copyright-page" "Copyright" in
    let b := AddSection b section in
    '(sectionLines, b) ← readSectionLines (S (length (lines b))) [] b;
    Ok b.

(** ** [extractHeading] *)

Definition extractHeading (line : string) : result string :=
  if HasPrefix line "<h1" || HasPrefix line "<h2" || HasPrefix line "<h3" then
    (* pos := strings.Index(line, ">") + 1 *)
    let pos := match Index line ">" with None => 0 | Some i => i + 1 end in
    (* line[pos : len(line)-5] *)
    if decide (pos + 5 ≤ String.length line) then
      let heading := String.substring pos (String.length line - 5 - pos) line in
      if heading == "&#160;" then Ok "" else Ok heading
    else Err SliceBoundsOutOfRange
  else
    Err (Panic "epubgen: HTML line with one of the tags <h1>, <h2> or <h3> expected").

(** ** The structural state machine: [main] *)

(** [for { buffer.NextLine(); if buffer.CurrLine == marker { break } }]. *)
Fixpoint skipTo (fuel : nat) (marker : string) (b : InputBuffer) : result InputBuffer :=
  match fuel with
  | 0 => Err OutOfFuel
  | S fuel' =>
      b ← NextLine b;
      if CurrLine b == marker then Ok b else skipTo fuel' marker b
  end.

Definition requireAttribute (b : InputBuffer) (key : string) : result unit :=
  if GetAttribute b key == "" then
    Err (Panic ("epubgen: attribute '" +:+ key +:+ "' required"))
  else Ok ().

Definition checkRequiredAttributes (b : InputBuffer) : result unit :=
  _ ← (if negb (GetAttribute b "version" == "") then
         if negb (GetAttribute b "version" == "epub3") then
           Err (Panic "epubgen: attribute 'version' with value 'epub3' required")
         else Ok ()
       else Err (Panic "epubgen: attribute 'version' required"));
  _ ← requireAttribute b "title";
  _ ← requireAttribute b "title-sort";
  _ ← requireAttribute b "author";
  _ ← requireAttribute b "author-sort";
  _ ← requireAttribute b "published";
  _ ← requireAttribute b "publisher";
  requireAttribute b "language".

(** The flags of loop 1. *)
Record FrontGiven := mkFrontGiven {
  bibliographyGiven : bool;
  acknowledgmentsGiven : bool;
  dedicationGiven : bool;
  epigraphGiven : bool;
  forewordGiven : bool;
  introductionGiven : bool;
  prefaceGiven : bool;
  prologueGiven : bool
}.

Definition noneGiven : FrontGiven :=
  mkFrontGiven false false false false false false false false.

Definition alreadySpecified (directive : string) : error :=
  Panic ("epubgen: Directive " +:+ directive +:+ " already specified").

(** What every case of loop 1 does after its flag test: the heading line,
    the default label, the new section and its lines. *)
Definition frontMatterCase (epubType defaultHeading : string) (b : InputBuffer)
    : result InputBuffer :=
  b ← NextLine b;
  heading ← extractHeading (CurrLine b);
  let heading := if heading == "" then defaultHeading else heading in
  let '(section, b) := NewSectionData b epubType heading in
  let b := AddSection b section in
  GenFrontMatterSection b section.

Fixpoint loop1 (fuel : nat) (g : FrontGiven) (b : InputBuffer) : result InputBuffer :=
  match fuel with
  | 0 => Err OutOfFuel
  | S fuel' =>
      if CurrLine b == "<!--bibliography-->" then
        if bibliographyGiven g then Err (alreadySpecified "<!--bibliography-->")
        else
          b ← frontMatterCase "bibliography" "Bibliography" b;
          loop1 fuel' (mkFrontGiven true (acknowledgmentsGiven g) (dedicationGiven g)
                         (epigraphGiven g) (forewordGiven g) (introductionGiven g)
                         (prefaceGiven g) (prologueGiven g)) b
      else if CurrLine b == "<!--acknowledgments-->" then
        if acknowledgmentsGiven g then Err (alreadySpecified "<!--acknowledgments-->")
        else
          b ← frontMatterCase "acknowledgments" "Acknowledgments" b;
          loop1 fuel' (mkFrontGiven (bibliographyGiven g) true (dedicationGiven g)
                         (epigraphGiven g) (forewordGiven g) (introductionGiven g)
                         (prefaceGiven g) (prologueGiven g)) b
      else if CurrLine b == "<!--dedication-->" then
        if dedicationGiven g then Err (alreadySpecified "<!--dedication-->")
        else
          b ← frontMatterCase "dedication" "Dedication" b;
          loop1 fuel' (mkFrontGiven (bibliographyGiven g) (acknowledgmentsGiven g) true
                         (epigraphGiven g) (forewordGiven g) (introductionGiven g)
                         (prefaceGiven g) (prologueGiven g)) b
      else if CurrLine b == "<!--epigraph-->" then
        if epigraphGiven g then Err (alreadySpecified "<!--epigraph-->")
        else
          b ← frontMatterCase "epigraph" "Epigraph" b;
          loop1 fuel' (mkFrontGiven (bibliographyGiven g) (acknowledgmentsGiven g)
                         (dedicationGiven g) true (forewordGiven g) (introductionGiven g)
                         (prefaceGiven g) (prologueGiven g)) b
      else if CurrLine b == "<!--foreword-->" then
        if forewordGiven g then Err (alreadySpecified "<!--foreword-->")
        else
          b ← frontMatterCase "foreword" "Foreword" b;
          loop1 fuel' (mkFrontGiven (bibliographyGiven g) (acknowledgmentsGiven g)
                         (dedicationGiven g) (epigraphGiven g) true (introductionGiven g)
                         (prefaceGiven g) (prologueGiven g)) b
      else if CurrLine b == "<!--introduction-->" then
        if introductionGiven g then Err (alreadySpecified "<!--introduction-->")
        else
          b ← frontMatterCase "introduction" "Introduction" b;
          loop1 fuel' (mkFrontGiven (bibliographyGiven g) (acknowledgmentsGiven g)
                         (dedicationGiven g) (epigraphGiven g) (forewordGiven g) true
                         (prefaceGiven g) (prologueGiven g)) b
      else if CurrLine b == "<!--preface-->" then
        if prefaceGiven g then Err (alreadySpecified "<!--preface-->")
        else
          b ← frontMatterCase "preface" "Preface" b;
          loop1 fuel' (mkFrontGiven (bibliographyGiven g) (acknowledgmentsGiven g)
                         (dedicationGiven g) (epigraphGiven g) (forewordGiven g)
                         (introductionGiven g) true (prologueGiven g)) b
      else if CurrLine b == "<!--prologue-->" then
        if prologueGiven g then Err (alreadySpecified "<!--prologue-->")
        else
          b ← frontMatterCase "prologue" "Prologue" b;
          loop1 fuel' (mkFrontGiven (bibliographyGiven g) (acknowledgmentsGiven g)
                         (dedicationGiven g) (epigraphGiven g) (forewordGiven g)
                         (introductionGiven g) (prefaceGiven g) true) b
      else if CurrLine b == "<!--preamble-->" then
        b ← frontMatterCase "preamble" "Preamble" b;
        loop1 fuel' g b
      else Ok b (* break loop1 *)
  end.

(** The two cases of loop 2 keep the heading as extracted. *)
Definition bodyMatterCase (epubType : string) (firstBodymatter : bool) (b : InputBuffer)
    : result (bool * InputBuffer) :=
  b ← NextLine b;
  heading ← extractHeading (CurrLine b);
  let '(section, b) := NewSectionData b epubType heading in
  let b := AddSection b section in
  b ← GenBodyMatterSection b section;
  if firstBodymatter then Ok (false, AddGuide b section)
  else Ok (firstBodymatter, b).

Fixpoint loop2 (fuel : nat) (firstBodymatter : bool) (b : InputBuffer)
    : result (bool * InputBuffer) :=
  match fuel with
  | 0 => Err OutOfFuel
  | S fuel' =>
      if CurrLine b == "<!--part-->" then
        '(firstBodymatter, b) ← bodyMatterCase "part" firstBodymatter b;
        loop2 fuel' firstBodymatter b
      else if CurrLine b == "<!--chapter-->" then
        '(firstBodymatter, b) ← bodyMatterCase "chapter" firstBodymatter b;
        loop2 fuel' firstBodymatter b
      else Ok (firstBodymatter, b) (* break loop2 *)
  end.

(** The flags of loop 3. *)
Record BackGiven := mkBackGiven {
  afterwordGiven : bool;
  epilogueGiven : bool;
  firstBackmatter : bool
}.

Definition backMatterCase (epubType defaultHeading : string) (firstBackmatter : bool)
    (b : InputBuffer) : result (bool * InputBuffer) :=
  b ← NextLine b;
  heading ← extractHeading (CurrLine b);
  let heading := if heading == "" then defaultHeading else heading in
  let '(section, b) := NewSectionData b epubType heading in
  let b := AddSection b section in
  b ← GenBackMatterSection b section;
  if firstBackmatter then Ok (false, AddGuide b section)
  else Ok (firstBackmatter, b).

Fixpoint loop3 (fuel : nat) (g : BackGiven) (b : InputBuffer) : result InputBuffer :=
  match fuel with
  | 0 => Err OutOfFuel
  | S fuel' =>
      if CurrLine b == "<!--afterword-->" then
        if afterwordGiven g then Err (alreadySpecified "<!--afterword-->")
        else
          '(first, b) ← backMatterCase "afterword" "Afterword" (firstBackmatter g) b;
          loop3 fuel' (mkBackGiven true (epilogueGiven g) first) b
      else if CurrLine b == "<!--epilogue-->" then
        if epilogueGiven g then Err (alreadySpecified "<!--epilogue-->")
        else
          '(first, b) ← backMatterCase "epilogue" "Epilogue" (firstBackmatter g) b;
          loop3 fuel' (mkBackGiven (afterwordGiven g) true first) b
      else if CurrLine b == "<!--appendix-->" then
        '(first, b) ← backMatterCase "appendix" "Appendix" (firstBackmatter g) b;
        loop3 fuel' (mkBackGiven (afterwordGiven g) (epilogueGiven g) first) b
      else if CurrLine b == "<!--end-->" then Ok b (* break loop3 *)
      else Err (Panic ("epubgen: Unknown directive: " +:+ CurrLine b))
  end.

(** [main] up to the first directive: the head section, the attribute
    checks, the two timestamps and the skip to the body. *)
Definition header (currTimeStamp : string) (lines : list string) : result InputBuffer :=
  let b := NewInputBuffer lines in
  b ← skipTo (S (length lines)) "<head>" b;
  b ← LoadAttributes b;
  _ ← checkRequiredAttributes b;
  b ← CheckCoverImage b;
  b ← CheckImageFiles b;
  let b := if GetAttribute b "created" == "" then SetAttribute b "created" currTimeStamp
           else b in
  let b := SetAttribute b "modified" currTimeStamp in
  b ← skipTo (S (length lines)) "<body>" b;
  NextLine b.

(** Steps 1 to 3 of [main]: cover, title page, copyright. *)
Definition fixedSections (currTimeStamp : string) (b : InputBuffer) : result InputBuffer :=
  let b := GenCoverSection b in
  b ← GenTitlePageSection b;
  (* currTimeStamp[:10] *)
  currDate ← (if decide (10 ≤ String.length currTimeStamp)
              then Ok (sliceTo currTimeStamp 10) else Err SliceBoundsOutOfRange);
  GenCopyrightSection b currDate.

(** Steps 4 to 6 of [main]: front matter, body matter, back matter. *)
Definition directiveLoops (b : InputBuffer) : result InputBuffer :=
  b ← loop1 (S (length (lines b))) noneGiven b;
  '(firstBodymatter, b) ← loop2 (S (length (lines b))) true b;
  if (firstBodymatter : bool) then
    Err (Panic "epubgen: at least one <!--chapter--> directive must be specified")
  else loop3 (S (length (lines b))) (mkBackGiven false false true) b.

(** The parser: [main] from the input lines to the end of loop 3. *)
Definition parse (currTimeStamp : string) (lines : list string) : result InputBuffer :=
  b ← header currTimeStamp lines;
  b ← fixedSections currTimeStamp b;
  directiveLoops b.

(** [main]: the parser, then step 7 with the partitioner. *)
Definition main (currTimeStamp : string) (lines : list string)
    : result (InputBuffer * NavData) :=
  b ← parse currTimeStamp lines;
  nav ← GenNAVFile b;
  Ok (b, nav).

(** ** Vocabulary of the properties *)

(** The current line is the line at the current position. *)
Definition cursorOK (b : InputBuffer) : Prop :=
  lines b !! lineIndex b = Some (CurrLine b).

(** [b'] is [b] with the cursor moved forward. *)
Definition moved (b b' : InputBuffer) : Prop :=
  ∃ i line, b' = setCursor b i line ∧ lines b !! i = Some line ∧ lineIndex b < i.

(** [b'] is [b] up to the cursor, the attributes and the images. *)
Definition sameBook (b b' : InputBuffer) : Prop :=
  lines b' = lines b ∧ sections b' = sections b ∧ guides b' = guides b
  ∧ currSectionNo b' = currSectionNo b.

(** The marker line of a directive. *)
Definition directiveOf (kind : string) : string := "<!--" +:+ kind +:+ "-->".

(** The directive kinds that may occur at most once, by loop. *)
Definition frontOnce : list string :=
  ["bibliography"; "acknowledgments"; "dedication"; "epigraph"; "foreword";
   "introduction"; "preface"; "prologue"].
Definition backOnce : list string := ["afterword"; "epilogue"].

(** The kinds whose empty heading is replaced by a default label. *)
Definition labelled : list string :=
  frontOnce ++ ["preamble"] ++ backOnce ++ ["appendix"].

(** The kinds of the sections made by [NewSectionData]. *)
Definition generatedKinds : list string := labelled ++ ["part"; "chapter"].

(** The marker lines accepted by each loop. *)
Definition frontDirectives : list string :=
  directiveOf <$> (frontOnce ++ ["preamble"]).
Definition bodyDirectives : list string := directiveOf <$> ["part"; "chapter"].
Definition backDirectives : list string :=
  directiveOf <$> (backOnce ++ ["appendix"; "end"]).

(** The flag of loop 1, respectively loop 3, that belongs to a kind. *)
Definition frontFlag (kind : string) (g : FrontGiven) : bool :=
  if kind == "bibliography" then bibliographyGiven g
  else if kind == "acknowledgments" then acknowledgmentsGiven g
  else if kind == "dedication" then dedicationGiven g
  else if kind == "epigraph" then epigraphGiven g
  else if kind == "foreword" then forewordGiven g
  else if kind == "introduction" then introductionGiven g
  else if kind == "preface" then prefaceGiven g
  else if kind == "prologue" then prologueGiven g
  else false.

Definition backFlag (kind : string) (g : BackGiven) : bool :=
  if kind == "afterword" then afterwordGiven g
  else if kind == "epilogue" then epilogueGiven g
  else false.

(** The three sections with fixed identifiers, and their kinds. *)
Definition coverSection : SectionData := mkSection "cover" "cover" "Cover Page".
Definition titlepageSection : SectionData := mkSection "titlepage" "titlepage" "Title Page".
Definition copyrightSection : SectionData := mkSection "copyright" "copyright-page" "Copyright".
Definition fixedThree : list SectionData := [coverSection; titlepageSection; copyrightSection].
Definition fixedKinds : list string := ["cover"; "titlepage"; "copyright-page"].

(** The section sequences the parser can build over the input [lines]:
    the three fixed sections, then sections numbered by the running
    counter, each for a directive line of the input. *)
Inductive built (lines : list string) : list SectionData → nat → Prop :=
| built_fixed : built lines fixedThree 0
| built_new secs n kind heading :
    built lines secs n →
    kind ∈ generatedKinds →
    directiveOf kind ∈ lines →
    (kind ∈ labelled → heading ≠ "") →
    built lines (secs ++ [mkSection (Sprintf_section03d (S n)) kind heading]) (S n).

(** The invariant of the three loops. *)
Definition Inv (b : InputBuffer) : Prop :=
  cursorOK b ∧ built (lines b) (sections b) (currSectionNo b).

(** One iteration of a loop: a section of [kind] was appended and the
    cursor moved to the next directive. *)
Definition stepped (kind label : string) (b b' : InputBuffer) : Prop :=
  ∃ heading,
    let section := mkSection (Sprintf_section03d (S (currSectionNo b))) kind heading in
    (heading = "" → label = "")
    ∧ lines b' = lines b
    ∧ cursorOK b'
    ∧ lineIndex b < lineIndex b'
    ∧ currSectionNo b' = S (currSectionNo b)
    ∧ sections b' = sections b ++ [section]
    ∧ attributes b' = attributes b.

(** Number of sections of a kind. *)
Definition countKind (kind : string) (secs : list SectionData) : nat :=
  length (filter (λ s, EpubType s = kind) secs).

(** The running number written in a section identifier: [Some n] for
    ["section"] followed by decimal digits that read [n]. *)
Definition sectionNumber (id : string) : option nat :=
  if HasPrefix id "section" then
    Nat.of_uint <$>
      NilEmpty.uint_of_string (String.substring 7 (String.length id - 7) id)
  else None.

(** A meta declaration in the sense of [LoadAttributes] (the line has
    [name=] with at least the opening quote after it) that lacks the closing
    quote of the name, the [content=] component, or the closing quote of
    the content. *)
Definition malformedMeta (line : string) : Prop :=
  ∃ i name,
    Index line "name=" = Some i
    ∧ sliceFrom line (i + String.length "name=" + 1) = Ok name
    ∧ (Index name dquote = None
       ∨ Index line "content=" = None
       ∨ ∃ j content,
           Index line "content=" = Some j
           ∧ sliceFrom line (j + String.length "content=" + 1) = Ok content
           ∧ Index content dquote = None).

(** What the NAV template receives, without the title and the guides. *)
Definition grouping (nav : NavData)
    : list SectionData * bool * list PartSectionData * list SectionData * list SectionData :=
  (FrontSections nav, HasParts nav, PartSections nav, ChapterSections nav, BackSections nav).

Definition navOf {A} (r : result (A * NavData)) : option NavData :=
  match r with
  | Ok (_, nav) => Some nav
  | Err _ => None
  end.

(** ** Sample documents *)

Definition metaLine (name content : string) : string :=
  "<meta name=" +:+ dquote +:+ name +:+ dquote +:+
  " content=" +:+ dquote +:+ content +:+ dquote +:+ "/>".

(** A head section with the required attributes, followed by [extra]. *)
Definition headLines (extra : list string) : list string :=
  ["<!DOCTYPE html>"; "<html>"; "<head>";
   metaLine "version" "epub3";
   metaLine "title" "A Book";
   metaLine "title-sort" "Book, A";
   metaLine "author" "An Author";
   metaLine "author-sort" "Author, An";
   metaLine "published" "2023";
   metaLine "publisher" "A Publisher";
   metaLine "language" "en";
   metaLine "cover-image" "cover.jpeg"] ++ extra ++ ["</head>"; "<body>"].

Definition document (body : list string) : list string := headLines [] ++ body.

Definition timeStamp : string := "2023-07-22T10:00:00Z".

Definition copyrightLines : list string := ["<!--copyright-->"; "<p>All rights reserved.</p>"].
Definition chapterLines (heading : string) : list string :=
  ["<!--chapter-->"; "<h1>" +:+ heading +:+ "</h1>"; "<p>Text.</p>"].
Definition partLines (heading : string) : list string :=
  ["<!--part-->"; "<h1>" +:+ heading +:+ "</h1>"; "<p>Text.</p>"].

(** The body of Scenario A under a head section with the extra lines [extra]. *)
Definition documentWith (extra : list string) : list string :=
  headLines extra
  ++ copyrightLines ++ chapterLines "One" ++ chapterLines "Two" ++ ["<!--end-->"].

(** The buffer the parser leaves for [lines] (the empty buffer when the
    parser fails). *)
Definition parsed (lines : list string) : InputBuffer :=
  match parse timeStamp lines with
  | Ok b => b
  | Err _ => NewInputBuffer []
  end.

(** Scenario A: copyright, chapter, chapter, end. *)
Definition scenarioA : list string :=
  document (copyrightLines ++ chapterLines "One" ++ chapterLines "Two" ++ ["<!--end-->"]).

(** Scenario B: copyright, part, chapter, chapter, part, chapter, end. *)
Definition scenarioB : list string :=
  document (copyrightLines ++ partLines "I" ++ chapterLines "One" ++ chapterLines "Two"
            ++ partLines "II" ++ chapterLines "Three" ++ ["<!--end-->"]).

(** Scenario B followed by an afterword. *)
Definition scenarioBAfterword : list string :=
  document (copyrightLines ++ partLines "I" ++ chapterLines "One" ++ chapterLines "Two"
            ++ partLines "II" ++ chapterLines "Three"
            ++ ["<!--afterword-->"; "<h1>After</h1>"; "<p>Text.</p>"; "<!--end-->"]).

(** Chapter first, then a part: copyright, chapter, part, end. *)
Definition scenarioChapterPart : list string :=
  document (copyrightLines ++ chapterLines "One" ++ partLines "I" ++ ["<!--end-->"]).

(** Scenario C: a preface with the sentinel heading, then a chapter. *)
Definition scenarioC : list string :=
  document (copyrightLines
            ++ ["<!--preface-->"; "<h1>&#160;</h1>"; "<p>Text.</p>"]
            ++ chapterLines "One" ++ ["<!--end-->"]).

(** Scenario D: bibliography twice in the front matter; the second
    directive is the last line of the input. *)
Definition scenarioD : list string :=
  document (copyrightLines
            ++ ["<!--bibliography-->"; "<h1>Sources</h1>"; "<p>Text.</p>"]
            ++ ["<!--bibliography-->"]).

(** The preface directive once in the front matter and once more after the
    body matter. *)
Definition scenarioPrefaceTwice : list string :=
  document (copyrightLines
            ++ ["<!--preface-->"; "<h1>&#160;</h1>"; "<p>Text.</p>"]
            ++ chapterLines "One"
            ++ ["<!--preface-->"; "<h1>Again</h1>"; "<p>Text.</p>"; "<!--end-->"]).

(** Scenario E: an unknown marker where a back-matter directive is expected. *)
Definition scenarioE : list string :=
  document (copyrightLines ++ chapterLines "One" ++ ["<!--unknown-->"]).

(** An unknown marker where a front-matter directive is expected. *)
Definition scenarioUnknownFront : list string :=
  document (copyrightLines ++ ["<!--unknown-->"] ++ chapterLines "One" ++ ["<!--end-->"]).

(** A meta line without a name component. *)
Definition metaCharset : string := "<meta charset=utf-8>".

(** A meta line with a name and without a content component. *)
Definition metaNoContent : string := "<meta name=" +:+ dquote +:+ "subtitle" +:+ dquote +:+ ">".

(** Documents with a title-page or an images attribute. *)
Definition scenarioTitleNoDot : list string :=
  documentWith [metaLine "titlepage" "frontispiece"].
Definition scenarioTitleTwoDots : list string :=
  documentWith [metaLine "titlepage" "title.png.txt"].
Definition scenarioTitlePng : list string :=
  documentWith [metaLine "titlepage" "title.png"].
Definition scenarioTitleGif : list string :=
  documentWith [metaLine "titlepage" "title.gif"].
Definition scenarioImagesNoDot : list string :=
  documentWith [metaLine "images" "fig1.png,figure"].
Definition scenarioImages : list string :=
  documentWith [metaLine "images" "fig1.png,fig2.jpeg"].

(** A buffer whose cursor is on [line], the last line of the input. *)
Definition bufferAt (line : string) : InputBuffer :=
  setCursor (NewInputBuffer [""; line]) 1 line.

(** A buffer before [line], which is followed by the end of the head. *)
Definition bufferBefore (line : string) : InputBuffer :=
  setCursor (NewInputBuffer ["<head>"; line; "</head>"]) 0 "<head>".

(** A buffer at a preface directive that is followed by the sentinel
    heading, and the buffer after [NextLine]. *)
Definition prefaceBuffer : InputBuffer :=
  setCursor (NewInputBuffer ["<!--preface-->"; "<h1>&#160;</h1>"; "<p>Text.</p>"])
            0 "<!--preface-->".
Definition prefaceBuffer1 : InputBuffer := setCursor prefaceBuffer 1 "<h1>&#160;</h1>".

(** A heading line: the opening tag [<hN attrs>], the heading text and a
    closing tag. *)
Definition headingLine (n : ascii) (attrs heading close : string) : string :=
  "<h" +:+ String n "" +:+ attrs +:+ ">" +:+ heading +:+ close.

(** A buffer in the middle of a section: the cursor is on the heading line
    of a chapter. *)
Definition chapterBuffer : InputBuffer :=
  setCursor (NewInputBuffer
               ["<!--chapter-->"; "<h1>One</h1>"; "<p>a</p>"; "<p>b</p>"; "<!--end-->"])
            1 "<h1>One</h1>".

(** A line that the section generators take for a directive. *)
Definition isDirective (line : string) : Prop := HasPrefix line "<!--" = true.

(** The directive lines among the lines at positions [lo] to [hi - 1]. *)
Definition directivesIn (lines : list string) (lo hi : nat) : list string :=
  filter isDirective (slice lines lo hi).

(** The kinds of the three groups of directives. *)
Definition frontKinds : list string := frontOnce ++ ["preamble"].
Definition bodyKinds : list string := ["part"; "chapter"].
Definition backKinds : list string := backOnce ++ ["appendix"].

(** The sections of [secs] whose kind is in [kinds]. *)
Definition ofKinds (kinds : list string) (secs : list SectionData) : list SectionData :=
  filter (λ s, EpubType s ∈ kinds) secs.

(** [b'] is [b] after the sections [added] were built, [gadded] of them
    also entered in the guides, from the lines between the two cursors:
    the directive lines among these are the directives of [added], and
    nothing else changed. *)
Record grew (b b' : InputBuffer) (added gadded : list SectionData) : Prop := {
  grew_lines : lines b' = lines b;
  grew_attributes : attributes b' = attributes b;
  grew_coverImage : coverImage b' = coverImage b;
  grew_images : images b' = images b;
  grew_sections : sections b' = sections b ++ added;
  grew_guides : guides b' = guides b ++ gadded;
  grew_currSectionNo : currSectionNo b' = currSectionNo b + length added;
  grew_lineIndex : lineIndex b ≤ lineIndex b';
  grew_cursorOK : cursorOK b';
  grew_directives :
    directivesIn (lines b) (lineIndex b) (lineIndex b')
      = directiveOf <$> (EpubType <$> added)
}.

(** The required attributes, other than the version. *)
Definition requiredKeys : list string :=
  ["title"; "title-sort"; "author"; "author-sort"; "published"; "publisher"; "language"].

(** The attributes with the two timestamps of [main]: "created" is kept
    when it has a value, "modified" is always set. *)
Definition stamped (currTimeStamp : string) (attrs : gmap string string)
    : gmap string string :=
  <["modified" := currTimeStamp]>
    (if default "" (attrs !! "created") == "" then <["created" := currTimeStamp]> attrs
     else attrs).

(** The media type [CheckCoverImage] and [CheckImageFiles] give a file
    name: what follows its first dot. *)
Definition mediaTypeOf (imageFile : string) : string := (Cut imageFile ".").1.2.

(** The first position after [lo] that holds [marker] is [hi]. *)
Definition firstAfter (lines : list string) (marker : string) (lo hi : nat) : Prop :=
  lo < hi ∧ lines !! hi = Some marker
  ∧ ∀ k, lo < k < hi → lines !! k ≠ Some marker.

(** What [header] leaves: the markers at [h], [e] and [d], the attributes
    [loaded] from the head section, checked and stamped, the images, and a
    cursor right after the body marker. *)
Record headerRun (currTimeStamp : string) (lines0 : list string) (h e d : nat)
    (loaded : gmap string string) (b : InputBuffer) : Prop := {
  hr_head : firstAfter lines0 "<head>" 0 h;
  hr_headEnd : firstAfter lines0 "</head>" h e;
  hr_body : firstAfter lines0 "<body>" e d;
  hr_lineIndex : lineIndex b = S d;
  hr_cursorOK : cursorOK b;
  hr_lines : lines b = lines0;
  hr_sections : sections b = [];
  hr_guides : guides b = [];
  hr_currSectionNo : currSectionNo b = 0;
  hr_attributes : attributes b = stamped currTimeStamp loaded;
  hr_version : default "" (loaded !! "version") = "epub3";
  hr_required : Forall (λ key, default "" (loaded !! key) ≠ "") requiredKeys;
  hr_cover : default "" (loaded !! "cover-image") ≠ "";
  hr_coverImage :
    coverImage b = mkImage (default "" (loaded !! "cover-image"))
                           (mediaTypeOf (default "" (loaded !! "cover-image")));
  hr_coverType :
    acceptedMediaType (mediaTypeOf (default "" (loaded !! "cover-image"))) = true;
  hr_imagesTypes :
    default "" (loaded !! "images") ≠ "" →
    Forall (λ f, acceptedMediaType (mediaTypeOf f) = true)
           (Split (default "" (loaded !! "images")) ",");
  hr_images : ∀ f,
    images b !! f =
      if decide (default "" (loaded !! "images") ≠ ""
                 ∧ f ∈ Split (default "" (loaded !! "images")) ",")
      then Some (mkImage f (mediaTypeOf f)) else None
}.

(** The value [GenTitlePageSection] switches on. *)
Definition titlePageOf (b : InputBuffer) : string :=
  if GetAttribute b "titlepage" == "" then "default" else GetAttribute b "titlepage".

(** No line at a position strictly between [lo] and [hi] is a directive. *)
Definition noDirective (lines : list string) (lo hi : nat) : Prop :=
  ∀ k line, lo < k < hi → lines !! k = Some line → HasPrefix line "<!--" = false.

(** What steps 1 to 3 of [main] leave: the cover, title-page and copyright
    sections, the first two also in the guides, the copyright directive at
    [k], and the cursor at the first directive after the copyright lines;
    the running number and the attributes are untouched. *)
Record fixedRun (b b' : InputBuffer) (k : nat) : Prop := {
  fr_lines : lines b' = lines b;
  fr_attributes : attributes b' = attributes b;
  fr_coverImage : coverImage b' = coverImage b;
  fr_images : images b' = images b;
  fr_sections : sections b' = sections b ++ fixedThree;
  fr_guides : guides b' = guides b ++ [coverSection; titlepageSection];
  fr_currSectionNo : currSectionNo b' = currSectionNo b;
  fr_cursorOK : cursorOK b';
  fr_directive : HasPrefix (CurrLine b') "<!--" = true;
  fr_copyright : lines b !! k = Some "<!--copyright-->";
  fr_from : lineIndex b ≤ k;
  fr_to : S k < lineIndex b';
  fr_between : noDirective (lines b) (S k) (lineIndex b');
  fr_titlepage : titlePageOf b ≠ "custom" → k = lineIndex b;
  fr_custom :
    titlePageOf b = "custom" →
    lines b !! S (lineIndex b) = Some "<!--titlepage-->"
    ∧ S (S (lineIndex b)) < k
    ∧ noDirective (lines b) (S (S (lineIndex b))) k
}.

(** An accepted document: the result [b0] of [header], the copyright
    directive at [k], the first directive after the copyright lines at [c],
    and the sections built by the three loops. *)
Record parseRun (currTimeStamp : string) (lines0 : list string) (b0 : InputBuffer)
    (k c : nat) (front body back : list SectionData) (b : InputBuffer) : Prop := {
  pr_stamp : 10 ≤ String.length currTimeStamp;
  pr_lines : lines b = lines0;
  pr_attributes : attributes b = attributes b0;
  pr_coverImage : coverImage b = coverImage b0;
  pr_images : images b = images b0;
  pr_sections : sections b = fixedThree ++ front ++ body ++ back;
  pr_guides : guides b = [coverSection; titlepageSection] ++ take 1 body ++ take 1 back;
  pr_currSectionNo : currSectionNo b = length (front ++ body ++ back);
  pr_front : Forall (λ s, EpubType s ∈ frontKinds) front;
  pr_body : Forall (λ s, EpubType s ∈ bodyKinds) body;
  pr_back : Forall (λ s, EpubType s ∈ backKinds) back;
  pr_chapter : body ≠ [];
  pr_copyright : lines0 !! k = Some "<!--copyright-->";
  pr_from : lineIndex b0 ≤ k;
  pr_custom : titlePageOf b0 ≠ "custom" → k = lineIndex b0;
  pr_customTitle :
    titlePageOf b0 = "custom" →
    lines0 !! S (lineIndex b0) = Some "<!--titlepage-->"
    ∧ S (S (lineIndex b0)) < k
    ∧ noDirective lines0 (S (S (lineIndex b0))) k;
  pr_first : S k < c ≤ lineIndex b;
  pr_between : noDirective lines0 (S k) c;
  pr_directives :
    directivesIn lines0 c (lineIndex b)
      = directiveOf <$> (EpubType <$> (front ++ body ++ back));
  pr_end : lines0 !! lineIndex b = Some "<!--end-->";
  pr_CurrLine : CurrLine b = "<!--end-->"
}.

(** A document with every group: an images and a created attribute, a
    preface, a part with a chapter, an afterword and an appendix. *)
Definition scenarioFull : list string :=
  headLines [metaLine "images" "fig1.png,fig2.jpeg";
             metaLine "created" "2020-01-01T00:00:00Z"]
  ++ copyrightLines
  ++ ["<!--preface-->"; "<h1>&#160;</h1>"; "<p>Text.</p>"]
  ++ partLines "I" ++ chapterLines "One"
  ++ ["<!--afterword-->"; "<h1>After</h1>"; "<p>Text.</p>"]
  ++ ["<!--appendix-->"; "<h1>A</h1>"; "<p>Text.</p>"; "<!--end-->"].

(** What a well-formed declaration adds to the attributes: nothing when
    the name is empty. *)
Definition declare (attrs : gmap string string) (declaration : string * string)
    : gmap string string :=
  if declaration.1 == "" then attrs else <[declaration.1 := declaration.2]> attrs.

(** A name and a content that [LoadAttributes] reads back from the line
    [metaLine name content]: no double quote in either, and no [content=]
    in the name. *)
Definition readable (declaration : string * string) : Prop :=
  Index declaration.1 dquote = None
  ∧ Index declaration.1 "content=" = None
  ∧ Index declaration.2 dquote = None.

(** A buffer on [<head>], followed by two declarations of the same name and
    the end of the head. *)
Definition headBuffer : InputBuffer :=
  setCursor (NewInputBuffer ["<head>"; metaLine "title" "A Book"; metaLine "title" "Another";
                             metaLine "" "x"; "</head>"; "<body>"])
            0 "<head>".

(** The sections of the part groups, in order: each part, then its chapters. *)
Definition flattenParts (partSections : list PartSectionData) : list SectionData :=
  flat_map (λ g, Part g :: Chapters g) partSections.

(** A part group: a part section with chapter sections. *)
Definition partGroup (g : PartSectionData) : Prop :=
  EpubType (Part g) = "part" ∧ Forall (λ s, EpubType s = "chapter") (Chapters g).

(** What [GenNAVFile] hands to the template for [b] (an empty struct when
    it does not return). *)
Definition navigation (b : InputBuffer) : NavData :=
  match GenNAVFile b with
  | Ok nav => nav
  | Err _ => mkNav "" [] false [] [] [] []
  end.

(** A document with a custom title page: one line between [<body>] and
    the title-page directive. *)
Definition scenarioCustomTitle : list string :=
  headLines [metaLine "titlepage" "custom"]
  ++ ["<div>"; "<!--titlepage-->"; "<h1>A Book</h1>"; "<p>An Author</p>"]
  ++ copyrightLines ++ chapterLines "One" ++ ["<!--end-->"].

(** The same with the title-page directive right after [<body>]. *)
Definition scenarioCustomTitleFirst : list string :=
  headLines [metaLine "titlepage" "custom"]
  ++ ["<!--titlepage-->"; "<h1>A Book</h1>"; "<p>An Author</p>"]
  ++ copyrightLines ++ chapterLines "One" ++ ["<!--end-->"].

(** ** Arguments and configuration: [parm.CheckArgsAndParms] *)

Module parm.

(** How [CheckArgsAndParms] ends: it returns, it prints the usage text and
    calls [os.Exit], or it panics. *)
Inductive outcome (A : Type) : Type :=
| Done (a : A)
| Exit (code : nat)
| Panicked (msg : string).
Arguments Done {A} a.
Arguments Exit {A} code.
Arguments Panicked {A} msg.

#[global] Instance outcome_ret : MRet outcome := λ A a, Done a.
#[global] Instance outcome_bind : MBind outcome := λ A B f r,
  match r with
  | Done a => f a
  | Exit code => Exit code
  | Panicked msg => Panicked msg
  end.

(** The package variables set by [CheckArgsAndParms]. *)
Record Parms := mkParms {
  BookName : string;
  SourceDir : string;
  TargetDir : string;
  ResourceDir : string;
  TemplatesDir : string
}.

(** What [os.ReadFile] and [yaml.Unmarshal] make of a path: the file
    cannot be read, it is not a map of strings, or it is one. *)
Inductive configFile : Type :=
| Unreadable (err : string)
| Invalid (err : string)
| Config (cfgMap : gmap string string).

Definition requiredParameter (cfgMap : gmap string string) (key : string)
    : outcome string :=
  match cfgMap !! key with
  | Some value => Done value
  | None => Panicked ("epubgen: config parameter '" +:+ key +:+ "' required")
  end.

Definition CheckArgsAndParms (args : list string) (readConfig : string → configFile)
    : outcome Parms :=
  '(configFile, bookName) ←
    match args with
    | [_] => Exit 1
    | [_; bookName] => Done ("", bookName)
    | [_; flag; configFile; bookName] =>
        if flag == "-c" then Done (configFile, bookName) else Exit 1
    | _ => Exit 1
    end;
  let configFile := if configFile == "" then "./config.yaml" else configFile in
  match readConfig configFile with
  | Config cfgMap =>
      sourceDir ← requiredParameter cfgMap "source_dir";
      targetDir ← requiredParameter cfgMap "target_dir";
      resourceDir ← requiredParameter cfgMap "resource_dir";
      templatesDir ← requiredParameter cfgMap "templates_dir";
      Done (mkParms bookName sourceDir targetDir resourceDir templatesDir)
  | Invalid err =>
      Panicked ("epubgen: error unmarshalling config file " +:+ configFile +:+ ": " +:+ err)
  | Unreadable err =>
      Panicked ("epubgen: cannot read config file " +:+ configFile +:+ ": " +:+ err)
  end.

(** The parameters of the configuration file, in the order in which they
    are looked up. *)
Definition configKeys : list string :=
  ["source_dir"; "target_dir"; "resource_dir"; "templates_dir"].

(** The argument lists that are not answered with the usage text: the
    program name with a book name, or with [-c], a path and a book name. *)
Definition wellFormedArgs (args : list string) : Prop :=
  length args = 2 ∨ (length args = 4 ∧ args !! 1 = Some "-c").

(** The configuration file that is read: the third argument when there is
    one and it is not empty. *)
Definition configPath (args : list string) : string :=
  match args !! 2 with
  | Some path => if path == "" then "./config.yaml" else path
  | None => "./config.yaml"
  end.

(** A configuration with the four directories, some of them empty. *)
Definition sampleConfig (path : string) : configFile :=
  if path == "./config.yaml"
  then Config {[ "source_dir" := "./source"; "target_dir" := "./target";
                 "resource_dir" := ""; "templates_dir" := "" ]}
  else Unreadable "no such file".

End parm.

(** ** The control files: [GenNCXFile], [GenOPFFile] *)

(** [strings.Replace(s, old, new, -1)] for [old] of one byte. *)
Fixpoint ReplaceAll (s : string) (old : ascii) (new : string) : string :=
  match s with
  | EmptyString => EmptyString
  | String a s' =>
      if Ascii.eqb a old then new +:+ ReplaceAll s' old new
      else String a (ReplaceAll s' old new)
  end.

(** [strings.Split(s, sep)] for a separator that is not empty: the text up
    to each occurrence of [sep], found from left to right, then the rest.
    There are at most [len(s)] occurrences. *)
Fixpoint genSplit (n : nat) (s sep : string) : list string :=
  match n with
  | 0 => [s]
  | S n' =>
      match Index s sep with
      | None => [s]
      | Some m =>
          sliceTo s m
            :: genSplit n' (String.substring (m + String.length sep)
                              (String.length s - (m + String.length sep)) s) sep
      end
  end.
Definition SplitSep (s sep : string) : list string := genSplit (String.length s) s sep.

(** The struct handed to the NCX template. *)
Record NCXData := mkNCX {
  ncxUUID : string;
  ncxTitle : string;
  ncxSections : list SectionData
}.

Definition GenNCXFile (BookUUID : string) (b : InputBuffer) : NCXData :=
  mkNCX BookUUID (GetAttribute b "title") (sections b).

(** The struct handed to the OPF template.  Its field [Images] is given
    the image map of the buffer. *)
Record OPFData := mkOPF {
  opfUUID : string;
  HasISBN : bool;
  ISBN : string;
  Language : string;
  opfTitle : string;
  TitleSort : string;
  Author : string;
  AuthorSort : string;
  HasSeries : bool;
  SeriesTitle : string;
  SeriesIndex : string;
  Publisher : string;
  Description : string;
  Subjects : list string;
  HasRights : bool;
  Rights : string;
  Created : string;
  Modified : string;
  CoverImage : ImageData;
  Images : gmap string ImageData;
  opfSections : list SectionData;
  opfGuides : list SectionData
}.

Definition GenOPFFile (BookUUID : string) (b : InputBuffer) : OPFData :=
  let hasISBN := bool_decide (is_Some (attributes b !! "isbn")) in
  let hasSeries := bool_decide (is_Some (attributes b !! "series")) in
  let hasRights := bool_decide (is_Some (attributes b !! "rights")) in
  let description := ReplaceAll (GetAttribute b "description") "<" "&lt;" in
  let description := ReplaceAll description ">" "&gt;" in
  mkOPF BookUUID hasISBN (GetAttribute b "isbn") (GetAttribute b "language")
        (GetAttribute b "title") (GetAttribute b "title-sort") (GetAttribute b "author")
        (GetAttribute b "author-sort") hasSeries (GetAttribute b "series")
        (GetAttribute b "series-index") (GetAttribute b "publisher") description
        (SplitSep (GetAttribute b "subject") ", ") hasRights (GetAttribute b "rights")
        (GetAttribute b "created") (GetAttribute b "modified") (coverImage b) (images b)
        (sections b) (guides b).

(** ** Source text of a book *)

(** The source text of a section: its kind, the text of its heading and
    the lines after the heading line. *)
Record SourceSection := mkSource {
  srcKind : string;
  srcHeading : string;
  srcLines : list string
}.

(** The lines of a section in the input: the directive, the heading line,
    the text. *)
Definition sourceLines (x : SourceSection) : list string :=
  directiveOf (srcKind x) :: ("<h1>" +:+ srcHeading x +:+ "</h1>") :: srcLines x.

Definition bookLines (xs : list SourceSection) : list string :=
  concat (sourceLines <$> xs).

(** No line of the text of [x] starts like a directive. *)
Definition plainText (x : SourceSection) : Prop :=
  Forall (λ line, HasPrefix line "<!--" = false) (srcLines x).

(** The label that loop 1 and loop 3 put in the place of an empty heading. *)
Definition defaultHeadingOf (kind : string) : string :=
  if kind == "bibliography" then "Bibliography"
  else if kind == "acknowledgments" then "Acknowledgments"
  else if kind == "dedication" then "Dedication"
  else if kind == "epigraph" then "Epigraph"
  else if kind == "foreword" then "Foreword"
  else if kind == "introduction" then "Introduction"
  else if kind == "preface" then "Preface"
  else if kind == "prologue" then "Prologue"
  else if kind == "preamble" then "Preamble"
  else if kind == "afterword" then "Afterword"
  else if kind == "epilogue" then "Epilogue"
  else if kind == "appendix" then "Appendix"
  else "".

(** The heading read from the heading line of [x]. *)
Definition headingRead (x : SourceSection) : string :=
  if srcHeading x == "&#160;" then "" else srcHeading x.

(** The section built for [x] under the running number [n]. *)
Definition builtSection (n : nat) (x : SourceSection) : SectionData :=
  mkSection (Sprintf_section03d n) (srcKind x)
            (if headingRead x == "" then defaultHeadingOf (srcKind x) else headingRead x).

(** The sections built for [xs] when the running number is [n] before. *)
Fixpoint builtSections (n : nat) (xs : list SourceSection) : list SectionData :=
  match xs with
  | [] => []
  | x :: xs' => builtSection (S n) x :: builtSections (S n) xs'
  end.

(** The buffer after the sections of [xs] were built from the lines at the
    cursor: the cursor is on the line [next] that follows them, and the
    sections [gadded] were also entered in the guides. *)
Definition afterSections (b : InputBuffer) (xs : list SourceSection) (next : string)
    (gadded : list SectionData) : InputBuffer :=
  mkBuffer next (lineIndex b + length (bookLines xs)) (lines b) (attributes b)
           (coverImage b) (images b)
           (sections b ++ builtSections (currSectionNo b) xs)
           (guides b ++ gadded)
           (currSectionNo b + length xs).

(** The flags of loop 1, respectively loop 3, after a directive of [kind]. *)
Definition markFront (kind : string) (g : FrontGiven) : FrontGiven :=
  mkFrontGiven (bibliographyGiven g || (kind == "bibliography"))
               (acknowledgmentsGiven g || (kind == "acknowledgments"))
               (dedicationGiven g || (kind == "dedication"))
               (epigraphGiven g || (kind == "epigraph"))
               (forewordGiven g || (kind == "foreword"))
               (introductionGiven g || (kind == "introduction"))
               (prefaceGiven g || (kind == "preface"))
               (prologueGiven g || (kind == "prologue")).

Definition markBack (kind : string) (first : bool) (g : BackGiven) : BackGiven :=
  mkBackGiven (afterwordGiven g || (kind == "afterword"))
              (epilogueGiven g || (kind == "epilogue"))
              first.

(** No kind of [once] occurs twice in [kinds]. *)
Definition atMostOnce (once kinds : list string) : Prop :=
  NoDup (filter (λ k, k ∈ once) kinds).

(** The source text of a small book: a preface without heading, a part, a
    chapter, an afterword with no text and an appendix. *)
Definition sampleFront : list SourceSection :=
  [mkSource "preface" "&#160;" ["<p>Text.</p>"]].
Definition sampleBody : list SourceSection :=
  [mkSource "part" "I" []; mkSource "chapter" "One" ["<p>Text.</p>"; "<p>More.</p>"]].
Definition sampleBack : list SourceSection :=
  [mkSource "afterword" "After" []; mkSource "appendix" "&#160;" ["<p>Text.</p>"]].

(** A buffer on the first directive of that book. *)
Definition sampleBuffer : InputBuffer :=
  setCursor (NewInputBuffer (["<html>"; "<body>"]
                             ++ bookLines (sampleFront ++ sampleBody ++ sampleBack)
                             ++ ["<!--end-->"; "</body>"]))
            2 "<!--preface-->".

(** A document: a first line and further lines before [<head>], the
    declarations of the head section, the lines between [</head>] and
    [<body>], the copyright section with its first line and its further
    text, the source text of the sections, the end directive and what
    follows it. *)
Definition bookDocument (first : string) (skipped : list string)
    (declarations : list (string * string)) (between : list string)
    (copyrightFirst : string) (copyrightText : list string)
    (xs : list SourceSection) (rest : list string) : list string :=
  (first :: skipped) ++ "<head>" :: (uncurry metaLine <$> declarations)
  ++ "</head>" :: between
  ++ "<body>" :: "<!--copyright-->" :: copyrightFirst :: copyrightText
  ++ bookLines xs ++ "<!--end-->" :: rest.

(** The attributes declared by a head section. *)
Definition declared (declarations : list (string * string)) : gmap string string :=
  foldl declare ∅ declarations.

(** The attributes pass the checks of [main], with the default title page. *)
Record acceptableHead (attrs : gmap string string) : Prop := {
  ah_version : default "" (attrs !! "version") = "epub3";
  ah_required : Forall (λ key, default "" (attrs !! key) ≠ "") requiredKeys;
  ah_cover : default "" (attrs !! "cover-image") ≠ "";
  ah_coverType : acceptedMediaType (mediaTypeOf (default "" (attrs !! "cover-image"))) = true;
  ah_images :
    Forall (λ f, acceptedMediaType (mediaTypeOf f) = true)
           (if default "" (attrs !! "images") == "" then []
            else Split (default "" (attrs !! "images")) ",");
  ah_titlepage :
    default "" (attrs !! "titlepage") = "" ∨ default "" (attrs !! "titlepage") = "default"
}.

(** The head section of the sample book. *)
Definition sampleDeclarations : list (string * string) :=
  [("version", "epub3"); ("title", "A Book"); ("title-sort", "Book, A");
   ("author", "An Author"); ("author-sort", "Author, An"); ("published", "2023");
   ("publisher", "A Publisher"); ("language", "en"); ("cover-image", "cover.jpeg");
   ("images", "fig1.png,fig2.jpeg")].

(** * Properties *)

(** ** Results *)

Lemma bind_Ok {A B} (r : result A) (f : A → result B) (y : B) :
  r ≫= f = Ok y → ∃ x, r = Ok x ∧ f x = Ok y.
Proof. destruct r as [x|e]; simpl; [eauto | discriminate]. Qed.

Lemma bind_Ok_l {A B} (r : result A) (f : A → result B) (x : A) :
  r = Ok x → r ≫= f = f x.
Proof. intros ->. reflexivity. Qed.

Lemma bind_Err_l {A B} (r : result A) (f : A → result B) (e : error) :
  r = Err e → r ≫= f = Err e.
Proof. intros ->. reflexivity. Qed.

(** ** The partitioner *)

Section Partitioner.

Implicit Types (secs pre post : list SectionData) (s : SectionData).

Lemma isBodyMatter_part s : EpubType s = "part" → isBodyMatter s = true.
Proof. unfold isBodyMatter. intros ->. reflexivity. Qed.

Lemma isBodyMatter_chapter s : EpubType s = "chapter" → isBodyMatter s = true.
Proof. unfold isBodyMatter. intros ->. reflexivity. Qed.

Lemma isBodyMatter_cases s :
  isBodyMatter s = true → EpubType s = "part" ∨ EpubType s = "chapter".
Proof.
  unfold isBodyMatter. intros H. apply orb_true_iff in H.
  destruct H as [H|H]; apply String.eqb_eq in H; auto.
Qed.

(** The range loop stops at the first part or chapter. *)
Lemma rangeSections_first pre s post i index section :
  Forall (λ x, isBodyMatter x = false) pre →
  isBodyMatter s = true →
  rangeSections (pre ++ s :: post) i index section = (i + length pre, s).
Proof.
  intros Hpre Hs. revert i index section.
  induction Hpre as [|x pre Hx _ IH]; intros i index section; simpl.
  - rewrite Hs. f_equal. lia.
  - rewrite Hx, IH. f_equal. lia.
Qed.

(** The scan of the parts branch is bounded by the sequence: the fuel
    given by [GenNAVFile] is never used up. *)
Lemma partsLoop_fuel fuel secs index firstTime currPart startIndex partSections :
  index ≤ length secs →
  length secs < fuel + index →
  partsLoop fuel secs index firstTime currPart startIndex partSections ≠ Err OutOfFuel.
Proof.
  revert index firstTime currPart startIndex partSections.
  induction fuel as [|fuel IH]; intros index firstTime currPart startIndex ps Hidx Hlen;
    simpl; [lia|].
  destruct (secs !! index) as [section|] eqn:E; [|discriminate].
  apply lookup_lt_Some in E.
  destruct (EpubType section == "part").
  - destruct firstTime; apply IH; lia.
  - destruct (negb (EpubType section == "chapter")); [discriminate|].
    apply IH; lia.
Qed.

(** The position at which the scan ends is a valid position, at or after
    the position at which it started. *)
Lemma partsLoop_bounds fuel secs index firstTime currPart startIndex partSections r :
  startIndex ≤ index →
  partsLoop fuel secs index firstTime currPart startIndex partSections = Ok r →
  r.2 < length secs ∧ index ≤ r.2.
Proof.
  revert index firstTime currPart startIndex partSections.
  induction fuel as [|fuel IH]; intros index firstTime currPart startIndex ps Hle; simpl;
    [discriminate|].
  destruct (secs !! index) as [section|] eqn:E; [|discriminate].
  pose proof (lookup_lt_Some _ _ _ E) as Hlt.
  destruct (EpubType section == "part").
  - destruct firstTime; intros H; apply IH in H; try lia.
  - destruct (negb (EpubType section == "chapter")).
    + intros [= <-]. simpl. lia.
    + intros H; apply IH in H; lia.
Qed.

(** When every section from [index] on is a part or a chapter, the scan
    reads [secs[len(secs)]]. *)
Lemma partsLoop_overrun fuel secs index firstTime currPart startIndex partSections :
  (∀ i s, index ≤ i → secs !! i = Some s → isBodyMatter s = true) →
  index ≤ length secs →
  length secs < fuel + index →
  partsLoop fuel secs index firstTime currPart startIndex partSections
    = Err IndexOutOfRange.
Proof.
  revert index firstTime currPart startIndex partSections.
  induction fuel as [|fuel IH]; intros index firstTime currPart startIndex ps Hall Hidx Hlen;
    [lia|].
  simpl. destruct (secs !! index) as [section|] eqn:E; [|reflexivity].
  pose proof (Hall index section (le_n _) E) as Hb.
  pose proof (lookup_lt_Some _ _ _ E) as Hlt.
  apply isBodyMatter_cases in Hb.
  assert (Hnext : ∀ i s, S index ≤ i → secs !! i = Some s → isBodyMatter s = true)
    by (intros i s Hi; apply Hall; lia).
  destruct Hb as [Hb|Hb]; rewrite Hb; simpl.
  - destruct firstTime; apply IH; auto; lia.
  - apply IH; auto; lia.
Qed.

(** When a section that is neither part nor chapter follows, the scan ends
    there. *)
Lemma partsLoop_stops fuel secs index firstTime currPart startIndex partSections j s :
  index ≤ j → secs !! j = Some s → isBodyMatter s = false →
  (∀ i x, index ≤ i < j → secs !! i = Some x → isBodyMatter x = true) →
  j - index < fuel →
  ∃ parts, partsLoop fuel secs index firstTime currPart startIndex partSections
             = Ok (parts, j).
Proof.
  revert index firstTime currPart startIndex partSections.
  induction fuel as [|fuel IH]; intros index firstTime currPart startIndex ps
    Hij Hj Hs Hall Hfuel; [lia|].
  simpl. destruct (decide (index = j)) as [->|Hne].
  - rewrite Hj. unfold isBodyMatter in Hs. apply orb_false_iff in Hs.
    destruct Hs as [-> ->]. simpl. eauto.
  - destruct (secs !! index) as [section|] eqn:E.
    2:{ apply lookup_ge_None_1 in E. apply lookup_lt_Some in Hj. lia. }
    assert (Hb : isBodyMatter section = true) by (apply (Hall index); [lia|done]).
    assert (Hnext : ∀ i x, S index ≤ i < j → secs !! i = Some x → isBodyMatter x = true)
      by (intros i x Hi; apply Hall; lia).
    apply isBodyMatter_cases in Hb.
    destruct Hb as [Hb|Hb]; rewrite Hb; simpl.
    + destruct firstTime; apply IH; auto; lia.
    + apply IH; auto; lia.
Qed.

End Partitioner.

(** ** Claims about the partitioner *)

Lemma lookup_middle {A} (pre post : list A) (x : A) :
  (pre ++ x :: post) !! (0 + length pre) = Some x.
Proof. simpl. by rewrite list_lookup_middle. Qed.




(** The grouping the partitioner computes for Scenario A. *)
Example scenarioA_grouping :
  grouping <$> navOf (main timeStamp scenarioA) =
    Some (fixedThree, false, [], [],
          [mkSection "section001" "chapter" "One";
           mkSection "section002" "chapter" "Two"]).
Proof. vm_compute. reflexivity. Qed.

(** C2. On Scenario B the parser produces the eight sections (the three
    fixed ones, then part, chapter, chapter, part, chapter), and the
    partitioner then reads one position past the end of the sequence
    instead of returning the two part groups. *)
Theorem scenarioB_overrun :
  is_Ok (parse timeStamp scenarioB) = true
  ∧ sections (parsed scenarioB) =
      fixedThree ++
      [mkSection "section001" "part" "I";
       mkSection "section002" "chapter" "One";
       mkSection "section003" "chapter" "Two";
       mkSection "section004" "part" "II";
       mkSection "section005" "chapter" "Three"]
  ∧ GenNAVFile (parsed scenarioB) = Err IndexOutOfRange
  ∧ main timeStamp scenarioB = Err IndexOutOfRange.
Proof. repeat split; vm_compute; reflexivity. Qed.

(** With a back-matter section after the last chapter the two part groups
    of Scenario B are produced. *)
Example scenarioBAfterword_groups :
  grouping <$> navOf (main timeStamp scenarioBAfterword) =
    Some (fixedThree, true,
          [mkPart (mkSection "section001" "part" "I")
                  [mkSection "section002" "chapter" "One";
                   mkSection "section003" "chapter" "Two"];
           mkPart (mkSection "section004" "part" "II")
                  [mkSection "section005" "chapter" "Three"]],
          [],
          [mkSection "section006" "afterword" "After"]).
Proof. vm_compute. reflexivity. Qed.

(** A sequence is all parts and chapters, or it splits at its first
    section of another kind. *)
Lemma first_other_kind (l : list SectionData) :
  Forall (λ x, isBodyMatter x = true) l
  ∨ ∃ l1 x l2, l = l1 ++ x :: l2
               ∧ Forall (λ y, isBodyMatter y = true) l1
               ∧ isBodyMatter x = false.
Proof.
  induction l as [|a l IH]; [left; constructor|].
  destruct (isBodyMatter a) eqn:Ha.
  - destruct IH as [IH|(l1 & x & l2 & -> & H1 & Hx)].
    + left. constructor; assumption.
    + right. exists (a :: l1), x, l2. repeat split; auto.
  - right. exists [], a, l. repeat split; auto.
Qed.

(** C10 (amended). For every section sequence whose first part-or-chapter
    section is a part, the partitioner reads one position past the end of
    the sequence exactly when every section after that part is a part or a
    chapter (a document that starts its body matter with a part and has no
    back-matter section); otherwise it closes the last part group at the
    first section of another kind. *)
Theorem GenNAVFile_parts_overrun (b : InputBuffer) pre p rest :
  sections b = pre ++ p :: rest →
  Forall (λ x, isBodyMatter x = false) pre →
  EpubType p = "part" →
  (GenNAVFile b = Err IndexOutOfRange ↔ Forall (λ x, isBodyMatter x = true) rest)
  ∧ (¬ Forall (λ x, isBodyMatter x = true) rest → ∃ nav, GenNAVFile b = Ok nav).
Proof.
  intros Hsecs Hpre Hp.
  assert (Hrun : GenNAVFile b =
    ('(partSections, index) ←
        partsLoop (S (length (sections b))) (sections b) (0 + length pre)
                  true zeroSection 0 [];
      Ok (mkNav (GetAttribute b "title") (take (0 + length pre) (sections b)) true
                partSections [] (drop index (sections b)) (guides b)))).
  { unfold GenNAVFile.
    rewrite Hsecs at 1. rewrite rangeSections_first by auto using isBodyMatter_part.
    rewrite Hp. simpl (_ == _). cbv iota.
    destruct (partsLoop _ _ _ _ _ _ _) as [[ps i]|e]; reflexivity. }
  assert (Hlen : length (sections b) = length pre + S (length rest))
    by (rewrite Hsecs, length_app; reflexivity).
  assert (Hover : Forall (λ x, isBodyMatter x = true) rest →
                  GenNAVFile b = Err IndexOutOfRange).
  { intros Hall. rewrite Hrun, partsLoop_overrun; [reflexivity| |lia|lia].
    intros i s Hi Hlook. rewrite Hsecs in Hlook.
    rewrite lookup_app_r in Hlook by lia.
    destruct (i - length pre) as [|k] eqn:Ek; simpl in Hlook.
    - injection Hlook as <-. by apply isBodyMatter_part.
    - rewrite Forall_lookup in Hall. eapply Hall, Hlook. }
  assert (Hstop : ¬ Forall (λ x, isBodyMatter x = true) rest →
                  ∃ nav, GenNAVFile b = Ok nav).
  { intros Hnot. destruct (first_other_kind rest) as [?|(l1 & x & l2 & -> & H1 & Hx)];
      [contradiction|].
    rewrite length_app in Hlen; simpl in Hlen.
    destruct (partsLoop_stops (S (length (sections b))) (sections b) (0 + length pre)
                true zeroSection 0 [] (length pre + S (length l1)) x)
      as [parts Hparts]; try lia; try assumption.
    - rewrite Hsecs, lookup_app_r by lia.
      replace (length pre + S (length l1) - length pre) with (S (length l1)) by lia.
      simpl. by rewrite list_lookup_middle.
    - intros i y Hi Hlook. rewrite Hsecs in Hlook.
      rewrite lookup_app_r in Hlook by lia.
      destruct (i - length pre) as [|k] eqn:Ek; simpl in Hlook.
      + injection Hlook as <-. by apply isBodyMatter_part.
      + rewrite lookup_app_l in Hlook by lia.
        rewrite Forall_lookup in H1. eapply H1, Hlook.
    - eexists. rewrite Hrun, Hparts. simpl. reflexivity. }
  split; [split; [|exact Hover] | exact Hstop].
  intros Herr. destruct (first_other_kind rest) as [?|(l1 & x & l2 & Hrest & H1 & Hx)];
    [assumption|].
  destruct Hstop as [nav Hnav]; [|congruence].
  rewrite Hrest. intros Hall. apply Forall_app in Hall as [_ Hall].
  inversion Hall; congruence.
Qed.

(** Scenario B satisfies the hypotheses of [GenNAVFile_parts_overrun]. *)
Lemma GenNAVFile_parts_overrun_scenarioB :
  GenNAVFile (parsed scenarioB) = Err IndexOutOfRange.
Proof.
  apply (GenNAVFile_parts_overrun (parsed scenarioB) fixedThree
           (mkSection "section001" "part" "I")
           [mkSection "section002" "chapter" "One";
            mkSection "section003" "chapter" "Two";
            mkSection "section004" "part" "II";
            mkSection "section005" "chapter" "Three"]).
  - vm_compute. reflexivity.
  - repeat constructor.
  - reflexivity.
  - repeat constructor.
Defined.

(** C10 as stated fails on the document copyright, chapter, part, end: its
    section sequence contains a part and ends with a part, and the
    partitioner returns normally. *)
Lemma chapter_then_part_no_overrun :
  ∃ b, parse timeStamp scenarioChapterPart = Ok b
       ∧ (∃ s, s ∈ sections b ∧ EpubType s = "part")
       ∧ (∃ s, last (sections b) = Some s ∧ isBodyMatter s = true)
       ∧ is_Ok (GenNAVFile b) = true
       ∧ GenNAVFile b ≠ Err IndexOutOfRange.
Proof.
  exists (parsed scenarioChapterPart).
  split; [vm_compute; reflexivity|].
  assert (Hs : sections (parsed scenarioChapterPart) =
               fixedThree ++ [mkSection "section001" "chapter" "One";
                              mkSection "section002" "part" "I"])
    by (vm_compute; reflexivity).
  split; [|split; [|split]].
  - exists (mkSection "section002" "part" "I"). split; [|reflexivity].
    rewrite Hs. apply (list_elem_of_lookup_2 _ 4). reflexivity.
  - exists (mkSection "section002" "part" "I"). rewrite Hs. split; reflexivity.
  - vm_compute. reflexivity.
  - intros H. assert (E : is_Ok (GenNAVFile (parsed scenarioChapterPart)) = true)
      by (vm_compute; reflexivity).
    rewrite H in E. discriminate.
Qed.

(** ** The line cursor *)

Lemma NextLine_Ok b b' :
  NextLine b = Ok b' →
  b' = setCursor b (S (lineIndex b)) (CurrLine b')
  ∧ lines b !! S (lineIndex b) = Some (CurrLine b').
Proof.
  unfold NextLine. case_decide; [discriminate|].
  destruct (lines b !! S (lineIndex b)) as [line|] eqn:E; [|discriminate].
  intros [= <-]. auto.
Qed.

Lemma NextLine_moved b b' : NextLine b = Ok b' → moved b b'.
Proof.
  intros H. apply NextLine_Ok in H as [H1 H2].
  exists (S (lineIndex b)), (CurrLine b'). auto.
Qed.

Lemma moved_trans b1 b2 b3 : moved b1 b2 → moved b2 b3 → moved b1 b3.
Proof.
  intros (i & l & -> & Hl & Hi) (j & m & -> & Hm & Hj). simpl in *.
  exists j, m. split; [reflexivity|]. split; [assumption|lia].
Qed.

Lemma moved_cursorOK b b' : moved b b' → cursorOK b'.
Proof. intros (i & l & -> & Hl & _). exact Hl. Qed.

Lemma moved_lines b b' : moved b b' → lines b' = lines b.
Proof. by intros (i & l & -> & _). Qed.

Lemma moved_sections b b' : moved b b' → sections b' = sections b.
Proof. by intros (i & l & -> & _). Qed.

Lemma moved_guides b b' : moved b b' → guides b' = guides b.
Proof. by intros (i & l & -> & _). Qed.

Lemma moved_currSectionNo b b' : moved b b' → currSectionNo b' = currSectionNo b.
Proof. by intros (i & l & -> & _). Qed.

Lemma moved_attributes b b' : moved b b' → attributes b' = attributes b.
Proof. by intros (i & l & -> & _). Qed.

Lemma moved_lineIndex b b' : moved b b' → lineIndex b < lineIndex b' < length (lines b).
Proof.
  intros (i & l & -> & Hl & Hi). simpl. apply lookup_lt_Some in Hl. lia.
Qed.

Lemma readSectionLines_moved fuel acc b r :
  readSectionLines fuel acc b = Ok r → moved b r.2.
Proof.
  revert acc b. induction fuel as [|fuel IH]; intros acc b; simpl; [discriminate|].
  destruct (NextLine b) as [b1|e] eqn:E; simpl; [|discriminate].
  apply NextLine_moved in E.
  destruct (HasPrefix (CurrLine b1) "<!--").
  - intros [= <-]. exact E.
  - intros H. apply IH in H. eapply moved_trans; eassumption.
Qed.

Lemma GenFrontMatterSection_moved b section b' :
  GenFrontMatterSection b section = Ok b' → moved b b'.
Proof.
  unfold GenFrontMatterSection.
  destruct (readSectionLines _ _ _) as [[ls b1]|e] eqn:E; simpl; [|discriminate].
  intros [= <-]. by apply readSectionLines_moved in E.
Qed.

Lemma skipTo_moved fuel marker b b' : skipTo fuel marker b = Ok b' → moved b b'.
Proof.
  revert b. induction fuel as [|fuel IH]; intros b; simpl; [discriminate|].
  destruct (NextLine b) as [b1|e] eqn:E; simpl; [|discriminate].
  apply NextLine_moved in E.
  destruct (CurrLine b1 == marker).
  - intros [= <-]. exact E.
  - intros H. apply IH in H. eapply moved_trans; eassumption.
Qed.

(** The loops of the model are bounded by the number of lines: a loop that
    starts at a valid position with as much fuel as there are lines left
    never reports [OutOfFuel]. *)
Lemma NextLine_not_OutOfFuel b : NextLine b ≠ Err OutOfFuel.
Proof.
  unfold NextLine. case_decide; [discriminate|].
  destruct (lines b !! S (lineIndex b)); discriminate.
Qed.

Lemma readSectionLines_fuel fuel acc b :
  lineIndex b ≤ length (lines b) →
  length (lines b) < fuel + lineIndex b →
  readSectionLines fuel acc b ≠ Err OutOfFuel.
Proof.
  revert acc b. induction fuel as [|fuel IH]; intros acc b Hi Hf; simpl; [lia|].
  destruct (NextLine b) as [b1|e] eqn:E; simpl.
  - pose proof (NextLine_moved _ _ E) as Hm.
    pose proof (moved_lineIndex _ _ Hm). pose proof (moved_lines _ _ Hm) as Hl.
    destruct (HasPrefix (CurrLine b1) "<!--"); [discriminate|].
    apply IH; rewrite Hl; lia.
  - intros [= ->]. by apply NextLine_not_OutOfFuel in E.
Qed.

(** ** One iteration of the loops *)

Lemma builderCase_stepped kind label b b1 heading b' :
  NextLine b = Ok b1 →
  (heading = "" → label = "") →
  GenFrontMatterSection
    (AddSection (NewSectionData b1 kind heading).2 (NewSectionData b1 kind heading).1)
    (NewSectionData b1 kind heading).1 = Ok b' →
  stepped kind label b b'.
Proof.
  intros HN Hh HG. apply NextLine_moved in HN. apply GenFrontMatterSection_moved in HG.
  destruct HN as (i & l & -> & Hl & Hi). destruct HG as (j & m & -> & Hm & Hj).
  simpl in *. exists heading. simpl. repeat split; auto. lia.
Qed.

Lemma frontMatterCase_stepped kind label b b' :
  label ≠ "" →
  frontMatterCase kind label b = Ok b' → stepped kind label b b'.
Proof.
  intros Hlabel. unfold frontMatterCase.
  destruct (NextLine b) as [b1|e] eqn:EN; simpl; [|discriminate].
  destruct (extractHeading (CurrLine b1)) as [h|e] eqn:EH; simpl; [|discriminate].
  intros HG. eapply builderCase_stepped; [eassumption| |exact HG].
  destruct (String.eqb_spec h ""); congruence.
Qed.

Lemma bodyMatterCase_stepped kind first b r :
  bodyMatterCase kind first b = Ok r → stepped kind "" b r.2.
Proof.
  unfold bodyMatterCase.
  destruct (NextLine b) as [b1|e] eqn:EN; simpl; [|discriminate].
  destruct (extractHeading (CurrLine b1)) as [h|e] eqn:EH; simpl; [|discriminate].
  destruct (GenBodyMatterSection _ _) as [b2|e] eqn:EG; simpl; [|discriminate].
  pose proof (builderCase_stepped kind "" b b1 h b2 EN (λ _, eq_refl) EG) as Hs.
  destruct first; intros [= <-]; simpl; [|exact Hs].
  destruct Hs as (h' & Hs). exists h'. exact Hs.
Qed.

Lemma backMatterCase_stepped kind label first b r :
  label ≠ "" →
  backMatterCase kind label first b = Ok r → stepped kind label b r.2.
Proof.
  intros Hlabel. unfold backMatterCase.
  destruct (NextLine b) as [b1|e] eqn:EN; simpl; [|discriminate].
  destruct (extractHeading (CurrLine b1)) as [h|e] eqn:EH; simpl; [|discriminate].
  destruct (GenBackMatterSection _ _) as [b2|e] eqn:EG; simpl; [|discriminate].
  assert (Hs : stepped kind label b b2).
  { eapply builderCase_stepped; [eassumption| |exact EG].
    destruct (String.eqb_spec h ""); congruence. }
  destruct first; intros [= <-]; simpl; [|exact Hs].
  destruct Hs as (h' & Hs). exists h'. exact Hs.
Qed.

(** An iteration keeps the invariant. *)
Lemma stepped_Inv kind label b b' :
  stepped kind label b b' →
  CurrLine b = directiveOf kind →
  kind ∈ generatedKinds →
  (kind ∈ labelled → label ≠ "") →
  Inv b → Inv b' ∧ lines b' = lines b.
Proof.
  intros (h & Hh & Hlines & Hcur & _ & Hno & Hsecs & _) Hline Hkind Hlab [Hc Hb].
  split; [|assumption]. split; [assumption|].
  rewrite Hlines, Hsecs, Hno. constructor; auto.
  - rewrite <- Hline. eapply list_elem_of_lookup_2, Hc.
  - intros Hk Hheq. apply (Hlab Hk), Hh, Hheq.
Qed.

(** ** The invariant along the three loops *)

Ltac kind_side :=
  first [ compute_done
        | intros _; discriminate ].

(** Case analysis on [switch buffer.CurrLine]. *)
Ltac switch_CurrLine b H :=
  match type of H with
  | context [CurrLine b == ?d] =>
      let Hd := fresh "Hd" in
      destruct (String.eqb_spec (CurrLine b) d) as [Hd|Hd]; cbv iota in H;
      [|clear Hd]
  end.

Lemma loop1_Inv fuel g b b' :
  loop1 fuel g b = Ok b' → Inv b → Inv b' ∧ lines b' = lines b.
Proof.
  revert g b. induction fuel as [|fuel IH]; intros g b H HI; [discriminate|].
  cbn [loop1] in H.
  repeat (switch_CurrLine b H; [
    try (match type of H with context [if ?f g then _ else _] =>
           destruct (f g); [discriminate|] end);
    match type of H with context [frontMatterCase ?k ?l b] =>
      let E := fresh "E" in
      destruct (frontMatterCase k l b) as [b1|e] eqn:E; simpl in H; [|discriminate];
      apply frontMatterCase_stepped in E; [|discriminate];
      destruct (stepped_Inv k l b b1 E Hd ltac:(kind_side) ltac:(kind_side) HI)
        as [HI1 Hl1];
      destruct (IH _ _ H HI1) as [HI2 Hl2];
      split; [exact HI2 | congruence]
    end | ]).
  injection H as <-. auto.
Qed.

Lemma loop2_Inv fuel first b r :
  loop2 fuel first b = Ok r → Inv b → Inv r.2 ∧ lines r.2 = lines b.
Proof.
  revert first b. induction fuel as [|fuel IH]; intros first b H HI; [discriminate|].
  cbn [loop2] in H.
  repeat (switch_CurrLine b H; [
    match type of H with context [bodyMatterCase ?k first b] =>
      let E := fresh "E" in
      destruct (bodyMatterCase k first b) as [[f1 b1]|e] eqn:E; simpl in H; [|discriminate];
      apply bodyMatterCase_stepped in E; simpl in E;
      destruct (stepped_Inv k "" b b1 E Hd ltac:(kind_side)
                  ltac:(intros Hk; exfalso; revert Hk; compute_done) HI)
        as [HI1 Hl1];
      destruct (IH _ _ H HI1) as [HI2 Hl2];
      split; [exact HI2 | congruence]
    end | ]).
  injection H as <-. auto.
Qed.

Lemma loop3_Inv fuel g b b' :
  loop3 fuel g b = Ok b' → Inv b → Inv b' ∧ lines b' = lines b.
Proof.
  revert g b. induction fuel as [|fuel IH]; intros g b H HI; [discriminate|].
  cbn [loop3] in H.
  repeat (switch_CurrLine b H; [
    try (match type of H with context [if ?f g then _ else _] =>
           destruct (f g); [discriminate|] end);
    match type of H with
    | context [backMatterCase ?k ?l ?fb b] =>
      let E := fresh "E" in
      destruct (backMatterCase k l fb b) as [[f1 b1]|e] eqn:E; simpl in H; [|discriminate];
      apply backMatterCase_stepped in E; [|discriminate]; simpl in E;
      destruct (stepped_Inv k l b b1 E Hd ltac:(kind_side) ltac:(kind_side) HI)
        as [HI1 Hl1];
      destruct (IH _ _ H HI1) as [HI2 Hl2];
      split; [exact HI2 | congruence]
    | _ => injection H as <-; auto
    end | ]).
  discriminate.
Qed.

(** The parser stops only at the end directive. *)
Lemma loop3_ends fuel g b b' : loop3 fuel g b = Ok b' → CurrLine b' = "<!--end-->".
Proof.
  revert g b. induction fuel as [|fuel IH]; intros g b H; [discriminate|].
  cbn [loop3] in H.
  repeat (switch_CurrLine b H; [
    try (match type of H with context [if ?f g then _ else _] =>
           destruct (f g); [discriminate|] end);
    match type of H with
    | context [backMatterCase ?k ?l ?fb b] =>
      destruct (backMatterCase k l fb b) as [[f1 b1]|e]; simpl in H; [|discriminate];
      exact (IH _ _ H)
    | _ => injection H as <-; assumption
    end | ]).
  discriminate.
Qed.

(** ** From the input lines to the first directive *)

Lemma sameBook_refl b : sameBook b b.
Proof. by repeat split. Qed.

Lemma sameBook_trans b1 b2 b3 : sameBook b1 b2 → sameBook b2 b3 → sameBook b1 b3.
Proof.
  intros (?&?&?&?) (?&?&?&?). repeat split; congruence.
Qed.

Lemma moved_sameBook b b' : moved b b' → sameBook b b'.
Proof. intros (i & l & -> & _). by repeat split. Qed.

Lemma loadMeta_sameBook b b' :
  loadMeta b = Ok b' → sameBook b b' ∧ lineIndex b' = lineIndex b ∧ CurrLine b' = CurrLine b.
Proof.
  unfold loadMeta.
  destruct (Index (CurrLine b) "name=") as [i|]; [|by intros [= <-]].
  destruct (sliceFrom _ _) as [name|]; simpl; [|discriminate].
  destruct (Index name dquote) as [j|]; [|discriminate].
  destruct (Index (CurrLine b) "content=") as [k|]; [|discriminate].
  destruct (sliceFrom _ _) as [content|]; simpl; [|discriminate].
  destruct (Index content dquote) as [m|]; [|discriminate].
  destruct (negb _); intros [= <-]; by repeat split.
Qed.

Lemma LoadAttributesLoop_sameBook fuel b b' :
  LoadAttributesLoop fuel b = Ok b' → sameBook b b' ∧ cursorOK b'.
Proof.
  revert b. induction fuel as [|fuel IH]; intros b; simpl; [discriminate|].
  destruct (NextLine b) as [b1|e] eqn:E; simpl; [|discriminate].
  apply NextLine_moved in E.
  pose proof (moved_sameBook _ _ E) as Hs1.
  destruct (CurrLine b1 == "</head>").
  { intros [= <-]. split; [assumption|]. eapply moved_cursorOK, E. }
  destruct (HasPrefix (CurrLine b1) "<meta").
  - destruct (loadMeta b1) as [b2|e] eqn:E2; simpl; [|discriminate].
    apply loadMeta_sameBook in E2 as (Hs2 & _).
    intros H. apply IH in H as [Hs3 Hc]. split; [|assumption].
    eauto using sameBook_trans.
  - intros H. apply IH in H as [Hs3 Hc]. split; [|assumption].
    eauto using sameBook_trans.
Qed.

Lemma header_Ok currTimeStamp lines0 b :
  header currTimeStamp lines0 = Ok b →
  lines b = lines0 ∧ sections b = [] ∧ guides b = [] ∧ currSectionNo b = 0 ∧ cursorOK b.
Proof.
  unfold header. intros H. cbv zeta in H.
  apply bind_Ok in H as (b1 & E1 & H).
  apply skipTo_moved, moved_sameBook in E1.
  apply bind_Ok in H as (b2 & E2 & H).
  apply LoadAttributesLoop_sameBook in E2 as [E2 _].
  apply bind_Ok in H as (_ & _ & H).
  apply bind_Ok in H as (b3 & E3 & H).
  assert (sameBook b2 b3) as H3.
  { revert E3. unfold CheckCoverImage.
    destruct (GetAttribute b2 "cover-image" == ""); [discriminate|].
    destruct (Cut _ _) as [[? mt] ?]. destruct (_ && _); [discriminate|].
    intros [= <-]. by repeat split. }
  apply bind_Ok in H as (b4 & E4 & H).
  assert (sameBook b3 b4) as H4.
  { revert E4. unfold CheckImageFiles.
    destruct (GetAttribute b3 "images" == ""); [intros [= ?]; subst; apply sameBook_refl|].
    destruct (checkImageFilesLoop _ _); simpl; [|discriminate].
    intros [= ?]; subst. by repeat split. }
  apply bind_Ok in H as (b6 & E6 & E7).
  match type of E6 with skipTo _ _ ?x = _ => remember x as b5 eqn:E5 end.
  assert (sameBook b4 b5) as H5.
  { subst b5. destruct (GetAttribute b4 "created" == ""); by repeat split. }
  apply skipTo_moved, moved_sameBook in E6.
  apply NextLine_moved in E7.
  pose proof (moved_cursorOK _ _ E7) as Hc. apply moved_sameBook in E7.
  assert (sameBook (NewInputBuffer lines0) b) as (?&?&?&?)
    by eauto 10 using sameBook_trans.
  by repeat split.
Qed.

Lemma GenTitlePageSection_Ok b b' :
  GenTitlePageSection b = Ok b' → cursorOK b →
  cursorOK b' ∧ lines b' = lines b ∧ currSectionNo b' = currSectionNo b
  ∧ sections b' = sections b ++ [titlepageSection].
Proof.
  unfold GenTitlePageSection. intros H Hc. cbv zeta in H.
  destruct (_ == "default").
  { injection H as <-. by repeat split. }
  destruct (_ == "custom").
  - apply bind_Ok in H as (b1 & E1 & H).
    apply NextLine_moved in E1.
    destruct (CurrLine b1 == "<!--titlepage-->"); [|discriminate].
    apply bind_Ok in H as (b2 & E2 & H).
    apply NextLine_moved in E2. apply GenFrontMatterSection_moved in H.
    pose proof (moved_trans _ _ _ (moved_trans _ _ _ E1 E2) H) as Hm.
    destruct Hm as (i & l & -> & Hl & Hi). by repeat split.
  - destruct (Split _ _ !! 1) as [mt|]; [|discriminate].
    destruct (_ && _); [discriminate|].
    injection H as <-. by repeat split.
Qed.

Lemma fixedSections_Ok currTimeStamp b b' :
  fixedSections currTimeStamp b = Ok b' → cursorOK b →
  cursorOK b' ∧ lines b' = lines b ∧ currSectionNo b' = currSectionNo b
  ∧ sections b' = sections b ++ fixedThree.
Proof.
  unfold fixedSections. intros H Hc. cbv zeta in H.
  apply bind_Ok in H as (b1 & E1 & H).
  apply GenTitlePageSection_Ok in E1 as (Hc1 & Hl1 & Hn1 & Hs1); [|exact Hc].
  apply bind_Ok in H as (currDate & _ & H).
  unfold GenCopyrightSection in H.
  destruct (negb _); [discriminate|].
  apply bind_Ok in H as (b2 & E2 & H). cbv zeta in H.
  apply NextLine_moved in E2.
  apply bind_Ok in H as ([ls b3] & E3 & H).
  injection H as <-. apply readSectionLines_moved in E3. simpl in E3.
  destruct E2 as (i & l & -> & Hl & Hi). destruct E3 as (j & m & -> & Hm & Hj).
  simpl in *. rewrite Hs1. simpl. rewrite <- !app_assoc. by repeat split.
Qed.

(** Every document the parser accepts satisfies the invariant, and the
    parser stopped at the end directive. *)
Lemma parse_Inv currTimeStamp lines0 b :
  parse currTimeStamp lines0 = Ok b →
  Inv b ∧ lines b = lines0 ∧ CurrLine b = "<!--end-->".
Proof.
  unfold parse. intros H.
  apply bind_Ok in H as (b1 & E1 & H).
  apply header_Ok in E1 as (Hl1 & Hs1 & _ & Hn1 & Hc1).
  apply bind_Ok in H as (b2 & E2 & H).
  apply fixedSections_Ok in E2 as (Hc2 & Hl2 & Hn2 & Hs2); [|exact Hc1].
  assert (HI2 : Inv b2).
  { split; [assumption|]. rewrite Hs2, Hs1, Hn2, Hn1. constructor. }
  unfold directiveLoops in H.
  apply bind_Ok in H as (b3 & E3 & H).
  apply loop1_Inv in E3 as [HI3 Hl3]; [|exact HI2].
  apply bind_Ok in H as ([first b4] & E4 & H).
  apply loop2_Inv in E4 as [HI4 Hl4]; [|exact HI3]. simpl in HI4, Hl4.
  destruct first; [discriminate|].
  pose proof (loop3_ends _ _ _ _ H) as Hend.
  apply loop3_Inv in H as [HI5 Hl5]; [|exact HI4].
  split; [assumption|]. split; [congruence|assumption].
Qed.

(** ** Section identifiers *)

Lemma substring_all (s : string) : String.substring 0 (String.length s) s = s.
Proof. induction s as [|a s IH]; simpl; [reflexivity | by rewrite IH]. Qed.

Lemma uint_of_zeros k d :
  ∃ d', NilEmpty.uint_of_string (zeros k +:+ NilEmpty.string_of_uint d) = Some d'
        ∧ Nat.of_uint d' = Nat.of_uint d.
Proof.
  induction k as [|k (d' & IH & Hd')]; simpl.
  - exists d. split; [apply NilEmpty.usu | reflexivity].
  - exists (D0 d'). rewrite IH. split; [reflexivity | exact Hd'].
Qed.

Lemma prefix_append (p x : string) : String.prefix p (p +:+ x) = true.
Proof.
  induction p as [|a p IH]; [by destruct x|]. simpl.
  destruct (ascii_dec a a); [exact IH | contradiction].
Qed.

Lemma substring_append (p x : string) :
  String.substring (String.length p) (String.length (p +:+ x) - String.length p)
                   (p +:+ x) = x.
Proof.
  induction p as [|a p IH]; simpl.
  - rewrite Nat.sub_0_r. apply substring_all.
  - exact IH.
Qed.

(** The running number can be read back from the identifier. *)
Lemma sectionNumber_Sprintf n : sectionNumber (Sprintf_section03d n) = Some n.
Proof.
  unfold sectionNumber, Sprintf_section03d, HasPrefix.
  rewrite prefix_append. change 7 with (String.length "section").
  rewrite substring_append. unfold pad3, decimal.
  destruct (uint_of_zeros (3 - String.length (NilEmpty.string_of_uint (Nat.to_uint n)))
              (Nat.to_uint n)) as (d' & -> & Hd').
  simpl. by rewrite Hd', Unsigned.of_to.
Qed.

Lemma Sprintf_section03d_inj : Inj (=) (=) Sprintf_section03d.
Proof.
  intros n m H. apply (f_equal sectionNumber) in H.
  rewrite !sectionNumber_Sprintf in H. congruence.
Qed.

(** ** What the invariant says about the section sequence *)

Lemma built_shape L secs n :
  built L secs n →
  ∃ rest, secs = fixedThree ++ rest ∧ length rest = n
          ∧ ∀ i s, rest !! i = Some s →
                   ID s = Sprintf_section03d (S i)
                   ∧ EpubType s ∈ generatedKinds
                   ∧ directiveOf (EpubType s) ∈ L
                   ∧ (EpubType s ∈ labelled → Heading s ≠ "").
Proof.
  induction 1 as [|secs n kind heading Hb (rest & -> & Hlen & Hrest) Hk Hd Hh].
  - exists []. split; [reflexivity|]. split; [reflexivity|]. intros i s [=].
  - exists (rest ++ [mkSection (Sprintf_section03d (S n)) kind heading]).
    split; [by rewrite app_assoc|]. split; [rewrite length_app; simpl; lia|].
    intros i s Hi. apply lookup_app_Some in Hi as [Hi|[Hge Hi]]; [by apply Hrest|].
    apply list_lookup_singleton_Some in Hi as [Hi <-]. simpl.
    replace i with n by lia. auto.
Qed.

Lemma generatedKinds_not_fixed kind : kind ∈ generatedKinds → kind ∉ fixedKinds.
Proof.
  assert (H : Forall (λ k, k ∉ fixedKinds) generatedKinds) by compute_done.
  rewrite Forall_forall in H. apply H.
Qed.

Lemma rest_identifiers (rest : list SectionData) :
  (∀ i s, rest !! i = Some s → ID s = Sprintf_section03d (S i)) →
  ID <$> rest = Sprintf_section03d <$> seq 1 (length rest).
Proof.
  intros H. apply list_eq. intros i. rewrite !list_lookup_fmap.
  destruct (rest !! i) as [s|] eqn:E; simpl.
  - rewrite (lookup_seq_lt 1 (length rest) i) by (eapply lookup_lt_Some, E).
    simpl. f_equal. by apply H.
  - rewrite lookup_seq_ge; [reflexivity|]. by apply lookup_ge_None_1.
Qed.

Lemma parse_shape currTimeStamp lines0 b :
  parse currTimeStamp lines0 = Ok b →
  ∃ rest, sections b = fixedThree ++ rest ∧ length rest = currSectionNo b
          ∧ ∀ i s, rest !! i = Some s →
                   ID s = Sprintf_section03d (S i)
                   ∧ EpubType s ∈ generatedKinds
                   ∧ directiveOf (EpubType s) ∈ lines0
                   ∧ (EpubType s ∈ labelled → Heading s ≠ "").
Proof.
  intros H. apply parse_Inv in H as ([_ Hb] & <- & _). by apply built_shape.
Qed.

Lemma countKind_app kind (l1 l2 : list SectionData) :
  countKind kind (l1 ++ l2) = countKind kind l1 + countKind kind l2.
Proof. unfold countKind. by rewrite filter_app, length_app. Qed.

Lemma countKind_none kind (l : list SectionData) :
  Forall (λ s, EpubType s ≠ kind) l → countKind kind l = 0.
Proof.
  unfold countKind. induction 1 as [|s l Hs _ IH]; [reflexivity|].
  rewrite filter_cons_False by assumption. exact IH.
Qed.

(** ** Claims about the section sequence *)

(** C6. For every document accepted by the parser, the section sequence is
    not empty and begins with the cover section, then the title-page
    section, then the copyright section; no later section has one of these
    three kinds, so there is exactly one of each. *)
Theorem parse_fixed_sections_first currTimeStamp lines0 b :
  parse currTimeStamp lines0 = Ok b →
  sections b ≠ []
  ∧ (∃ rest, sections b = coverSection :: titlepageSection :: copyrightSection :: rest
             ∧ Forall (λ s, EpubType s ∉ fixedKinds) rest)
  ∧ countKind "cover" (sections b) = 1
  ∧ countKind "titlepage" (sections b) = 1
  ∧ countKind "copyright-page" (sections b) = 1.
Proof.
  intros H. apply parse_shape in H as (rest & Hs & _ & Hrest).
  assert (Hkinds : Forall (λ s, EpubType s ∉ fixedKinds) rest).
  { apply Forall_lookup. intros i s Hi. apply generatedKinds_not_fixed.
    by apply (Hrest i s). }
  rewrite Hs. split; [discriminate|]. split; [exists rest; by split|].
  rewrite !countKind_app.
  assert (Hnone : ∀ k, k ∈ fixedKinds → countKind k rest = 0).
  { intros k Hk. apply countKind_none. eapply Forall_impl; [exact Hkinds|].
    intros s Hs' Heq. apply Hs'. by rewrite Heq. }
  rewrite !Hnone by compute_done. repeat split; compute_done.
Qed.

(** Scenario A is accepted by the parser. *)
Lemma parse_fixed_sections_first_scenarioA :
  sections (parsed scenarioA) ≠ []
  ∧ (∃ rest, sections (parsed scenarioA)
               = coverSection :: titlepageSection :: copyrightSection :: rest
             ∧ Forall (λ s, EpubType s ∉ fixedKinds) rest)
  ∧ countKind "cover" (sections (parsed scenarioA)) = 1
  ∧ countKind "titlepage" (sections (parsed scenarioA)) = 1
  ∧ countKind "copyright-page" (sections (parsed scenarioA)) = 1.
Proof.
  apply (parse_fixed_sections_first timeStamp scenarioA (parsed scenarioA)).
  vm_compute. reflexivity.
Defined.

(** C5 (amended). For every document accepted by the parser, the sections
    after the three fixed ones (cover, titlepage, copyright, whose
    identifiers are these fixed words) are the sections created by
    [NewSectionData]: the n-th of them has the identifier "section" followed
    by the running number n padded with zeros to three digits, the numbers
    start at 1 and have no gaps, so they increase strictly in document
    order, and all identifiers of the sequence are different. *)
Theorem parse_section_identifiers currTimeStamp lines0 b :
  parse currTimeStamp lines0 = Ok b →
  ∃ rest, sections b = fixedThree ++ rest
          ∧ length rest = currSectionNo b
          ∧ (∀ i s, rest !! i = Some s →
                    ID s = Sprintf_section03d (S i)
                    ∧ sectionNumber (ID s) = Some (S i))
          ∧ (∀ i j si sj ni nj,
               rest !! i = Some si → rest !! j = Some sj → i < j →
               sectionNumber (ID si) = Some ni → sectionNumber (ID sj) = Some nj →
               ni < nj)
          ∧ NoDup (ID <$> sections b).
Proof.
  intros H. apply parse_shape in H as (rest & Hs & Hlen & Hrest).
  assert (Hid : ∀ i s, rest !! i = Some s →
                  ID s = Sprintf_section03d (S i) ∧ sectionNumber (ID s) = Some (S i)).
  { intros i s Hi. destruct (Hrest i s Hi) as (Hid & _).
    split; [assumption|]. rewrite Hid. apply sectionNumber_Sprintf. }
  exists rest. split; [assumption|]. split; [assumption|]. split; [assumption|].
  split.
  - intros i j si sj ni nj Hi Hj Hij Hni Hnj.
    apply Hid in Hi as [_ Hi]. apply Hid in Hj as [_ Hj]. simplify_eq. lia.
  - rewrite Hs, fmap_app, (rest_identifiers rest) by (intros i s Hi; by apply Hid).
    apply NoDup_app. split; [compute_done|]. split.
    + intros id Hfixed Hgen. apply list_elem_of_fmap in Hgen as (n & -> & _).
      change (ID <$> fixedThree) with ["cover"; "titlepage"; "copyright"] in Hfixed.
      rewrite !elem_of_cons, elem_of_nil in Hfixed.
      destruct Hfixed as [Hn|[Hn|[Hn|[]]]];
        apply (f_equal sectionNumber) in Hn; rewrite sectionNumber_Sprintf in Hn;
        vm_compute in Hn; discriminate.
    + apply NoDup_fmap_2_strong; [|apply NoDup_seq].
      intros x y _ _. apply Sprintf_section03d_inj.
Qed.

(** Scenario A is accepted by the parser. *)
Lemma parse_section_identifiers_scenarioA :
  ∃ rest, sections (parsed scenarioA) = fixedThree ++ rest
          ∧ length rest = currSectionNo (parsed scenarioA)
          ∧ (∀ i s, rest !! i = Some s →
                    ID s = Sprintf_section03d (S i)
                    ∧ sectionNumber (ID s) = Some (S i))
          ∧ (∀ i j si sj ni nj,
               rest !! i = Some si → rest !! j = Some sj → i < j →
               sectionNumber (ID si) = Some ni → sectionNumber (ID sj) = Some nj →
               ni < nj)
          ∧ NoDup (ID <$> sections (parsed scenarioA)).
Proof.
  apply (parse_section_identifiers timeStamp scenarioA (parsed scenarioA)).
  vm_compute. reflexivity.
Defined.

(** C5 as stated fails on Scenario A: the first section of the sequence
    has the identifier "cover", which carries no running number, and the
    fourth section (the first chapter) carries the running number 1. *)
Lemma scenarioA_identifiers_not_positions :
  ∃ b, parse timeStamp scenarioA = Ok b
       ∧ ID <$> sections b !! 0 = Some "cover"
       ∧ sectionNumber "cover" = None
       ∧ ID <$> sections b !! 3 = Some "section001"
       ∧ ¬ (∀ n s, sections b !! n = Some s → sectionNumber (ID s) = Some (S n)).
Proof.
  exists (parsed scenarioA).
  split; [vm_compute; reflexivity|].
  split; [vm_compute; reflexivity|].
  split; [vm_compute; reflexivity|].
  split; [vm_compute; reflexivity|].
  intros H. specialize (H 0 coverSection).
  assert (E : sections (parsed scenarioA) !! 0 = Some coverSection)
    by (vm_compute; reflexivity).
  apply H in E. vm_compute in E. discriminate.
Qed.

(** ** Claims about the three loops *)

Lemma backDirectives_eq :
  backDirectives = ["<!--afterword-->"; "<!--epilogue-->"; "<!--appendix-->"; "<!--end-->"].
Proof. reflexivity. Qed.

Lemma frontDirectives_eq :
  frontDirectives =
    ["<!--bibliography-->"; "<!--acknowledgments-->"; "<!--dedication-->";
     "<!--epigraph-->"; "<!--foreword-->"; "<!--introduction-->"; "<!--preface-->";
     "<!--prologue-->"; "<!--preamble-->"].
Proof. reflexivity. Qed.

Lemma bodyDirectives_eq : bodyDirectives = ["<!--part-->"; "<!--chapter-->"].
Proof. reflexivity. Qed.

Lemma eqb_false (s t : string) : s ≠ t → (s == t) = false.
Proof. apply String.eqb_neq. Qed.

(** Turns [x ∉ [a; b; ...]] into the failing comparisons of a switch. *)
Ltac not_in_cases H :=
  rewrite !not_elem_of_cons in H;
  repeat match type of H with
         | _ ∧ _ => let H1 := fresh "Hne" in destruct H as [H1 H];
                    apply eqb_false in H1
         end.

(** C8. In loop 3 a current line that is not one of the afterword,
    epilogue, appendix and end directives is a fatal unknown-directive
    error, whatever the flags and the rest of the input; loop 1 and loop 2
    return on a line they do not recognize, with the buffer (and so the
    cursor) unchanged. *)
Theorem back_matter_unknown_directive fuel gb gf first b :
  CurrLine b ∉ backDirectives →
  loop3 (S fuel) gb b = Err (Panic ("epubgen: Unknown directive: " +:+ CurrLine b))
  ∧ (CurrLine b ∉ frontDirectives → loop1 (S fuel) gf b = Ok b)
  ∧ (CurrLine b ∉ bodyDirectives → loop2 (S fuel) first b = Ok (first, b)).
Proof.
  intros Hback. rewrite backDirectives_eq in Hback. not_in_cases Hback.
  split; [|split].
  - cbn [loop3]. by rewrite Hne, Hne0, Hne1, Hne2.
  - intros Hfront. rewrite frontDirectives_eq in Hfront. not_in_cases Hfront.
    cbn [loop1]. by rewrite Hne3, Hne4, Hne5, Hne6, Hne7, Hne8, Hne9, Hne10, Hne11.
  - intros Hbody. rewrite bodyDirectives_eq in Hbody. not_in_cases Hbody.
    cbn [loop2]. by rewrite Hne3, Hne4.
Qed.

(** The marker of Scenario E is unknown to each of the three loops. *)
Lemma back_matter_unknown_directive_scenarioE :
  loop3 1 (mkBackGiven false false true) (bufferAt "<!--unknown-->")
    = Err (Panic "epubgen: Unknown directive: <!--unknown-->")
  ∧ loop1 1 noneGiven (bufferAt "<!--unknown-->") = Ok (bufferAt "<!--unknown-->")
  ∧ loop2 1 true (bufferAt "<!--unknown-->") = Ok (true, bufferAt "<!--unknown-->").
Proof.
  destruct (back_matter_unknown_directive 0 (mkBackGiven false false true) noneGiven
              true (bufferAt "<!--unknown-->")) as (H3 & H1 & H2).
  - compute_done.
  - split; [exact H3|]. split; [apply H1|apply H2]; compute_done.
Defined.

(** Scenario E on a whole document, and the same marker in front-matter
    position: loops 1 and 2 fall through and no chapter was seen. *)
Example scenarioE_unknown_directive :
  parse timeStamp scenarioE = Err (Panic "epubgen: Unknown directive: <!--unknown-->").
Proof. vm_compute. reflexivity. Qed.

Example scenarioUnknownFront_no_chapter :
  parse timeStamp scenarioUnknownFront
    = Err (Panic "epubgen: at least one <!--chapter--> directive must be specified").
Proof. vm_compute. reflexivity. Qed.

(** *** The flags of the at-most-once kinds *)

Lemma loop1_duplicate fuel g b kind :
  kind ∈ frontOnce → CurrLine b = directiveOf kind → frontFlag kind g = true →
  loop1 (S fuel) g b = Err (alreadySpecified (directiveOf kind)).
Proof.
  intros Hk Hline Hflag. apply list_elem_of_In in Hk. simpl in Hk.
  unfold frontFlag, backFlag in Hflag.
  repeat (destruct Hk as [<-|Hk];
          [cbn [loop1]; rewrite Hline; simpl in Hflag |- *; rewrite Hflag; reflexivity|]).
  destruct Hk.
Qed.

Lemma loop3_duplicate fuel g b kind :
  kind ∈ backOnce → CurrLine b = directiveOf kind → backFlag kind g = true →
  loop3 (S fuel) g b = Err (alreadySpecified (directiveOf kind)).
Proof.
  intros Hk Hline Hflag. apply list_elem_of_In in Hk. simpl in Hk.
  unfold frontFlag, backFlag in Hflag.
  repeat (destruct Hk as [<-|Hk];
          [cbn [loop3]; rewrite Hline; simpl in Hflag |- *; rewrite Hflag; reflexivity|]).
  destruct Hk.
Qed.

(** The first occurrence in loop 1 builds the section and sets the flag of
    its kind; no flag is ever cleared. *)
Lemma loop1_first_occurrence fuel g b kind :
  kind ∈ frontOnce → CurrLine b = directiveOf kind → frontFlag kind g = false →
  ∃ label g', label ≠ ""
    ∧ frontFlag kind g' = true
    ∧ (∀ k, frontFlag k g = true → frontFlag k g' = true)
    ∧ loop1 (S fuel) g b = frontMatterCase kind label b ≫= loop1 fuel g'.
Proof.
  intros Hk Hline Hflag. apply list_elem_of_In in Hk. simpl in Hk.
  unfold frontFlag, backFlag in Hflag.
  repeat (destruct Hk as [<-|Hk];
    [cbn [loop1]; rewrite Hline; simpl in Hflag |- *; rewrite Hflag;
     eexists _, _; split; [|split; [|split; [|reflexivity]]];
     [discriminate | reflexivity |
      intros k; unfold frontFlag; simpl;
      repeat (match goal with |- context [k == ?d] => destruct (k == d) end);
      auto] |]).
  destruct Hk.
Qed.

Lemma loop3_first_occurrence fuel g b kind :
  kind ∈ backOnce → CurrLine b = directiveOf kind → backFlag kind g = false →
  ∃ label (g' : bool → BackGiven), label ≠ ""
    ∧ (∀ first, backFlag kind (g' first) = true)
    ∧ (∀ first k, backFlag k g = true → backFlag k (g' first) = true)
    ∧ loop3 (S fuel) g b =
        backMatterCase kind label (firstBackmatter g) b ≫= λ r, loop3 fuel (g' r.1) r.2.
Proof.
  intros Hk Hline Hflag. apply list_elem_of_In in Hk. simpl in Hk.
  unfold frontFlag, backFlag in Hflag.
  destruct Hk as [<-|[<-|[]]]; cbn [loop3]; rewrite Hline; simpl in Hflag |- *;
    rewrite Hflag.
  - exists "Afterword", (λ first, mkBackGiven true (epilogueGiven g) first).
    split; [discriminate|]. split; [reflexivity|]. split.
    + intros first k. unfold backFlag. simpl.
      repeat (match goal with |- context [k == ?d] => destruct (k == d) end); auto.
    + destruct (backMatterCase _ _ _ _) as [[first b1]|e]; reflexivity.
  - exists "Epilogue", (λ first, mkBackGiven (afterwordGiven g) true first).
    split; [discriminate|]. split; [reflexivity|]. split.
    + intros first k. unfold backFlag. simpl.
      repeat (match goal with |- context [k == ?d] => destruct (k == d) end); auto.
    + destruct (backMatterCase _ _ _ _) as [[first b1]|e]; reflexivity.
Qed.

(** *** How many sections of a kind a loop adds *)

Lemma countKind_cons kind id k h (l : list SectionData) :
  countKind kind (mkSection id k h :: l)
    = (if decide (k = kind) then 1 else 0) + countKind kind l.
Proof.
  unfold countKind. rewrite filter_cons. simpl.
  destruct (decide (k = kind)); reflexivity.
Qed.

Lemma countKind_other kind (kinds : list string) (l : list SectionData) :
  Forall (λ s, EpubType s ∈ kinds) l → kind ∉ kinds → countKind kind l = 0.
Proof.
  intros Hl Hk. apply countKind_none. eapply Forall_impl; [exact Hl|].
  intros s Hs Heq. apply Hk. by rewrite <- Heq.
Qed.

(** After a section of kind [k] was added in a branch whose flag [Hf] was
    clear, the bound on the sections added by the rest of the loop
    ([Hcount], under the updated flags) gives the bound for the whole. *)
Ltac count_after_case k Hf Hcount flag :=
  let k0 := fresh "k0" in
  let Hk0 := fresh "Hk0" in
  let Hle := fresh "Hle" in
  let H0 := fresh "H0" in
  let Hflag := fresh "Hflag" in
  intros k0 Hk0; rewrite countKind_cons;
  destruct (decide (k = k0)) as [<-|?]; simpl;
  [ first
      [ exfalso; revert Hk0; compute_done
      | destruct (Hcount k Hk0) as [_ H0]; rewrite H0 by reflexivity;
        split; [lia | intros Hflag; unfold flag in Hflag; simpl in Hflag; congruence] ]
  | destruct (Hcount k0 Hk0) as [Hle H0]; split; [exact Hle|];
    intros Hflag; apply H0; revert Hflag; unfold flag; simpl;
    repeat (match goal with |- context [k0 == ?d] => destruct (k0 == d) end);
    auto ].

Lemma loop1_added fuel g b b' :
  loop1 fuel g b = Ok b' →
  ∃ added, sections b' = sections b ++ added
    ∧ Forall (λ s, EpubType s ∈ frontOnce ++ ["preamble"]) added
    ∧ ∀ k, k ∈ frontOnce →
           countKind k added ≤ 1 ∧ (frontFlag k g = true → countKind k added = 0).
Proof.
  revert g b. induction fuel as [|fuel IH]; intros g b H; [discriminate|].
  cbn [loop1] in H.
  repeat (switch_CurrLine b H; [
    try (match type of H with context [if ?f g then _ else _] =>
           destruct (f g) eqn:Hf; [discriminate|] end);
    match type of H with context [frontMatterCase ?k ?l b] =>
      let E := fresh "E" in
      destruct (frontMatterCase k l b) as [b1|e] eqn:E; simpl in H; [|discriminate];
      apply frontMatterCase_stepped in E; [|discriminate];
      destruct E as (h & _ & _ & _ & _ & _ & Hsecs & _);
      destruct (IH _ _ H) as (added & Hadd & Hkinds & Hcount);
      exists (mkSection (Sprintf_section03d (S (currSectionNo b))) k h :: added);
      split; [rewrite Hadd, Hsecs, <- app_assoc; reflexivity|];
      split; [constructor; [compute_done|assumption]|];
      count_after_case k Hf Hcount frontFlag
    end | ]).
  injection H as <-. exists []. rewrite app_nil_r.
  split; [reflexivity|]. split; [constructor|]. intros k _. split; [unfold countKind; simpl; lia|intros _; reflexivity].
Qed.

Lemma loop2_added fuel first b r :
  loop2 fuel first b = Ok r →
  ∃ added, sections r.2 = sections b ++ added
    ∧ Forall (λ s, EpubType s ∈ ["part"; "chapter"]) added.
Proof.
  revert first b. induction fuel as [|fuel IH]; intros first b H; [discriminate|].
  cbn [loop2] in H.
  repeat (switch_CurrLine b H; [
    match type of H with context [bodyMatterCase ?k first b] =>
      let E := fresh "E" in
      destruct (bodyMatterCase k first b) as [[f1 b1]|e] eqn:E; simpl in H; [|discriminate];
      apply bodyMatterCase_stepped in E; simpl in E;
      destruct E as (h & _ & _ & _ & _ & _ & Hsecs & _);
      destruct (IH _ _ H) as (added & Hadd & Hkinds);
      exists (mkSection (Sprintf_section03d (S (currSectionNo b))) k h :: added);
      split; [rewrite Hadd, Hsecs, <- app_assoc; reflexivity|];
      constructor; [compute_done|assumption]
    end | ]).
  injection H as <-. exists []. rewrite app_nil_r. split; [reflexivity|constructor].
Qed.

Lemma loop3_added fuel g b b' :
  loop3 fuel g b = Ok b' →
  ∃ added, sections b' = sections b ++ added
    ∧ Forall (λ s, EpubType s ∈ backOnce ++ ["appendix"]) added
    ∧ ∀ k, k ∈ backOnce →
           countKind k added ≤ 1 ∧ (backFlag k g = true → countKind k added = 0).
Proof.
  revert g b. induction fuel as [|fuel IH]; intros g b H; [discriminate|].
  cbn [loop3] in H.
  repeat (switch_CurrLine b H; [
    try (match type of H with context [if ?f g then _ else _] =>
           destruct (f g) eqn:Hf; [discriminate|] end);
    match type of H with
    | context [backMatterCase ?k ?l ?fb b] =>
      let E := fresh "E" in
      destruct (backMatterCase k l fb b) as [[f1 b1]|e] eqn:E; simpl in H; [|discriminate];
      apply backMatterCase_stepped in E; [|discriminate]; simpl in E;
      destruct E as (h & _ & _ & _ & _ & _ & Hsecs & _);
      destruct (IH _ _ H) as (added & Hadd & Hkinds & Hcount);
      exists (mkSection (Sprintf_section03d (S (currSectionNo b))) k h :: added);
      split; [rewrite Hadd, Hsecs, <- app_assoc; reflexivity|];
      split; [constructor; [compute_done|assumption]|];
      count_after_case k Hf Hcount backFlag
    | _ =>
      injection H as <-; exists []; rewrite app_nil_r;
      split; [reflexivity|]; split; [constructor|];
      intros k _; split; [unfold countKind; simpl; lia|intros _; reflexivity]
    end | ]).
  discriminate.
Qed.

Lemma parse_added currTimeStamp lines0 b :
  parse currTimeStamp lines0 = Ok b →
  ∃ front body back,
    sections b = fixedThree ++ front ++ body ++ back
    ∧ Forall (λ s, EpubType s ∈ frontOnce ++ ["preamble"]) front
    ∧ (∀ k, k ∈ frontOnce → countKind k front ≤ 1)
    ∧ Forall (λ s, EpubType s ∈ ["part"; "chapter"]) body
    ∧ Forall (λ s, EpubType s ∈ backOnce ++ ["appendix"]) back
    ∧ (∀ k, k ∈ backOnce → countKind k back ≤ 1).
Proof.
  unfold parse. intros H.
  apply bind_Ok in H as (b1 & E1 & H).
  apply header_Ok in E1 as (_ & Hs1 & _ & _ & Hc1).
  apply bind_Ok in H as (b2 & E2 & H).
  apply fixedSections_Ok in E2 as (_ & _ & _ & Hs2); [|exact Hc1].
  rewrite Hs1 in Hs2. simpl in Hs2.
  unfold directiveLoops in H.
  apply bind_Ok in H as (b3 & E3 & H).
  apply loop1_added in E3 as (front & Hs3 & Hfront & Hcount1).
  apply bind_Ok in H as ([first b4] & E4 & H).
  apply loop2_added in E4 as (body & Hs4 & Hbody). simpl in Hs4.
  destruct first; [discriminate|].
  apply loop3_added in H as (back & Hs5 & Hback & Hcount3).
  exists front, body, back.
  split; [rewrite Hs5, Hs4, Hs3, Hs2, <- !app_assoc; reflexivity|].
  split; [assumption|]. split; [intros k Hk; by apply Hcount1|].
  split; [assumption|]. split; [assumption|]. intros k Hk; by apply Hcount3.
Qed.

Lemma kinds_apart (l1 l2 : list string) kind :
  Forall (λ k, k ∉ l2) l1 → kind ∈ l1 → kind ∉ l2.
Proof. rewrite Forall_forall. auto. Qed.

Lemma fixedThree_kinds : Forall (λ s, EpubType s ∈ fixedKinds) fixedThree.
Proof. repeat constructor; compute_done. Qed.

(** An accepted document has at most one section of each at-most-once kind. *)
Lemma parse_at_most_once currTimeStamp lines0 b kind :
  kind ∈ frontOnce ++ backOnce →
  parse currTimeStamp lines0 = Ok b → countKind kind (sections b) ≤ 1.
Proof.
  intros Hk H.
  apply parse_added in H as (front & body & back & -> & Hf & Hcf & Hb & Hk3 & Hcb).
  rewrite !countKind_app.
  rewrite (countKind_other kind fixedKinds fixedThree fixedThree_kinds)
    by (revert Hk; apply kinds_apart; compute_done).
  rewrite (countKind_other kind _ body Hb)
    by (revert Hk; apply kinds_apart; compute_done).
  apply elem_of_app in Hk as [Hk|Hk].
  - rewrite (countKind_other kind _ back Hk3)
      by (revert Hk; apply kinds_apart; compute_done).
    specialize (Hcf kind Hk). lia.
  - rewrite (countKind_other kind _ front Hf)
      by (revert Hk; apply kinds_apart; compute_done).
    specialize (Hcb kind Hk). lia.
Qed.

(** A kind whose directive is not in the input has no section. *)
Lemma parse_omitted currTimeStamp lines0 b kind :
  kind ∈ frontOnce ++ backOnce →
  parse currTimeStamp lines0 = Ok b → directiveOf kind ∉ lines0 →
  countKind kind (sections b) = 0.
Proof.
  intros Hk H Hnot. apply parse_shape in H as (rest & -> & _ & Hrest).
  rewrite countKind_app.
  rewrite (countKind_other kind fixedKinds fixedThree fixedThree_kinds)
    by (revert Hk; apply kinds_apart; compute_done).
  apply countKind_none, Forall_lookup. intros i s Hi Heq.
  destruct (Hrest i s Hi) as (_ & _ & Hin & _). apply Hnot. by rewrite <- Heq.
Qed.

(** C7 (amended). For every at-most-once directive kind: when the loop of
    its group (loop 1 for the eight front-matter kinds, loop 3 for
    afterword and epilogue) meets the directive, it fails with the
    duplicate-directive error if the flag of the kind is set, whatever the
    rest of the input, and otherwise builds the section and goes on with
    the flag set, no flag being cleared; so a second occurrence met by the
    same loop fails at that line.  An accepted document has at most one
    section of the kind, and none when the directive is not in the input. *)
Theorem duplicate_directive kind :
  kind ∈ frontOnce ++ backOnce →
  (kind ∈ frontOnce → ∀ fuel g b, CurrLine b = directiveOf kind →
     (frontFlag kind g = true →
      loop1 (S fuel) g b = Err (alreadySpecified (directiveOf kind)))
     ∧ (frontFlag kind g = false →
        ∃ label g', label ≠ ""
          ∧ frontFlag kind g' = true
          ∧ (∀ k, frontFlag k g = true → frontFlag k g' = true)
          ∧ loop1 (S fuel) g b = frontMatterCase kind label b ≫= loop1 fuel g'))
  ∧ (kind ∈ backOnce → ∀ fuel g b, CurrLine b = directiveOf kind →
     (backFlag kind g = true →
      loop3 (S fuel) g b = Err (alreadySpecified (directiveOf kind)))
     ∧ (backFlag kind g = false →
        ∃ label (g' : bool → BackGiven), label ≠ ""
          ∧ (∀ first, backFlag kind (g' first) = true)
          ∧ (∀ first k, backFlag k g = true → backFlag k (g' first) = true)
          ∧ loop3 (S fuel) g b =
              backMatterCase kind label (firstBackmatter g) b
                ≫= λ r, loop3 fuel (g' r.1) r.2))
  ∧ (∀ currTimeStamp lines0 b, parse currTimeStamp lines0 = Ok b →
       countKind kind (sections b) ≤ 1
       ∧ (directiveOf kind ∉ lines0 → countKind kind (sections b) = 0)).
Proof.
  intros Hk. split; [|split].
  - intros Hf fuel g b Hline. split; intros Hflag.
    + by apply loop1_duplicate.
    + by apply loop1_first_occurrence.
  - intros Hb fuel g b Hline. split; intros Hflag.
    + by apply loop3_duplicate.
    + by apply loop3_first_occurrence.
  - intros ts lines0 b H. split.
    + eapply parse_at_most_once; eassumption.
    + intros Hnot. eapply parse_omitted; eassumption.
Qed.

(** The bibliography kind: a second bibliography directive as the last line
    of the input fails as a duplicate, and Scenario A, which has no
    bibliography directive, is accepted without a bibliography section. *)
Lemma duplicate_directive_bibliography :
  loop1 1 (mkFrontGiven true false false false false false false false)
        (bufferAt "<!--bibliography-->")
    = Err (Panic "epubgen: Directive <!--bibliography--> already specified")
  ∧ is_Ok (parse timeStamp scenarioA) = true
  ∧ countKind "bibliography" (sections (parsed scenarioA)) = 0.
Proof.
  destruct (duplicate_directive "bibliography") as (Hfront & _ & Hdoc);
    [compute_done|].
  split; [|split].
  - apply (Hfront ltac:(compute_done) 0 _ (bufferAt "<!--bibliography-->") eq_refl).
    reflexivity.
  - vm_compute. reflexivity.
  - apply (Hdoc timeStamp scenarioA (parsed scenarioA)).
    + vm_compute. reflexivity.
    + compute_done.
Defined.

(** Scenario D on a whole document: the second bibliography directive is
    the last line, and the error is the duplicate, not the end of input. *)
Example scenarioD_duplicate :
  parse timeStamp scenarioD
    = Err (Panic "epubgen: Directive <!--bibliography--> already specified").
Proof. vm_compute. reflexivity. Qed.

(** C7 as stated fails when the second occurrence comes after the body
    matter: the preface directive occurs twice, the first one is accepted by
    loop 1, and the second one is met by loop 3, which reports an unknown
    directive, not a duplicate. *)
Lemma scenarioPrefaceTwice_unknown_directive :
  count_occ String.string_dec scenarioPrefaceTwice "<!--preface-->" = 2
  ∧ parse timeStamp scenarioPrefaceTwice
      = Err (Panic "epubgen: Unknown directive: <!--preface-->")
  ∧ parse timeStamp scenarioPrefaceTwice
      ≠ Err (alreadySpecified (directiveOf "preface")).
Proof.
  assert (H : parse timeStamp scenarioPrefaceTwice
              = Err (Panic "epubgen: Unknown directive: <!--preface-->"))
    by (vm_compute; reflexivity).
  split; [vm_compute; reflexivity|]. split; [exact H|].
  rewrite H. discriminate.
Qed.

(** ** The sentinel heading *)

(** The sections of the kinds with a default label never have an empty
    heading in an accepted document. *)
Lemma parse_labelled_heading currTimeStamp lines0 b s :
  parse currTimeStamp lines0 = Ok b →
  s ∈ sections b → EpubType s ∈ labelled → Heading s ≠ "".
Proof.
  intros H Hin Hk. apply parse_shape in H as (rest & Hs & _ & Hrest).
  rewrite Hs in Hin. apply elem_of_app in Hin as [Hin|Hin].
  - unfold fixedThree in Hin. rewrite !elem_of_cons, elem_of_nil in Hin.
    destruct Hin as [->|[->|[->|[]]]]; discriminate.
  - apply list_elem_of_lookup in Hin as (i & Hi).
    destruct (Hrest i s Hi) as (_ & _ & _ & Hh). by apply Hh.
Qed.

(** C4 (amended). When the line after a preface directive is the sentinel
    heading line, [extractHeading] returns the empty string and loop 1
    replaces it by the default label "Preface" before the section is
    constructed: the section appended to the section sequence, before its
    lines are read, has the heading "Preface". *)
Theorem preface_sentinel_heading fuel g b b1 :
  CurrLine b = "<!--preface-->" →
  prefaceGiven g = false →
  NextLine b = Ok b1 →
  CurrLine b1 = "<h1>&#160;</h1>" →
  let section := mkSection (Sprintf_section03d (S (currSectionNo b))) "preface" "Preface" in
  let stored := AddSection (NewSectionData b1 "preface" "Preface").2 section in
  extractHeading (CurrLine b1) = Ok ""
  ∧ sections stored = sections b ++ [section]
  ∧ loop1 (S fuel) g b =
      GenFrontMatterSection stored section
        ≫= loop1 fuel (mkFrontGiven (bibliographyGiven g) (acknowledgmentsGiven g)
                          (dedicationGiven g) (epigraphGiven g) (forewordGiven g)
                          (introductionGiven g) true (prologueGiven g)).
Proof.
  intros Hline Hflag Hnext Hheading. simpl.
  pose proof (NextLine_Ok _ _ Hnext) as [Hb1 _].
  assert (Hno : currSectionNo b1 = currSectionNo b) by (rewrite Hb1; reflexivity).
  assert (Hsecs : sections b1 = sections b) by (rewrite Hb1; reflexivity).
  split; [rewrite Hheading; reflexivity|]. split.
  - unfold NewSectionData, AddSection. simpl. by rewrite Hsecs.
  - cbn [loop1]. rewrite Hline. simpl (_ == _). cbv iota. rewrite Hflag.
    unfold frontMatterCase. rewrite Hnext. simpl (Ok b1 ≫= _).
    rewrite Hheading. change (extractHeading "<h1>&#160;</h1>") with (Ok (A:=string) "").
    simpl. unfold NewSectionData. simpl. rewrite Hno. reflexivity.
Qed.

(** The preface of Scenario C, at the cursor of a three-line input. *)
Lemma preface_sentinel_heading_witness :
  extractHeading (CurrLine prefaceBuffer1) = Ok ""
  ∧ sections (AddSection (NewSectionData prefaceBuffer1 "preface" "Preface").2
                         (mkSection "section001" "preface" "Preface"))
      = sections prefaceBuffer ++ [mkSection "section001" "preface" "Preface"]
  ∧ loop1 1 noneGiven prefaceBuffer =
      GenFrontMatterSection
        (AddSection (NewSectionData prefaceBuffer1 "preface" "Preface").2
                    (mkSection "section001" "preface" "Preface"))
        (mkSection "section001" "preface" "Preface")
        ≫= loop1 0 (mkFrontGiven false false false false false false true false).
Proof.
  apply (preface_sentinel_heading 0 noneGiven prefaceBuffer prefaceBuffer1); reflexivity.
Defined.

(** C4 as stated fails on Scenario C: the only preface section stored by
    the parser has the heading "Preface", and no preface section has an
    empty heading. *)
Lemma scenarioC_stored_heading :
  ∃ b, parse timeStamp scenarioC = Ok b
       ∧ filter (λ s, EpubType s = "preface") (sections b)
           = [mkSection "section001" "preface" "Preface"]
       ∧ ¬ (∃ s, s ∈ sections b ∧ EpubType s = "preface" ∧ Heading s = "").
Proof.
  exists (parsed scenarioC).
  assert (Hp : parse timeStamp scenarioC = Ok (parsed scenarioC))
    by (vm_compute; reflexivity).
  split; [exact Hp|]. split; [vm_compute; reflexivity|].
  intros (s & Hin & Hk & Hh).
  apply (parse_labelled_heading _ _ _ s Hp Hin); [|exact Hh].
  rewrite Hk. compute_done.
Qed.

(** ** The metadata scan *)

(** C3 (amended). During header scanning, a line that starts with the meta
    pattern and has a name component ([name=] and the opening quote) fails
    the conversion with the malformed-metadata error when the closing quote
    of the name, the content component, or the closing quote of the
    content is missing; a line that starts with the meta pattern and has no
    [name=], and every line that does not start with the meta pattern
    (other than the end of the head), is skipped with the attribute
    dictionary unchanged. *)
Theorem LoadAttributes_line fuel b b1 :
  NextLine b = Ok b1 →
  CurrLine b1 ≠ "</head>" →
  (HasPrefix (CurrLine b1) "<meta" = true → malformedMeta (CurrLine b1) →
   LoadAttributesLoop (S fuel) b = Err (invalidMeta (CurrLine b1)))
  ∧ (HasPrefix (CurrLine b1) "<meta" = false ∨ Index (CurrLine b1) "name=" = None →
     LoadAttributesLoop (S fuel) b = LoadAttributesLoop fuel b1
     ∧ attributes b1 = attributes b).
Proof.
  intros Hnext Hhead. apply eqb_false in Hhead.
  assert (Hattrs : attributes b1 = attributes b).
  { apply NextLine_Ok in Hnext as [-> _]. reflexivity. }
  split.
  - intros Hmeta (i & name & Hi & Hname & Hbad).
    cbn [LoadAttributesLoop]. rewrite Hnext. simpl (Ok b1 ≫= _).
    rewrite Hhead, Hmeta. unfold loadMeta.
    rewrite Hi, (bind_Ok_l _ _ _ Hname).
    destruct Hbad as [Hq|[Hc|(j & content & Hj & Hcontent & Hq)]].
    + rewrite Hq. reflexivity.
    + destruct (Index name dquote); [|reflexivity]. rewrite Hc. reflexivity.
    + destruct (Index name dquote); [|reflexivity].
      rewrite Hj, (bind_Ok_l _ _ _ Hcontent), Hq. reflexivity.
  - intros Hskip. split; [|exact Hattrs].
    cbn [LoadAttributesLoop]. rewrite Hnext. simpl (Ok b1 ≫= _). rewrite Hhead.
    destruct Hskip as [Hmeta|Hname].
    + rewrite Hmeta. reflexivity.
    + destruct (HasPrefix (CurrLine b1) "<meta"); [|reflexivity].
      unfold loadMeta. rewrite Hname. reflexivity.
Qed.

(** A meta line without content is malformed; a meta line without name is
    skipped. *)
Lemma LoadAttributes_line_witness :
  LoadAttributesLoop 2 (bufferBefore metaNoContent) = Err (invalidMeta metaNoContent)
  ∧ LoadAttributesLoop 2 (bufferBefore metaCharset)
      = LoadAttributesLoop 1 (setCursor (bufferBefore metaCharset) 1 metaCharset)
  ∧ attributes (setCursor (bufferBefore metaCharset) 1 metaCharset)
      = attributes (bufferBefore metaCharset).
Proof.
  split.
  - apply (LoadAttributes_line 1 (bufferBefore metaNoContent)
             (setCursor (bufferBefore metaNoContent) 1 metaNoContent)).
    + reflexivity.
    + discriminate.
    + reflexivity.
    + exists 6, ("subtitle" +:+ dquote +:+ ">").
      split; [reflexivity|]. split; [reflexivity|]. right. left. reflexivity.
  - apply (LoadAttributes_line 1 (bufferBefore metaCharset)
             (setCursor (bufferBefore metaCharset) 1 metaCharset)).
    + reflexivity.
    + discriminate.
    + right. reflexivity.
Defined.

(** C3 as stated fails on a meta line without a name component: the line
    starts with the meta pattern, has no [name=], and a document with this
    line in its head is accepted. *)
Lemma meta_without_name_is_skipped :
  HasPrefix metaCharset "<meta" = true
  ∧ Index metaCharset "name=" = None
  ∧ metaCharset ∈ documentWith [metaCharset]
  ∧ is_Ok (parse timeStamp (documentWith [metaCharset])) = true
  ∧ LoadAttributes (bufferBefore metaCharset)
      = Ok (setCursor (bufferBefore metaCharset) 2 "</head>").
Proof.
  split; [reflexivity|]. split; [reflexivity|]. split; [compute_done|].
  split; vm_compute; reflexivity.
Qed.

(** A meta line without a content component in the head of a document. *)
Example meta_without_content_fails :
  parse timeStamp (documentWith [metaNoContent]) = Err (invalidMeta metaNoContent).
Proof. vm_compute. reflexivity. Qed.

(** ** Image file names *)

Lemma append_snoc (s t : string) (a : ascii) :
  (s +:+ String a EmptyString) +:+ t = s +:+ String a t.
Proof.
  induction s as [|c s IH]; [reflexivity|].
  change (String c ((s +:+ String a EmptyString) +:+ t) = String c (s +:+ String a t)).
  by rewrite IH.
Qed.

Lemma append_empty_r (s : string) : s +:+ "" = s.
Proof.
  induction s as [|c s IH]; [reflexivity|].
  change (String c (s +:+ "") = String c s). by rewrite IH.
Qed.

(** When [strings.Cut] finds no separator, [strings.Split] returns the
    string itself as the only element. *)
Lemma SplitAcc_not_found c s cur before :
  (CutAcc c s before).2 = false → SplitAcc c s cur = [cur +:+ s].
Proof.
  revert cur before. induction s as [|a s IH]; intros cur before; simpl.
  - by rewrite append_empty_r.
  - destruct (Ascii.eqb a c); [discriminate|].
    intros H. rewrite (IH _ _ H). f_equal. apply append_snoc.
Qed.

(** A title-page value without a dot, other than "default" and "custom",
    stops the program at [parts[1]]. *)
Lemma GenTitlePageSection_without_dot b :
  GetAttribute b "titlepage" ≠ "" →
  GetAttribute b "titlepage" ≠ "default" →
  GetAttribute b "titlepage" ≠ "custom" →
  (Cut (GetAttribute b "titlepage") ".").2 = false →
  GenTitlePageSection b = Err IndexOutOfRange.
Proof.
  intros H1 H2 H3 Hcut. unfold GenTitlePageSection.
  rewrite (eqb_false _ _ H1), (eqb_false _ _ H2), (eqb_false _ _ H3).
  unfold Split. by rewrite (SplitAcc_not_found _ _ _ _ Hcut).
Qed.

(** C9. A title-page image name without a dot makes [GenTitlePageSection]
    read [parts[1]] of a one-element slice; a name whose last extension is
    not an image type is accepted when its second component is one.  The
    check of the images attribute, written with [strings.Cut], reports the
    unsupported extension for a name without a dot. *)
Theorem titlepage_image_name_check :
  parse timeStamp scenarioTitleNoDot = Err IndexOutOfRange
  ∧ is_Ok (parse timeStamp scenarioTitleTwoDots) = true
  ∧ is_Ok (parse timeStamp scenarioTitlePng) = true
  ∧ parse timeStamp scenarioTitleGif = Err unsupportedImage
  ∧ parse timeStamp scenarioImagesNoDot = Err unsupportedImage.
Proof. repeat split; vm_compute; reflexivity. Qed.

(** The entries of an accepted images attribute are recorded. *)
Example scenarioImages_recorded :
  images (parsed scenarioImages) !! "fig1.png" = Some (mkImage "fig1.png" "png")
  ∧ images (parsed scenarioImages) !! "fig2.jpeg" = Some (mkImage "fig2.jpeg" "jpeg").
Proof. split; vm_compute; reflexivity. Qed.

(** The images attribute: every entry is checked, and the accepted names
    are recorded with their media type. *)
Lemma checkImageFilesLoop_rejects files imgs :
  ¬ Forall (λ f, acceptedMediaType (Cut f ".").1.2 = true) files →
  checkImageFilesLoop files imgs = Err unsupportedImage.
Proof.
  revert imgs. induction files as [|f files IH]; intros imgs Hnot.
  - destruct Hnot. constructor.
  - simpl. destruct (Cut f ".") as [[before mediaType] found] eqn:E.
    destruct (negb (mediaType == "png") && negb (mediaType == "jpeg")) eqn:Em;
      [reflexivity|].
    apply IH. intros Hall. apply Hnot. constructor; [|assumption].
    rewrite E. unfold acceptedMediaType. simpl. by rewrite Em.
Qed.

Lemma checkImageFilesLoop_records files imgs :
  Forall (λ f, acceptedMediaType (Cut f ".").1.2 = true) files →
  ∃ imgs', checkImageFilesLoop files imgs = Ok imgs'
           ∧ ∀ f, f ∈ files → imgs' !! f = Some (mkImage f (Cut f ".").1.2).
Proof.
  intros Hall. revert imgs.
  assert (Hgen : ∀ imgs, ∃ imgs', checkImageFilesLoop files imgs = Ok imgs'
            ∧ ∀ f, imgs' !! f = if decide (f ∈ files)
                                then Some (mkImage f (Cut f ".").1.2) else imgs !! f).
  { induction Hall as [|f files Hf _ IH]; intros imgs.
    - exists imgs. split; [reflexivity|]. intros f. case_decide; [|reflexivity].
      by apply elem_of_nil in H.
    - simpl. destruct (Cut f ".") as [[before mediaType] found] eqn:E.
      unfold acceptedMediaType in Hf. simpl in Hf.
      apply negb_true_iff in Hf. rewrite Hf.
      destruct (IH (<[f:=mkImage f mediaType]> imgs)) as (imgs' & -> & Hlook).
      exists imgs'. split; [reflexivity|]. intros f'. rewrite Hlook.
      destruct (decide (f' = f)) as [->|Hne].
      + rewrite (decide_True (P := f ∈ f :: files)) by apply list_elem_of_here.
        rewrite E. simpl. case_decide; [reflexivity|]. by rewrite lookup_insert_eq.
      + rewrite lookup_insert_ne by congruence.
        destruct (decide (f' ∈ files)) as [Hin|Hin].
        * rewrite decide_True by (by apply list_elem_of_further). reflexivity.
        * rewrite decide_False; [reflexivity|].
          intros Hc. apply elem_of_cons in Hc as [?|?]; contradiction. }
  intros imgs. destruct (Hgen imgs) as (imgs' & H & Hlook).
  exists imgs'. split; [assumption|]. intros f Hf. rewrite Hlook.
  by rewrite decide_True.
Qed.

(** ** The loop bounds of the model are never reached *)

Lemma cursorOK_lt b : cursorOK b → lineIndex b < length (lines b).
Proof. intros H. eapply lookup_lt_Some, H. Qed.

Lemma extractHeading_fuel line : extractHeading line ≠ Err OutOfFuel.
Proof.
  unfold extractHeading. destruct (_ || _); [|discriminate].
  case_decide; [|discriminate]. destruct (_ == _); discriminate.
Qed.

Lemma GenFrontMatterSection_fuel b section :
  lineIndex b ≤ length (lines b) → GenFrontMatterSection b section ≠ Err OutOfFuel.
Proof.
  intros Hi. unfold GenFrontMatterSection.
  destruct (readSectionLines _ _ _) as [[ls b1]|e] eqn:E; simpl; [discriminate|].
  intros [= ->]. revert E. apply readSectionLines_fuel; lia.
Qed.

Lemma builderCase_fuel b b1 kind heading :
  NextLine b = Ok b1 →
  GenFrontMatterSection
    (AddSection (NewSectionData b1 kind heading).2 (NewSectionData b1 kind heading).1)
    (NewSectionData b1 kind heading).1 ≠ Err OutOfFuel.
Proof.
  intros HN. apply NextLine_moved in HN. pose proof (moved_lineIndex _ _ HN) as Hi.
  pose proof (moved_lines _ _ HN) as Hl.
  apply GenFrontMatterSection_fuel. simpl. rewrite Hl. lia.
Qed.

Lemma frontMatterCase_fuel kind label b : frontMatterCase kind label b ≠ Err OutOfFuel.
Proof.
  unfold frontMatterCase.
  destruct (NextLine b) as [b1|e] eqn:EN; simpl;
    [|intros [= ->]; by apply NextLine_not_OutOfFuel in EN].
  destruct (extractHeading (CurrLine b1)) as [h|e] eqn:EH; simpl;
    [|intros [= ->]; by apply extractHeading_fuel in EH].
  exact (builderCase_fuel b b1 _ _ EN).
Qed.

Lemma bodyMatterCase_fuel kind first b : bodyMatterCase kind first b ≠ Err OutOfFuel.
Proof.
  unfold bodyMatterCase.
  destruct (NextLine b) as [b1|e] eqn:EN; simpl;
    [|intros [= ->]; by apply NextLine_not_OutOfFuel in EN].
  destruct (extractHeading (CurrLine b1)) as [h|e] eqn:EH; simpl;
    [|intros [= ->]; by apply extractHeading_fuel in EH].
  destruct (GenBodyMatterSection _ _) as [b2|e] eqn:EG; simpl.
  - destruct first; discriminate.
  - intros [= ->]. revert EG. exact (builderCase_fuel b b1 _ _ EN).
Qed.

Lemma backMatterCase_fuel kind label first b :
  backMatterCase kind label first b ≠ Err OutOfFuel.
Proof.
  unfold backMatterCase.
  destruct (NextLine b) as [b1|e] eqn:EN; simpl;
    [|intros [= ->]; by apply NextLine_not_OutOfFuel in EN].
  destruct (extractHeading (CurrLine b1)) as [h|e] eqn:EH; simpl;
    [|intros [= ->]; by apply extractHeading_fuel in EH].
  destruct (GenBackMatterSection _ _) as [b2|e] eqn:EG; simpl.
  - destruct first; discriminate.
  - intros [= ->]. revert EG. exact (builderCase_fuel b b1 _ _ EN).
Qed.

Lemma stepped_fuel kind label b b' fuel :
  stepped kind label b b' →
  length (lines b) < S fuel + lineIndex b →
  lineIndex b' ≤ length (lines b') ∧ length (lines b') < fuel + lineIndex b'.
Proof.
  intros (h & _ & Hl & Hc & Hlt & _) Hf. apply cursorOK_lt in Hc.
  rewrite Hl in *. lia.
Qed.

Lemma loop1_fuel fuel g b :
  lineIndex b ≤ length (lines b) → length (lines b) < fuel + lineIndex b →
  loop1 fuel g b ≠ Err OutOfFuel.
Proof.
  revert g b. induction fuel as [|fuel IH]; intros g b Hi Hf H; [lia|].
  cbn [loop1] in H.
  repeat (switch_CurrLine b H; [
    try (match type of H with context [if ?f g then _ else _] =>
           destruct (f g); [discriminate|] end);
    match type of H with context [frontMatterCase ?k ?l b] =>
      let E := fresh "E" in
      destruct (frontMatterCase k l b) as [b1|e] eqn:E; simpl in H;
      [ apply frontMatterCase_stepped in E; [|discriminate];
        destruct (stepped_fuel _ _ _ _ fuel E Hf); by apply IH in H
      | injection H as ->; by apply frontMatterCase_fuel in E ]
    end | ]).
  discriminate.
Qed.

Lemma loop2_fuel fuel first b :
  lineIndex b ≤ length (lines b) → length (lines b) < fuel + lineIndex b →
  loop2 fuel first b ≠ Err OutOfFuel.
Proof.
  revert first b. induction fuel as [|fuel IH]; intros first b Hi Hf H; [lia|].
  cbn [loop2] in H.
  repeat (switch_CurrLine b H; [
    match type of H with context [bodyMatterCase ?k first b] =>
      let E := fresh "E" in
      destruct (bodyMatterCase k first b) as [[f1 b1]|e] eqn:E; simpl in H;
      [ apply bodyMatterCase_stepped in E; simpl in E;
        destruct (stepped_fuel _ _ _ _ fuel E Hf); by apply IH in H
      | injection H as ->; by apply bodyMatterCase_fuel in E ]
    end | ]).
  discriminate.
Qed.

Lemma loop3_fuel fuel g b :
  lineIndex b ≤ length (lines b) → length (lines b) < fuel + lineIndex b →
  loop3 fuel g b ≠ Err OutOfFuel.
Proof.
  revert g b. induction fuel as [|fuel IH]; intros g b Hi Hf H; [lia|].
  cbn [loop3] in H.
  repeat (switch_CurrLine b H; [
    try (match type of H with context [if ?f g then _ else _] =>
           destruct (f g); [discriminate|] end);
    match type of H with
    | context [backMatterCase ?k ?l ?fb b] =>
      let E := fresh "E" in
      destruct (backMatterCase k l fb b) as [[f1 b1]|e] eqn:E; simpl in H;
      [ apply backMatterCase_stepped in E; [|discriminate]; simpl in E;
        destruct (stepped_fuel _ _ _ _ fuel E Hf); by apply IH in H
      | injection H as ->; by apply backMatterCase_fuel in E ]
    | _ => discriminate
    end | ]).
  discriminate.
Qed.

Lemma skipTo_fuel fuel marker b :
  lineIndex b ≤ length (lines b) → length (lines b) < fuel + lineIndex b →
  skipTo fuel marker b ≠ Err OutOfFuel.
Proof.
  revert b. induction fuel as [|fuel IH]; intros b Hi Hf; simpl; [lia|].
  destruct (NextLine b) as [b1|e] eqn:E; simpl;
    [|intros [= ->]; by apply NextLine_not_OutOfFuel in E].
  apply NextLine_moved in E. pose proof (moved_lineIndex _ _ E).
  pose proof (moved_lines _ _ E) as Hl.
  destruct (CurrLine b1 == marker); [discriminate|].
  apply IH; rewrite Hl; lia.
Qed.

Lemma loadMeta_fuel b : loadMeta b ≠ Err OutOfFuel.
Proof.
  unfold loadMeta, sliceFrom.
  destruct (Index (CurrLine b) "name=") as [i|]; [|discriminate].
  case_decide; simpl; [|discriminate].
  destruct (Index _ dquote) as [j|]; [|discriminate].
  destruct (Index (CurrLine b) "content=") as [k|]; [|discriminate].
  case_decide; simpl; [|discriminate].
  destruct (Index _ dquote) as [m|]; [|discriminate].
  destruct (negb _); discriminate.
Qed.

Lemma LoadAttributesLoop_fuel fuel b :
  lineIndex b ≤ length (lines b) → length (lines b) < fuel + lineIndex b →
  LoadAttributesLoop fuel b ≠ Err OutOfFuel.
Proof.
  revert b. induction fuel as [|fuel IH]; intros b Hi Hf; simpl; [lia|].
  destruct (NextLine b) as [b1|e] eqn:E; simpl;
    [|intros [= ->]; by apply NextLine_not_OutOfFuel in E].
  apply NextLine_moved in E. pose proof (moved_lineIndex _ _ E).
  pose proof (moved_lines _ _ E) as Hl.
  destruct (CurrLine b1 == "</head>"); [discriminate|].
  destruct (HasPrefix (CurrLine b1) "<meta").
  - destruct (loadMeta b1) as [b2|e] eqn:E2; simpl;
      [|intros [= ->]; by apply loadMeta_fuel in E2].
    apply loadMeta_sameBook in E2 as ((Hl2 & _) & Hi2 & _).
    apply IH; rewrite Hl2, Hi2, Hl; lia.
  - apply IH; rewrite Hl; lia.
Qed.

Lemma checkRequiredAttributes_fuel b : checkRequiredAttributes b ≠ Err OutOfFuel.
Proof.
  unfold checkRequiredAttributes, requireAttribute.
  repeat (match goal with
          | |- context [if ?c then _ else _] => destruct c; simpl
          end; try discriminate).
Qed.

Lemma CheckCoverImage_cursor b r :
  CheckCoverImage b = r →
  r ≠ Err OutOfFuel
  ∧ ∀ b', r = Ok b' → lines b' = lines b ∧ lineIndex b' = lineIndex b.
Proof.
  unfold CheckCoverImage. intros <-.
  destruct (GetAttribute b "cover-image" == ""); [by split|].
  destruct (Cut _ _) as [[? mt] ?]. destruct (_ && _); [by split|].
  split; [discriminate|]. by intros b' [= <-].
Qed.

Lemma checkImageFilesLoop_fuel files imgs : checkImageFilesLoop files imgs ≠ Err OutOfFuel.
Proof.
  revert imgs. induction files as [|f files IH]; intros imgs; simpl; [discriminate|].
  destruct (Cut _ _) as [[? mt] ?]. destruct (_ && _); [discriminate|]. apply IH.
Qed.

Lemma CheckImageFiles_cursor b r :
  CheckImageFiles b = r →
  r ≠ Err OutOfFuel
  ∧ ∀ b', r = Ok b' → lines b' = lines b ∧ lineIndex b' = lineIndex b.
Proof.
  unfold CheckImageFiles. intros <-.
  destruct (GetAttribute b "images" == ""); [split; [discriminate|by intros b' [= <-]]|].
  destruct (checkImageFilesLoop _ _) as [imgs|e] eqn:E; simpl.
  - split; [discriminate|]. by intros b' [= <-].
  - split; [|discriminate]. intros [= ->]. by apply checkImageFilesLoop_fuel in E.
Qed.

Lemma header_fuel currTimeStamp lines0 : header currTimeStamp lines0 ≠ Err OutOfFuel.
Proof.
  unfold header. cbv zeta.
  destruct (skipTo _ "<head>" _) as [b1|e] eqn:E1;
    [|rewrite (bind_Err_l _ _ _ eq_refl); intros [= ->]; revert E1;
      apply skipTo_fuel; simpl; lia].
  rewrite (bind_Ok_l _ _ _ eq_refl).
  apply skipTo_moved in E1. pose proof (moved_lineIndex _ _ E1) as Hi1.
  pose proof (moved_lines _ _ E1) as Hl1. simpl in Hi1, Hl1.
  destruct (LoadAttributes b1) as [b2|e] eqn:E2;
    [|rewrite (bind_Err_l _ _ _ eq_refl); intros [= ->]; revert E2;
      apply LoadAttributesLoop_fuel; rewrite Hl1; lia].
  rewrite (bind_Ok_l _ _ _ eq_refl).
  apply LoadAttributesLoop_sameBook in E2 as [(Hl2 & _) Hc2]. apply cursorOK_lt in Hc2.
  rewrite Hl2, Hl1 in Hc2.
  destruct (checkRequiredAttributes b2) as [[]|e] eqn:E3;
    [|rewrite (bind_Err_l _ _ _ eq_refl); intros [= ->]; revert E3;
      apply checkRequiredAttributes_fuel].
  rewrite (bind_Ok_l _ _ _ eq_refl).
  destruct (CheckCoverImage_cursor b2 _ eq_refl) as [Hf4 H4].
  destruct (CheckCoverImage b2) as [b3|e];
    [|rewrite (bind_Err_l _ _ _ eq_refl); congruence].
  rewrite (bind_Ok_l _ _ _ eq_refl). destruct (H4 b3 eq_refl) as [Hl3 Hi3].
  destruct (CheckImageFiles_cursor b3 _ eq_refl) as [Hf5 H5].
  destruct (CheckImageFiles b3) as [b4|e];
    [|rewrite (bind_Err_l _ _ _ eq_refl); congruence].
  rewrite (bind_Ok_l _ _ _ eq_refl). destruct (H5 b4 eq_refl) as [Hl4 Hi4].
  match goal with |- skipTo _ _ ?x ≫= _ ≠ _ => set (b5 := x) end.
  assert (lines b5 = lines b4 ∧ lineIndex b5 = lineIndex b4) as [Hl5 Hi5].
  { unfold b5. destruct (GetAttribute b4 "created" == ""); by split. }
  destruct (skipTo _ "<body>" b5) as [b6|e] eqn:E6;
    [|rewrite (bind_Err_l _ _ _ eq_refl); intros [= ->]; revert E6;
      apply skipTo_fuel; rewrite Hl5, Hi5, Hl4, Hi4, Hl3, Hi3, Hl2, Hl1; lia].
  rewrite (bind_Ok_l _ _ _ eq_refl). apply NextLine_not_OutOfFuel.
Qed.

Lemma GenTitlePageSection_fuel b :
  cursorOK b → GenTitlePageSection b ≠ Err OutOfFuel.
Proof.
  intros Hc. unfold GenTitlePageSection. cbv zeta.
  destruct (_ == "default"); [discriminate|].
  destruct (_ == "custom").
  - destruct (NextLine _) as [b1|e] eqn:E1;
      [|rewrite (bind_Err_l _ _ _ eq_refl); intros [= ->];
        by apply NextLine_not_OutOfFuel in E1].
    rewrite (bind_Ok_l _ _ _ eq_refl).
    destruct (CurrLine b1 == "<!--titlepage-->"); [|discriminate].
    destruct (NextLine b1) as [b2|e] eqn:E2;
      [|rewrite (bind_Err_l _ _ _ eq_refl); intros [= ->];
        by apply NextLine_not_OutOfFuel in E2].
    rewrite (bind_Ok_l _ _ _ eq_refl).
    apply NextLine_moved in E2. pose proof (moved_lineIndex _ _ E2).
    pose proof (moved_lines _ _ E2) as Hl.
    apply GenFrontMatterSection_fuel. rewrite Hl. lia.
  - destruct (Split _ _ !! 1) as [mt|]; [|discriminate].
    destruct (_ && _); discriminate.
Qed.

Lemma fixedSections_fuel currTimeStamp b :
  cursorOK b → fixedSections currTimeStamp b ≠ Err OutOfFuel.
Proof.
  intros Hc. unfold fixedSections. cbv zeta.
  destruct (GenTitlePageSection _) as [b1|e] eqn:E1;
    [|rewrite (bind_Err_l _ _ _ eq_refl); intros [= ->]; revert E1;
      by apply GenTitlePageSection_fuel].
  rewrite (bind_Ok_l _ _ _ eq_refl).
  case_decide; [|rewrite (bind_Err_l _ _ _ eq_refl); discriminate].
  rewrite (bind_Ok_l _ _ _ eq_refl). unfold GenCopyrightSection.
  destruct (negb _); [discriminate|].
  destruct (NextLine b1) as [b2|e] eqn:E2;
    [|rewrite (bind_Err_l _ _ _ eq_refl); intros [= ->];
      by apply NextLine_not_OutOfFuel in E2].
  rewrite (bind_Ok_l _ _ _ eq_refl). cbv zeta.
  apply NextLine_moved in E2. pose proof (moved_lineIndex _ _ E2).
  pose proof (moved_lines _ _ E2) as Hl.
  destruct (readSectionLines _ _ _) as [[ls b3]|e] eqn:E3;
    [rewrite (bind_Ok_l _ _ _ eq_refl); discriminate|].
  rewrite (bind_Err_l _ _ _ eq_refl). intros [= ->]. revert E3.
  apply readSectionLines_fuel; simpl; rewrite Hl; lia.
Qed.

(** The parser never stops for lack of fuel: the result of [parse] is the
    buffer at the end directive or one of the panics of the program. *)
Theorem parse_fuel currTimeStamp lines0 : parse currTimeStamp lines0 ≠ Err OutOfFuel.
Proof.
  unfold parse.
  destruct (header _ _) as [b1|e] eqn:E1;
    [|rewrite (bind_Err_l _ _ _ eq_refl); intros [= ->]; revert E1; apply header_fuel].
  rewrite (bind_Ok_l _ _ _ eq_refl).
  apply header_Ok in E1 as (Hl1 & Hs1 & _ & Hn1 & Hc1).
  destruct (fixedSections _ b1) as [b2|e] eqn:E2;
    [|rewrite (bind_Err_l _ _ _ eq_refl); intros [= ->]; revert E2;
      by apply fixedSections_fuel].
  rewrite (bind_Ok_l _ _ _ eq_refl).
  apply fixedSections_Ok in E2 as (Hc2 & Hl2 & Hn2 & Hs2); [|exact Hc1].
  assert (HI2 : Inv b2).
  { split; [assumption|]. rewrite Hs2, Hs1, Hn2, Hn1. constructor. }
  unfold directiveLoops.
  destruct (loop1 _ _ b2) as [b3|e] eqn:E3;
    [|rewrite (bind_Err_l _ _ _ eq_refl); intros [= ->]; revert E3;
      apply cursorOK_lt in Hc2; apply loop1_fuel; lia].
  rewrite (bind_Ok_l _ _ _ eq_refl).
  apply loop1_Inv in E3 as [HI3 Hl3]; [|exact HI2].
  pose proof (cursorOK_lt _ (proj1 HI3)) as Hlt3.
  destruct (loop2 _ _ b3) as [[first b4]|e] eqn:E4;
    [|rewrite (bind_Err_l _ _ _ eq_refl); intros [= ->]; revert E4;
      apply loop2_fuel; lia].
  rewrite (bind_Ok_l _ _ _ eq_refl).
  apply loop2_Inv in E4 as [HI4 Hl4]; [|exact HI3]. simpl in HI4, Hl4.
  pose proof (cursorOK_lt _ (proj1 HI4)) as Hlt4.
  destruct first; [discriminate|]. apply loop3_fuel; lia.
Qed.

Lemma rangeSections_index l i index section :
  index ≤ i →
  (rangeSections l i index section).1 ≤ i + length l.
Proof.
  revert i index section. induction l as [|s l IH]; intros i index section Hi; simpl.
  - lia.
  - destruct (isBodyMatter s); simpl; [lia|].
    specialize (IH (S i) i s). lia.
Qed.

(** The partitioner never stops for lack of fuel. *)
Theorem GenNAVFile_fuel b : GenNAVFile b ≠ Err OutOfFuel.
Proof.
  unfold GenNAVFile.
  pose proof (rangeSections_index (sections b) 0 0 zeroSection (le_n 0)) as Hidx.
  destruct (rangeSections _ _ _ _) as [index section]. simpl in Hidx.
  destruct (EpubType section == "part").
  - destruct (partsLoop _ _ _ _ _ _ _) as [[ps i]|e] eqn:E; simpl; [discriminate|].
    intros [= ->]. revert E. apply partsLoop_fuel; lia.
  - unfold chaptersLoop. destruct (sections b !! index); simpl; [|discriminate].
    destruct (negb _); discriminate.
Qed.

(** * Further properties of the program *)

(** ** Strings *)

Lemma length_append (s t : string) :
  String.length (s +:+ t) = String.length s + String.length t.
Proof.
  induction s as [|a s IH]; [reflexivity|].
  change (S (String.length (s +:+ t)) = S (String.length s + String.length t)).
  by rewrite IH.
Qed.

Lemma substring_prefix (p x : string) :
  String.substring 0 (String.length p) (p +:+ x) = p.
Proof.
  induction p as [|a p IH]; [by destruct x|].
  change (String a (String.substring 0 (String.length p) (p +:+ x)) = String a p).
  by rewrite IH.
Qed.

Lemma prefix_empty (x : string) : String.prefix "" x = true.
Proof. by destruct x. Qed.

Lemma append_assoc (s t u : string) : (s +:+ t) +:+ u = s +:+ t +:+ u.
Proof.
  induction s as [|a s IH]; [reflexivity|].
  change (String a ((s +:+ t) +:+ u) = String a (s +:+ t +:+ u)). by rewrite IH.
Qed.

(** [strings.Index] looks at the head position, then at the tail. *)
Lemma Index_cons (pat : string) (a : ascii) (s : string) :
  Index (String a s) pat =
    if String.prefix pat (String a s) then Some 0 else S <$> Index s pat.
Proof.
  unfold Index. simpl. destruct (String.prefix pat (String a s)); [reflexivity|].
  destruct (String.index 0 pat s); reflexivity.
Qed.

Lemma prefix_char (c a : ascii) (s : string) :
  String.prefix (String c "") (String a s) = if Ascii.eqb c a then true else false.
Proof.
  simpl. destruct (ascii_dec c a) as [->|Hne].
  - by rewrite Ascii.eqb_refl, prefix_empty.
  - apply Ascii.eqb_neq in Hne. by rewrite Hne.
Qed.

(** The first occurrence of a byte that does not occur in [x] is right
    after [x]. *)
Lemma Index_char_append (c : ascii) (x r : string) :
  Index x (String c "") = None →
  Index (x +:+ String c r) (String c "") = Some (String.length x).
Proof.
  induction x as [|a x IH]; intros Hx.
  - change (Index (String c r) (String c "") = Some 0).
    by rewrite Index_cons, prefix_char, Ascii.eqb_refl.
  - change (Index (String a (x +:+ String c r)) (String c "") = Some (S (String.length x))).
    rewrite Index_cons, prefix_char in Hx |- *.
    destruct (Ascii.eqb c a); [discriminate|].
    destruct (Index x (String c "")) eqn:E; [discriminate|].
    by rewrite IH.
Qed.

Lemma substring_middle (p h x : string) :
  String.substring (String.length p) (String.length h) (p +:+ h +:+ x) = h.
Proof.
  induction p as [|a p IH]; [exact (substring_prefix h x)|].
  change (String.substring (String.length p) (String.length h) (p +:+ h +:+ x) = h).
  exact IH.
Qed.

Lemma substring_length (n m : nat) (s : string) :
  String.length (String.substring n m s) ≤ m.
Proof.
  revert n m. induction s as [|a s IH]; intros [|n] [|m]; simpl; try lia.
  - specialize (IH 0 m). lia.
  - apply IH.
  - apply IH.
Qed.

(** ** The heading line *)

(** X1. For a line made of an opening tag [<h1 ...>], [<h2 ...>] or
    [<h3 ...>] without [>] inside, a heading text and any five closing
    bytes, [extractHeading] returns the heading text, and the empty string
    when the text is the sentinel; the closing tag is not looked at. *)
Theorem extractHeading_headingLine (n : ascii) (attrs heading close : string) :
  n ∈ ["1"; "2"; "3"]%char →
  Index attrs ">" = None →
  String.length close = 5 →
  extractHeading (headingLine n attrs heading close)
    = Ok (if heading == "&#160;" then "" else heading).
Proof.
  intros Hn Hattrs Hclose.
  set (p := String "<" (String "h" (String n (attrs +:+ ">")))).
  assert (Hline : headingLine n attrs heading close = p +:+ heading +:+ close).
  { unfold headingLine, p.
    change (String "<" (String "h" (String n (attrs +:+ String ">" (heading +:+ close))))
            = String "<" (String "h" (String n ((attrs +:+ ">") +:+ heading +:+ close)))).
    by rewrite append_assoc. }
  assert (Hlen : String.length p = 4 + String.length attrs).
  { unfold p. simpl. rewrite length_append. simpl. lia. }
  assert (Hidx : Index (headingLine n attrs heading close) ">"
                 = Some (3 + String.length attrs)).
  { unfold headingLine.
    change (Index (String "<" (String "h"
              (String n (attrs +:+ String ">" (heading +:+ close))))) ">"
            = Some (3 + String.length attrs)).
    rewrite !Index_cons, !prefix_char.
    rewrite !elem_of_cons, elem_of_nil in Hn.
    destruct Hn as [->|[->|[->|[]]]]; simpl;
      by rewrite (Index_char_append ">" attrs _ Hattrs). }
  assert (Hpre : HasPrefix (headingLine n attrs heading close) "<h1"
                 || HasPrefix (headingLine n attrs heading close) "<h2"
                 || HasPrefix (headingLine n attrs heading close) "<h3" = true).
  { unfold headingLine, HasPrefix.
    rewrite !elem_of_cons, elem_of_nil in Hn.
    destruct Hn as [->|[->|[->|[]]]]; simpl; rewrite prefix_empty; reflexivity. }
  unfold extractHeading. rewrite Hpre, Hidx.
  assert (Htotal : String.length (headingLine n attrs heading close)
                   = String.length p + String.length heading + 5).
  { rewrite Hline, !length_append. lia. }
  rewrite decide_True by lia.
  replace (3 + String.length attrs + 1) with (String.length p) by lia.
  replace (String.length (headingLine n attrs heading close) - 5 - String.length p)
    with (String.length heading) by lia.
  rewrite Hline, substring_middle.
  destruct (heading == "&#160;"); reflexivity.
Qed.

(** A chapter heading with a class attribute, and the sentinel. *)
Lemma extractHeading_headingLine_witness :
  extractHeading (headingLine "2" " class='x'" "Chapter One" "</h2>") = Ok "Chapter One"
  ∧ extractHeading (headingLine "1" "" "&#160;" "</h1>") = Ok "".
Proof.
  split.
  - apply (extractHeading_headingLine "2" " class='x'" "Chapter One" "</h2>");
      [compute_done | reflexivity | reflexivity].
  - apply (extractHeading_headingLine "1" "" "&#160;" "</h1>");
      [compute_done | reflexivity | reflexivity].
Defined.

(** X2. [extractHeading] stops with the heading panic exactly on the lines
    that do not start with [<h1], [<h2] or [<h3]; a heading it returns is
    never the sentinel and is at least five bytes shorter than the line. *)
Theorem extractHeading_results (line : string) :
  (extractHeading line
     = Err (Panic "epubgen: HTML line with one of the tags <h1>, <h2> or <h3> expected")
   ↔ HasPrefix line "<h1" || HasPrefix line "<h2" || HasPrefix line "<h3" = false)
  ∧ (∀ heading, extractHeading line = Ok heading →
       heading ≠ "&#160;" ∧ String.length heading + 5 ≤ String.length line).
Proof.
  unfold extractHeading.
  destruct (HasPrefix line "<h1" || HasPrefix line "<h2" || HasPrefix line "<h3").
  - split; [split; [|discriminate]|].
    + case_decide; [|discriminate]. destruct (_ == _); discriminate.
    + intros heading. case_decide as Hle; [|discriminate].
      set (pos := match Index line ">" with Some i => i + 1 | None => 0 end) in *.
      destruct (String.eqb_spec
                  (String.substring pos (String.length line - 5 - pos) line) "&#160;")
        as [Heq|Hne]; intros [= <-].
      * split; [discriminate|]. simpl. lia.
      * split; [assumption|].
        pose proof (substring_length pos (String.length line - 5 - pos) line). lia.
  - split; [split; reflexivity|]. intros heading [=].
Qed.

(** ** The lines of a section *)

(** X3. The loop that reads the lines of a section collects the current
    line, whatever it is, and the lines after it up to the next line that
    starts with the directive marker; it leaves the cursor on that marker
    line. *)
Theorem readSectionLines_run fuel acc b sectionLines b' :
  cursorOK b →
  readSectionLines fuel acc b = Ok (sectionLines, b') →
  lineIndex b < lineIndex b'
  ∧ sectionLines
      = acc ++ take (lineIndex b' - lineIndex b) (drop (lineIndex b) (lines b))
  ∧ HasPrefix (CurrLine b') "<!--" = true
  ∧ lines b !! lineIndex b' = Some (CurrLine b')
  ∧ ∀ i line, lineIndex b < i < lineIndex b' → lines b !! i = Some line →
              HasPrefix line "<!--" = false.
Proof.
  revert acc b. induction fuel as [|fuel IH]; intros acc b Hc H; [discriminate|].
  cbn [readSectionLines] in H.
  apply bind_Ok in H as (b1 & HN & H).
  pose proof (NextLine_Ok _ _ HN) as [Hb1 Hl1].
  assert (Hi1 : lineIndex b1 = S (lineIndex b)) by exact (f_equal lineIndex Hb1).
  assert (Hlines : lines b1 = lines b) by exact (f_equal lines Hb1).
  assert (Hdrop : drop (lineIndex b) (lines b)
                  = CurrLine b :: drop (S (lineIndex b)) (lines b))
    by (by apply drop_S).
  destruct (HasPrefix (CurrLine b1) "<!--") eqn:Hp.
  - injection H as <- <-. rewrite Hi1.
    split; [lia|]. split.
    + replace (S (lineIndex b) - lineIndex b) with 1 by lia. by rewrite Hdrop.
    + split; [assumption|]. split; [assumption|]. intros i line Hi. lia.
  - assert (Hc1 : cursorOK b1) by (unfold cursorOK; rewrite Hlines, Hi1; exact Hl1).
    destruct (IH _ _ Hc1 H) as (Hlt & Hls & Hpre & Hcur & Hbetween).
    rewrite Hi1, Hlines in *.
    split; [lia|]. split.
    + rewrite Hls, Hdrop, <- app_assoc. f_equal.
      replace (lineIndex b' - lineIndex b) with (S (lineIndex b' - S (lineIndex b)))
        by lia.
      reflexivity.
    + split; [assumption|]. split; [assumption|]. intros i line Hi Hlook.
      destruct (decide (i = S (lineIndex b))) as [->|Hne].
      * rewrite Hl1 in Hlook. injection Hlook as <-. exact Hp.
      * apply (Hbetween i line); [lia|assumption].
Qed.

(** The two text lines after a chapter heading. *)
Lemma readSectionLines_run_witness :
  lineIndex chapterBuffer < 4
  ∧ ["<h1>One</h1>"; "<p>a</p>"; "<p>b</p>"]
      = [] ++ take (4 - lineIndex chapterBuffer)
                   (drop (lineIndex chapterBuffer) (lines chapterBuffer))
  ∧ HasPrefix "<!--end-->" "<!--" = true
  ∧ lines chapterBuffer !! 4 = Some "<!--end-->"
  ∧ ∀ i line, lineIndex chapterBuffer < i < 4 → lines chapterBuffer !! i = Some line →
              HasPrefix line "<!--" = false.
Proof.
  apply (readSectionLines_run 6 [] chapterBuffer
           ["<h1>One</h1>"; "<p>a</p>"; "<p>b</p>"]
           (setCursor chapterBuffer 4 "<!--end-->")); reflexivity.
Defined.

(** ** Slices of the input lines *)

Lemma slice_nil {A} (l : list A) i : slice l i i = [].
Proof. unfold slice. by rewrite Nat.sub_diag. Qed.

Lemma slice_cons {A} (l : list A) i j x :
  l !! i = Some x → i < j → slice l i j = x :: slice l (S i) j.
Proof.
  intros Hx Hij. unfold slice. rewrite (drop_S _ _ _ Hx).
  replace (j - i) with (S (j - S i)) by lia. reflexivity.
Qed.

Lemma slice_app {A} (l : list A) i j k :
  i ≤ j → j ≤ k → slice l i k = slice l i j ++ slice l j k.
Proof.
  intros Hij Hjk. unfold slice.
  replace (k - i) with ((j - i) + (k - j)) by lia.
  rewrite <- take_take_drop, drop_drop. do 3 f_equal. lia.
Qed.

Lemma slice_lookup {A} (l : list A) i j k x :
  slice l i j !! k = Some x → l !! (i + k) = Some x ∧ i + k < j.
Proof.
  unfold slice. intros H. apply lookup_take_Some in H as [H Hk].
  rewrite lookup_drop in H. split; [assumption|lia].
Qed.

Lemma filter_none {A} (P : A → Prop) `{!∀ x, Decision (P x)} (l : list A) :
  Forall (λ x, ¬ P x) l → filter P l = [].
Proof.
  induction 1 as [|x l Hx _ IH]; [reflexivity|].
  rewrite filter_cons. by destruct (decide (P x)).
Qed.

Lemma filter_all {A} (P : A → Prop) `{!∀ x, Decision (P x)} (l : list A) :
  Forall P l → filter P l = l.
Proof.
  induction 1 as [|x l Hx _ IH]; [reflexivity|].
  rewrite filter_cons. destruct (decide (P x)); [by rewrite IH|contradiction].
Qed.

Lemma directivesIn_none lines0 i j :
  (∀ k line, i ≤ k < j → lines0 !! k = Some line → HasPrefix line "<!--" = false) →
  directivesIn lines0 i j = [].
Proof.
  intros Hnone. unfold directivesIn. apply filter_none, Forall_lookup.
  intros k line Hk. apply slice_lookup in Hk as [Hk Hlt].
  unfold isDirective. rewrite (Hnone (i + k) line) by (lia || assumption).
  discriminate.
Qed.

Lemma directivesIn_app lines0 i j k :
  i ≤ j → j ≤ k →
  directivesIn lines0 i k = directivesIn lines0 i j ++ directivesIn lines0 j k.
Proof.
  intros Hij Hjk. unfold directivesIn.
  by rewrite (slice_app _ i j k), filter_app.
Qed.

Lemma prefix_cons (c a : ascii) (p s : string) :
  String.prefix (String c p) (String a s) = Ascii.eqb c a && String.prefix p s.
Proof.
  cbn [String.prefix]. destruct (ascii_dec c a) as [->|Hne].
  - by rewrite Ascii.eqb_refl.
  - apply Ascii.eqb_neq in Hne. by rewrite Hne.
Qed.

(** A heading line is not a directive. *)
Lemma extractHeading_not_directive line heading :
  extractHeading line = Ok heading → HasPrefix line "<!--" = false.
Proof.
  unfold extractHeading, HasPrefix.
  destruct (_ || _) eqn:E; [intros _|discriminate].
  destruct line as [|a [|c line]]; [reflexivity| |].
  { rewrite !prefix_cons in E. cbn [String.prefix] in E.
    rewrite !andb_false_r in E. discriminate. }
  rewrite !prefix_cons in E. rewrite !prefix_cons.
  destruct (Ascii.eqb_spec "<" a) as [<-|]; [|reflexivity].
  destruct (Ascii.eqb_spec "h" c) as [<-|]; [reflexivity|discriminate].
Qed.

(** ** What one section consumes *)

(** The lines read into a section are not directives, and the section
    ends at a directive. *)
Lemma readSectionLines_between fuel acc b r :
  readSectionLines fuel acc b = Ok r →
  moved b r.2
  ∧ HasPrefix (CurrLine r.2) "<!--" = true
  ∧ ∀ k line, lineIndex b < k < lineIndex r.2 → lines b !! k = Some line →
              HasPrefix line "<!--" = false.
Proof.
  revert acc b. induction fuel as [|fuel IH]; intros acc b H; [discriminate|].
  cbn [readSectionLines] in H.
  apply bind_Ok in H as (b1 & HN & H).
  pose proof (NextLine_moved _ _ HN) as Hm1.
  pose proof (NextLine_Ok _ _ HN) as [Hb1 Hl1].
  assert (Hi1 : lineIndex b1 = S (lineIndex b)) by exact (f_equal lineIndex Hb1).
  assert (Hlines : lines b1 = lines b) by exact (f_equal lines Hb1).
  destruct (HasPrefix (CurrLine b1) "<!--") eqn:Hp.
  - injection H as <-. simpl. split; [assumption|]. split; [assumption|].
    intros k line Hk. lia.
  - destruct (IH _ _ H) as (Hm & Hpre & Hbetween).
    split; [eapply moved_trans; eassumption|]. split; [assumption|].
    intros k line Hk Hlook. rewrite Hi1, Hlines in Hbetween.
    destruct (decide (k = S (lineIndex b))) as [->|Hne].
    + rewrite Hl1 in Hlook. injection Hlook as <-. exact Hp.
    + apply (Hbetween k line); [lia|assumption].
Qed.

Lemma directivesIn_one lines0 i line :
  lines0 !! i = Some line → HasPrefix line "<!--" = true →
  directivesIn lines0 i (S i) = [line].
Proof.
  intros Hl Hp. unfold directivesIn.
  rewrite (slice_cons _ _ _ _ Hl) by lia. rewrite slice_nil, filter_cons.
  by rewrite decide_True.
Qed.

Lemma directiveOf_isDirective kind : HasPrefix (directiveOf kind) "<!--" = true.
Proof. apply prefix_append. Qed.

Lemma grew_refl b : cursorOK b → grew b b [] [].
Proof.
  intros Hc. split; rewrite ?app_nil_r; simpl; auto.
  unfold directivesIn. by rewrite slice_nil.
Qed.

Lemma grew_trans b1 b2 b3 a1 g1 a2 g2 :
  grew b1 b2 a1 g1 → grew b2 b3 a2 g2 → grew b1 b3 (a1 ++ a2) (g1 ++ g2).
Proof.
  intros [Hl1 Ha1 Hc1 Hi1 Hs1 Hg1 Hn1 Hx1 Hk1 Hd1] [Hl2 Ha2 Hc2 Hi2 Hs2 Hg2 Hn2 Hx2 Hk2 Hd2].
  split; try congruence.
  - by rewrite Hs2, Hs1, app_assoc.
  - by rewrite Hg2, Hg1, app_assoc.
  - rewrite length_app. lia.
  - lia.
  - rewrite (directivesIn_app _ _ (lineIndex b2)) by assumption.
    rewrite Hl1 in Hd2. by rewrite Hd1, Hd2, !fmap_app.
Qed.

(** The common part of the cases of the three loops: the directive line,
    the heading line and the lines of the section are consumed. *)
Lemma builderCase_grew b b1 kind heading0 heading b2 :
  cursorOK b →
  CurrLine b = directiveOf kind →
  NextLine b = Ok b1 →
  extractHeading (CurrLine b1) = Ok heading0 →
  GenFrontMatterSection
    (AddSection (NewSectionData b1 kind heading).2 (NewSectionData b1 kind heading).1)
    (NewSectionData b1 kind heading).1 = Ok b2 →
  grew b b2 [mkSection (Sprintf_section03d (S (currSectionNo b))) kind heading] [].
Proof.
  intros Hc Hd HN HH HG.
  pose proof (NextLine_Ok _ _ HN) as [Hb1 Hl1].
  unfold GenFrontMatterSection in HG.
  apply bind_Ok in HG as ([ls b3] & HR & HG). injection HG as ->.
  apply readSectionLines_between in HR as (Hm & Hpre & Hbetween).
  simpl in Hm, Hpre, Hbetween.
  destruct Hm as (j & m & -> & Hm & Hj).
  rewrite Hb1 in Hm, Hj, Hbetween |- *. simpl in *.
  split; simpl; rewrite ?app_nil_r; auto; try lia.
  rewrite (directivesIn_app _ _ (S (lineIndex b))) by lia.
  rewrite (directivesIn_one _ _ _ Hc) by (rewrite Hd; apply directiveOf_isDirective).
  rewrite directivesIn_none; [by rewrite Hd|].
  intros k line Hk Hlook.
  destruct (decide (k = S (lineIndex b))) as [->|Hne].
  - rewrite Hl1 in Hlook. injection Hlook as <-.
    eapply extractHeading_not_directive, HH.
  - apply (Hbetween k line); [lia|assumption].
Qed.

Lemma frontMatterCase_grew kind label b b' :
  cursorOK b → CurrLine b = directiveOf kind →
  frontMatterCase kind label b = Ok b' →
  ∃ section, EpubType section = kind ∧ grew b b' [section] [].
Proof.
  unfold frontMatterCase. intros Hc Hd H.
  apply bind_Ok in H as (b1 & HN & H). apply bind_Ok in H as (h & HH & H).
  cbv zeta in H. eexists. split; [|exact (builderCase_grew _ _ _ _ _ _ Hc Hd HN HH H)].
  reflexivity.
Qed.

Lemma grew_guide b b' section :
  grew b b' [section] [] → grew b (AddGuide b' section) [section] [section].
Proof.
  intros [Hl Ha Hci Hi Hs Hg Hn Hx Hk Hd]. split; simpl; auto.
  rewrite app_nil_r in Hg. by rewrite Hg.
Qed.

Lemma bodyMatterCase_grew kind first b first' b' :
  cursorOK b → CurrLine b = directiveOf kind →
  bodyMatterCase kind first b = Ok (first', b') →
  ∃ section, EpubType section = kind
             ∧ grew b b' [section] (if first then [section] else [])
             ∧ first' = false.
Proof.
  unfold bodyMatterCase. intros Hc Hd H.
  apply bind_Ok in H as (b1 & HN & H). apply bind_Ok in H as (h & HH & H).
  cbv zeta in H. apply bind_Ok in H as (b2 & HG & H).
  pose proof (builderCase_grew _ _ _ _ _ _ Hc Hd HN HH HG) as Hg.
  rewrite (moved_currSectionNo _ _ (NextLine_moved _ _ HN)) in H.
  eexists. split; [|split; [|destruct first; by injection H as <- <-]].
  2:{ destruct first; injection H as <- <-; [by apply grew_guide|exact Hg]. }
  reflexivity.
Qed.

Lemma backMatterCase_grew kind label first b first' b' :
  cursorOK b → CurrLine b = directiveOf kind →
  backMatterCase kind label first b = Ok (first', b') →
  ∃ section, EpubType section = kind
             ∧ grew b b' [section] (if first then [section] else [])
             ∧ first' = false.
Proof.
  unfold backMatterCase. intros Hc Hd H.
  apply bind_Ok in H as (b1 & HN & H). apply bind_Ok in H as (h & HH & H).
  cbv zeta in H. apply bind_Ok in H as (b2 & HG & H).
  pose proof (builderCase_grew _ _ _ _ _ _ Hc Hd HN HH HG) as Hg.
  rewrite (moved_currSectionNo _ _ (NextLine_moved _ _ HN)) in H.
  eexists. split; [|split; [|destruct first; by injection H as <- <-]].
  2:{ destruct first; injection H as <- <-; [by apply grew_guide|exact Hg]. }
  reflexivity.
Qed.

(** ** What the three loops build *)

Lemma loop1_grew fuel g b b' :
  cursorOK b →
  loop1 fuel g b = Ok b' →
  ∃ added, grew b b' added []
           ∧ Forall (λ s, EpubType s ∈ frontKinds) added.
Proof.
  revert g b. induction fuel as [|fuel IH]; intros g b Hc H; [discriminate|].
  cbn [loop1] in H.
  repeat (switch_CurrLine b H; [
    try (match type of H with context [if ?f g then _ else _] =>
           destruct (f g); [discriminate|] end);
    match type of H with context [frontMatterCase ?k ?l b] =>
      let E := fresh "E" in
      destruct (frontMatterCase k l b) as [b1|e] eqn:E; simpl in H; [|discriminate];
      apply (frontMatterCase_grew k l b b1 Hc Hd) in E as (sec & Hk & Hg);
      destruct (IH _ _ (grew_cursorOK _ _ _ _ Hg) H) as (added & Hg' & Hkinds);
      exists ([sec] ++ added);
      split; [exact (grew_trans _ _ _ _ _ _ _ Hg Hg')|];
      constructor; [rewrite Hk; compute_done|assumption]
    end | ]).
  injection H as <-. exists []. split; [by apply grew_refl|constructor].
Qed.

Lemma loop2_grew fuel first b first' b' :
  cursorOK b →
  loop2 fuel first b = Ok (first', b') →
  ∃ added, grew b b' added (if first then take 1 added else [])
           ∧ Forall (λ s, EpubType s ∈ bodyKinds) added
           ∧ first' = first && bool_decide (added = []).
Proof.
  revert first b. induction fuel as [|fuel IH]; intros first b Hc H; [discriminate|].
  cbn [loop2] in H.
  repeat (switch_CurrLine b H; [
    match type of H with context [bodyMatterCase ?k first b] =>
      let E := fresh "E" in
      destruct (bodyMatterCase k first b) as [[f1 b1]|e] eqn:E; simpl in H; [|discriminate];
      apply (bodyMatterCase_grew k first b f1 b1 Hc Hd) in E as (sec & Hk & Hg & ->);
      destruct (IH _ _ (grew_cursorOK _ _ _ _ Hg) H) as (added & Hg' & Hkinds & ->);
      exists ([sec] ++ added);
      split; [|split; [constructor; [rewrite Hk; compute_done|assumption]|]];
      [ pose proof (grew_trans _ _ _ _ _ _ _ Hg Hg') as Hgg;
        destruct first; simpl in Hgg |- *; rewrite ?app_nil_r in Hgg; exact Hgg
      | by rewrite andb_false_r ]
    end | ]).
  injection H as <- <-. exists []. split; [|split; [constructor|]].
  - destruct first; by apply grew_refl.
  - by rewrite andb_true_r.
Qed.

Lemma loop3_grew fuel g b b' :
  cursorOK b →
  loop3 fuel g b = Ok b' →
  ∃ added, grew b b' added (if firstBackmatter g then take 1 added else [])
           ∧ Forall (λ s, EpubType s ∈ backKinds) added.
Proof.
  revert g b. induction fuel as [|fuel IH]; intros g b Hc H; [discriminate|].
  cbn [loop3] in H.
  repeat (switch_CurrLine b H; [
    try (match type of H with context [if ?f g then _ else _] =>
           destruct (f g); [discriminate|] end);
    match type of H with
    | context [backMatterCase ?k ?l ?fb b] =>
      let E := fresh "E" in
      destruct (backMatterCase k l fb b) as [[f1 b1]|e] eqn:E; simpl in H; [|discriminate];
      apply (backMatterCase_grew k l fb b f1 b1 Hc Hd) in E as (sec & Hk & Hg & ->);
      destruct (IH _ _ (grew_cursorOK _ _ _ _ Hg) H) as (added & Hg' & Hkinds);
      exists ([sec] ++ added);
      split; [|constructor; [rewrite Hk; compute_done|assumption]];
      pose proof (grew_trans _ _ _ _ _ _ _ Hg Hg') as Hgg;
      destruct (firstBackmatter g); simpl in Hgg |- *; rewrite ?app_nil_r in Hgg;
      exact Hgg
    | _ =>
      injection H as <-; exists []; split; [|constructor];
      destruct (firstBackmatter g); by apply grew_refl
    end | ]).
  discriminate.
Qed.

(** ** From the first line to the first directive *)

Lemma skipTo_first fuel marker b b' :
  skipTo fuel marker b = Ok b' →
  moved b b' ∧ firstAfter (lines b) marker (lineIndex b) (lineIndex b').
Proof.
  revert b. induction fuel as [|fuel IH]; intros b H; [discriminate|].
  cbn [skipTo] in H. apply bind_Ok in H as (b1 & HN & H).
  pose proof (NextLine_moved _ _ HN) as Hm1.
  pose proof (NextLine_Ok _ _ HN) as [Hb1 Hl1].
  assert (Hi1 : lineIndex b1 = S (lineIndex b)) by exact (f_equal lineIndex Hb1).
  assert (Hlines : lines b1 = lines b) by exact (f_equal lines Hb1).
  destruct (String.eqb_spec (CurrLine b1) marker) as [Heq|Hne].
  - injection H as <-. split; [assumption|]. rewrite Hi1.
    split; [lia|]. split; [by rewrite <- Heq|]. intros k Hk. lia.
  - destruct (IH _ H) as (Hm & Hlt & Hat & Hbefore).
    rewrite Hi1, Hlines in *.
    split; [eapply moved_trans; eassumption|].
    split; [lia|]. split; [assumption|]. intros k Hk.
    destruct (decide (k = S (lineIndex b))) as [->|Hk'].
    + rewrite Hl1. congruence.
    + apply Hbefore. lia.
Qed.

Lemma loadMeta_setAttributes b b' :
  loadMeta b = Ok b' → b' = setAttributes b (attributes b').
Proof.
  unfold loadMeta.
  destruct (Index (CurrLine b) "name=") as [i|]; [|intros [= <-]; by destruct b].
  destruct (sliceFrom _ _) as [name|]; simpl; [|discriminate].
  destruct (Index name dquote) as [j|]; [|discriminate].
  destruct (Index (CurrLine b) "content=") as [k|]; [|discriminate].
  destruct (sliceFrom _ _) as [content|]; simpl; [|discriminate].
  destruct (Index content dquote) as [m|]; [|discriminate].
  destruct (negb _); intros [= <-]; [reflexivity|by destruct b].
Qed.

Lemma LoadAttributesLoop_first fuel b b' :
  LoadAttributesLoop fuel b = Ok b' →
  firstAfter (lines b) "</head>" (lineIndex b) (lineIndex b')
  ∧ cursorOK b' ∧ lines b' = lines b
  ∧ coverImage b' = coverImage b ∧ images b' = images b.
Proof.
  revert b. induction fuel as [|fuel IH]; intros b H; [discriminate|].
  cbn [LoadAttributesLoop] in H. apply bind_Ok in H as (b1 & HN & H).
  pose proof (NextLine_moved _ _ HN) as Hm1.
  pose proof (NextLine_Ok _ _ HN) as [Hb1 Hl1].
  assert (Hi1 : lineIndex b1 = S (lineIndex b)) by exact (f_equal lineIndex Hb1).
  assert (Hlines : lines b1 = lines b) by exact (f_equal lines Hb1).
  assert (Hcover : coverImage b1 = coverImage b) by exact (f_equal coverImage Hb1).
  assert (Himages : images b1 = images b) by exact (f_equal images Hb1).
  destruct (String.eqb_spec (CurrLine b1) "</head>") as [Heq|Hne].
  { injection H as <-. rewrite Hi1.
    split; [|by eauto using moved_cursorOK].
    split; [lia|]. split; [by rewrite <- Heq|]. intros k Hk. lia. }
  assert (Hstep : ∀ b2, lineIndex b2 = lineIndex b1 → lines b2 = lines b1 →
            coverImage b2 = coverImage b1 → images b2 = images b1 →
            LoadAttributesLoop fuel b2 = Ok b' →
            firstAfter (lines b) "</head>" (lineIndex b) (lineIndex b')
            ∧ cursorOK b' ∧ lines b' = lines b
            ∧ coverImage b' = coverImage b ∧ images b' = images b).
  { intros b2 Hi2 Hl2 Hc2 Him2 H2.
    destruct (IH _ H2) as ((Hlt & Hat & Hbefore) & Hc & Hl & Hci & Him).
    rewrite Hi2, Hi1, Hl2, Hlines in *.
    split; [|repeat split; congruence].
    split; [lia|]. split; [assumption|]. intros k Hk.
    destruct (decide (k = S (lineIndex b))) as [->|Hk'].
    - rewrite Hl1. congruence.
    - apply Hbefore. lia. }
  destruct (HasPrefix (CurrLine b1) "<meta").
  - apply bind_Ok in H as (b2 & HM & H).
    apply loadMeta_setAttributes in HM.
    apply (Hstep b2);
      [exact (f_equal lineIndex HM)|exact (f_equal lines HM)
      |exact (f_equal coverImage HM)|exact (f_equal images HM)|exact H].
  - by apply (Hstep b1).
Qed.

Lemma requireAttribute_Ok b key u :
  requireAttribute b key = Ok u → GetAttribute b key ≠ "".
Proof.
  unfold requireAttribute. destruct (String.eqb_spec (GetAttribute b key) ""); by intros.
Qed.

Lemma checkRequiredAttributes_Ok b u :
  checkRequiredAttributes b = Ok u →
  GetAttribute b "version" = "epub3"
  ∧ Forall (λ key, GetAttribute b key ≠ "") requiredKeys.
Proof.
  unfold checkRequiredAttributes. intros H.
  apply bind_Ok in H as (? & Hv & H).
  repeat (let Hk := fresh "Hk" in
          apply bind_Ok in H as (? & Hk & H); apply requireAttribute_Ok in Hk).
  apply requireAttribute_Ok in H.
  split; [|by repeat constructor].
  destruct (negb (GetAttribute b "version" == "")); [|discriminate].
  destruct (String.eqb_spec (GetAttribute b "version") "epub3"); [assumption|discriminate].
Qed.

Lemma acceptedMediaType_cases mediaType :
  acceptedMediaType mediaType = true ↔ mediaType = "png" ∨ mediaType = "jpeg".
Proof.
  unfold acceptedMediaType.
  destruct (String.eqb_spec mediaType "png"), (String.eqb_spec mediaType "jpeg");
    simpl; split; auto; try discriminate; intros [?|?]; congruence.
Qed.

Lemma CheckCoverImage_Ok b b' :
  CheckCoverImage b = Ok b' →
  GetAttribute b "cover-image" ≠ ""
  ∧ acceptedMediaType (mediaTypeOf (GetAttribute b "cover-image")) = true
  ∧ b' = setCoverImage b (mkImage (GetAttribute b "cover-image")
                                  (mediaTypeOf (GetAttribute b "cover-image"))).
Proof.
  unfold CheckCoverImage, mediaTypeOf, acceptedMediaType. cbv zeta.
  destruct (String.eqb_spec (GetAttribute b "cover-image") ""); [discriminate|].
  destruct (Cut _ _) as [[before mediaType] found]. simpl.
  destruct (negb (mediaType == "png") && negb (mediaType == "jpeg"));
    [discriminate|]. by intros [= <-].
Qed.

Lemma checkImageFilesLoop_Ok files imgs imgs' :
  checkImageFilesLoop files imgs = Ok imgs' →
  Forall (λ f, acceptedMediaType (mediaTypeOf f) = true) files
  ∧ ∀ f, imgs' !! f = if decide (f ∈ files) then Some (mkImage f (mediaTypeOf f))
                      else imgs !! f.
Proof.
  revert imgs. induction files as [|file files IH]; intros imgs H.
  - injection H as <-. split; [constructor|]. intros f.
    by rewrite decide_False by apply not_elem_of_nil.
  - cbn [checkImageFilesLoop] in H.
    assert (Hmt : mediaTypeOf file = (Cut file ".").1.2) by reflexivity.
    destruct (Cut file ".") as [[before mediaType] found]. simpl in Hmt.
    destruct (negb (mediaType == "png") && negb (mediaType == "jpeg")) eqn:Em;
      [discriminate|].
    destruct (IH _ H) as [Hall Hlook]. split.
    + constructor; [|assumption]. unfold acceptedMediaType. by rewrite Hmt, Em.
    + intros f. rewrite Hlook.
      destruct (decide (f ∈ files)) as [Hin|Hin].
      * by rewrite decide_True by (by apply list_elem_of_further).
      * destruct (decide (f = file)) as [->|Hne].
        -- rewrite decide_True by apply list_elem_of_here.
           by rewrite lookup_insert_eq, Hmt.
        -- rewrite lookup_insert_ne by congruence.
           rewrite decide_False; [reflexivity|].
           intros Hc. apply elem_of_cons in Hc as [?|?]; contradiction.
Qed.

Lemma CheckImageFiles_Ok b b' :
  CheckImageFiles b = Ok b' →
  images b = ∅ →
  ∃ imgs, b' = setImages b imgs
  ∧ (GetAttribute b "images" ≠ "" →
     Forall (λ f, acceptedMediaType (mediaTypeOf f) = true)
            (Split (GetAttribute b "images") ","))
  ∧ (∀ f, imgs !! f =
          if decide (GetAttribute b "images" ≠ "" ∧ f ∈ Split (GetAttribute b "images") ",")
          then Some (mkImage f (mediaTypeOf f)) else None).
Proof.
  unfold CheckImageFiles. cbv zeta. intros H Hempty.
  destruct (String.eqb_spec (GetAttribute b "images") "") as [Heq|Hne].
  - injection H as <-. exists (images b). split; [by destruct b|].
    split; [intros Hne; contradiction|].
    intros f. rewrite decide_False by (intros [? _]; contradiction).
    by rewrite Hempty, lookup_empty.
  - apply bind_Ok in H as (imgs & HL & H). injection H as <-.
    apply checkImageFilesLoop_Ok in HL as [Hall Hlook].
    exists imgs. split; [reflexivity|]. split; [auto|]. intros f. rewrite Hlook.
    destruct (decide (f ∈ Split (GetAttribute b "images") ",")) as [Hin|Hin].
    + by rewrite decide_True.
    + rewrite decide_False by (intros [_ ?]; contradiction). apply lookup_empty.
Qed.

Lemma header_run currTimeStamp lines0 b :
  header currTimeStamp lines0 = Ok b →
  ∃ h e d loaded, headerRun currTimeStamp lines0 h e d loaded b.
Proof.
  unfold header. intros H. cbv zeta in H.
  apply bind_Ok in H as (b1 & E1 & H).
  apply skipTo_first in E1 as (M1 & F1). simpl in F1.
  apply bind_Ok in H as (b2 & E2 & H).
  pose proof (LoadAttributesLoop_sameBook _ _ _ E2) as [(_ & S2 & G2 & N2) _].
  apply LoadAttributesLoop_first in E2 as (F2 & _ & L2 & C2 & I2).
  destruct M1 as (i1 & l1 & -> & _ & _). simpl in F1, F2, L2, C2, I2, S2, G2, N2.
  apply bind_Ok in H as (u & E3 & H).
  apply checkRequiredAttributes_Ok in E3 as (Hv & Hreq).
  apply bind_Ok in H as (b3 & E4 & H).
  apply CheckCoverImage_Ok in E4 as (Hcover & Hctype & ->).
  apply bind_Ok in H as (b4 & E5 & H).
  apply CheckImageFiles_Ok in E5 as (imgs & -> & Hitypes & Himages); [|exact I2].
  apply bind_Ok in H as (b6 & E6 & E7).
  match type of E6 with skipTo _ _ ?x = _ => remember x as b5 eqn:E5 end.
  assert (H5 : lines b5 = lines0 ∧ lineIndex b5 = lineIndex b2 ∧ sections b5 = []
               ∧ guides b5 = [] ∧ currSectionNo b5 = 0
               ∧ attributes b5 = stamped currTimeStamp (attributes b2)
               ∧ coverImage b5 = mkImage (GetAttribute b2 "cover-image")
                                         (mediaTypeOf (GetAttribute b2 "cover-image"))
               ∧ images b5 = imgs).
  { subst b5. unfold stamped, GetAttribute. simpl.
    destruct (default "" (attributes b2 !! "created") == ""); simpl; by repeat split. }
  clear E5. destruct H5 as (L5 & I5 & S5 & G5 & N5 & A5 & C5 & Im5).
  apply skipTo_first in E6 as (M6 & F6). rewrite L5, I5 in F6.
  pose proof (NextLine_Ok _ _ E7) as [Hb7 Hl7].
  destruct M6 as (i6 & l6 & -> & _ & _). simpl in F6, Hb7, Hl7.
  exists i1, (lineIndex b2), i6, (attributes b2).
  rewrite Hb7. rewrite L5 in Hl7. split; simpl; try assumption; try reflexivity.
  - unfold cursorOK. simpl. by rewrite L5.
  - intros f. rewrite Im5. apply Himages.
Qed.

(** ** The three fixed sections *)

(** The title page: a custom one consumes its directive and its lines,
    the others leave the cursor where it is. *)
Lemma GenTitlePageSection_run b b' :
  GenTitlePageSection b = Ok b' →
  lines b' = lines b ∧ attributes b' = attributes b ∧ coverImage b' = coverImage b
  ∧ images b' = images b ∧ currSectionNo b' = currSectionNo b
  ∧ sections b' = sections b ++ [titlepageSection]
  ∧ guides b' = guides b ++ [titlepageSection]
  ∧ (titlePageOf b ≠ "custom" → lineIndex b' = lineIndex b ∧ CurrLine b' = CurrLine b)
  ∧ (titlePageOf b = "custom" →
     lines b !! S (lineIndex b) = Some "<!--titlepage-->"
     ∧ S (S (lineIndex b)) < lineIndex b'
     ∧ cursorOK b'
     ∧ HasPrefix (CurrLine b') "<!--" = true
     ∧ noDirective (lines b) (S (S (lineIndex b))) (lineIndex b'))
  ∧ (titlePageOf b ≠ "custom" → titlePageOf b ≠ "default" →
     ∃ mediaType, Split (titlePageOf b) "." !! 1 = Some mediaType
                  ∧ acceptedMediaType mediaType = true).
Proof.
  unfold GenTitlePageSection. fold (titlePageOf b). intros H. cbv zeta in H.
  destruct (String.eqb_spec (titlePageOf b) "default") as [Hd|Hd].
  { injection H as <-. simpl. repeat split; auto; try congruence.
    all: rewrite Hd; discriminate. }
  destruct (String.eqb_spec (titlePageOf b) "custom") as [Hc|Hc].
  - apply bind_Ok in H as (b1 & E1 & H).
    pose proof (NextLine_Ok _ _ E1) as [Hb1 Hl1]. simpl in Hb1, Hl1.
    destruct (String.eqb_spec (CurrLine b1) "<!--titlepage-->") as [Ht|]; [|discriminate].
    apply bind_Ok in H as (b2 & E2 & H).
    pose proof (NextLine_Ok _ _ E2) as [Hb2 Hl2].
    rewrite Hb1 in Hb2, Hl2. simpl in Hb2, Hl2.
    unfold GenFrontMatterSection in H.
    apply bind_Ok in H as ([ls b3] & HR & H). injection H as ->.
    apply readSectionLines_between in HR as (Hm & Hpre & Hbetween).
    simpl in Hm, Hpre, Hbetween.
    pose proof (moved_cursorOK _ _ Hm) as Hcur.
    destruct Hm as (j & m & -> & Hm & Hj).
    rewrite Hb2 in Hm, Hj, Hbetween, Hcur |- *. simpl in *.
    repeat split; auto; try contradiction.
    rewrite <- Ht. exact Hl1.
  - destruct (Split (titlePageOf b) "." !! 1) as [mt|] eqn:Emt; [|discriminate].
    destruct (negb (mt == "png") && negb (mt == "jpeg")) eqn:Ea; [discriminate|].
    injection H as <-. simpl. repeat split; auto; try contradiction.
    intros _ _. exists mt. split; [reflexivity|].
    unfold acceptedMediaType. by rewrite Ea.
Qed.

Lemma GenCopyrightSection_run b currDate b' :
  GenCopyrightSection b currDate = Ok b' →
  CurrLine b = "<!--copyright-->"
  ∧ lines b' = lines b ∧ attributes b' = attributes b ∧ coverImage b' = coverImage b
  ∧ images b' = images b ∧ currSectionNo b' = currSectionNo b
  ∧ sections b' = sections b ++ [copyrightSection]
  ∧ guides b' = guides b
  ∧ S (lineIndex b) < lineIndex b'
  ∧ cursorOK b'
  ∧ HasPrefix (CurrLine b') "<!--" = true
  ∧ noDirective (lines b) (S (lineIndex b)) (lineIndex b').
Proof.
  unfold GenCopyrightSection. intros H.
  destruct (String.eqb_spec (CurrLine b) "<!--copyright-->") as [Hc|]; [|discriminate].
  cbn [negb] in H. apply bind_Ok in H as (b1 & E1 & H). cbv zeta in H.
  pose proof (NextLine_Ok _ _ E1) as [Hb1 Hl1].
  apply bind_Ok in H as ([ls b3] & HR & H). injection H as ->.
  apply readSectionLines_between in HR as (Hm & Hpre & Hbetween).
  simpl in Hm, Hpre, Hbetween.
  pose proof (moved_cursorOK _ _ Hm) as Hcur.
  destruct Hm as (j & m & -> & Hm & Hj).
  rewrite Hb1 in Hm, Hj, Hbetween, Hcur |- *. simpl in *.
  repeat split; auto.
Qed.

Lemma fixedSections_run currTimeStamp b b' :
  fixedSections currTimeStamp b = Ok b' → cursorOK b →
  10 ≤ String.length currTimeStamp ∧ ∃ k, fixedRun b b' k.
Proof.
  unfold fixedSections. intros H Hcur. cbv zeta in H.
  apply bind_Ok in H as (b1 & E1 & H).
  apply GenTitlePageSection_run in E1
    as (L1 & A1 & C1 & I1 & N1 & S1 & G1 & Hother & Hcustom & _).
  change (titlePageOf (GenCoverSection b)) with (titlePageOf b) in Hother, Hcustom.
  simpl in L1, A1, C1, I1, N1, S1, G1, Hother, Hcustom.
  apply bind_Ok in H as (currDate & Hdate & H).
  assert (Hlen : 10 ≤ String.length currTimeStamp) by (by case_decide).
  split; [exact Hlen|].
  apply GenCopyrightSection_run in H
    as (Hc & L2 & A2 & C2 & I2 & N2 & S2 & G2 & Hlt & Hcur2 & Hpre & Hbetween).
  exists (lineIndex b1).
  assert (Hat : lines b !! lineIndex b1 = Some "<!--copyright-->"
                ∧ lineIndex b ≤ lineIndex b1
                ∧ (titlePageOf b ≠ "custom" → lineIndex b1 = lineIndex b)
                ∧ (titlePageOf b = "custom" →
                   lines b !! S (lineIndex b) = Some "<!--titlepage-->"
                   ∧ S (S (lineIndex b)) < lineIndex b1
                   ∧ noDirective (lines b) (S (S (lineIndex b))) (lineIndex b1))).
  { destruct (decide (titlePageOf b = "custom")) as [Ht|Ht].
    - destruct (Hcustom Ht) as (Htl & Hlt1 & Hcur1 & _ & Hbetween1).
      unfold cursorOK in Hcur1. rewrite L1, Hc in Hcur1.
      split; [assumption|]. split; [lia|]. split; [contradiction|]. auto.
    - destruct (Hother Ht) as [Hi Hl]. rewrite Hi. unfold cursorOK in Hcur.
      split; [by rewrite Hcur, <- Hl, Hc|]. split; [lia|]. split; [reflexivity|].
      contradiction. }
  destruct Hat as (Hat & Hfrom & Htp & Hct).
  rewrite L1 in Hbetween, L2.
  split; try congruence; try assumption.
  - rewrite S2, S1, <- !app_assoc. reflexivity.
  - rewrite G2, G1, <- !app_assoc. reflexivity.
Qed.

(** ** The whole parser *)

Lemma parse_run currTimeStamp lines0 b :
  parse currTimeStamp lines0 = Ok b →
  ∃ b0 k c front body back,
    header currTimeStamp lines0 = Ok b0
    ∧ parseRun currTimeStamp lines0 b0 k c front body back b.
Proof.
  unfold parse. intros H.
  apply bind_Ok in H as (b0 & E0 & H).
  destruct (header_run _ _ _ E0) as (h & e & d & loaded & HR).
  destruct HR as [_ _ _ Hi0 Hc0 Hl0 Hs0 Hg0 Hn0 _ _ _ _ _ _ _ _].
  apply bind_Ok in H as (b1 & E1 & H).
  apply fixedSections_run in E1 as (Hlen & k & F); [|exact Hc0].
  destruct F as [L1 A1 C1 I1 S1 G1 N1 Hc1 Hp1 Hk Hfrom Hto Hbetween Htp Hct].
  rewrite Hs0 in S1. rewrite Hg0 in G1. rewrite Hn0 in N1. rewrite Hl0 in *.
  simpl in S1, G1.
  unfold directiveLoops in H.
  apply bind_Ok in H as (b2 & E2 & H).
  apply loop1_grew in E2 as (front & G2 & Hfront); [|exact Hc1].
  apply bind_Ok in H as ([first b3] & E3 & H).
  apply loop2_grew in E3 as (body & G3 & Hbody & Hfirst);
    [|exact (grew_cursorOK _ _ _ _ G2)].
  simpl in Hfirst. destruct first; [discriminate|].
  pose proof (loop3_ends _ _ _ _ H) as Hend.
  apply loop3_grew in H as (back & G4 & Hback);
    [|exact (grew_cursorOK _ _ _ _ G3)].
  simpl in G3, G4.
  pose proof (grew_trans _ _ _ _ _ _ _ G2 (grew_trans _ _ _ _ _ _ _ G3 G4)) as G.
  destruct G as [L A C I Hsec Hgui Hno Hle Hcur Hdir].
  exists b0, k, (lineIndex b1), front, body, back. split; [exact E0|].
  split; try congruence; try assumption.
  - by rewrite Hgui, G1.
  - by rewrite Hno, N1.
  - intros ->. by rewrite bool_decide_eq_true_2 in Hfirst.
  - lia.
Qed.

(** ** Accepted documents *)

Lemma ofKinds_app kinds (l1 l2 : list SectionData) :
  ofKinds kinds (l1 ++ l2) = ofKinds kinds l1 ++ ofKinds kinds l2.
Proof. apply filter_app. Qed.

Lemma ofKinds_same kinds (l : list SectionData) :
  Forall (λ s, EpubType s ∈ kinds) l → ofKinds kinds l = l.
Proof. apply filter_all. Qed.

Lemma ofKinds_other kinds others (l : list SectionData) :
  Forall (λ k, k ∉ kinds) others →
  Forall (λ s, EpubType s ∈ others) l → ofKinds kinds l = [].
Proof.
  intros Hapart Hl. apply filter_none. eapply Forall_impl; [exact Hl|].
  intros s Hs. by apply (kinds_apart others kinds).
Qed.

(** The three groups can be read back from the section sequence. *)
Lemma groups_ofKinds (front body back : list SectionData) :
  Forall (λ s, EpubType s ∈ frontKinds) front →
  Forall (λ s, EpubType s ∈ bodyKinds) body →
  Forall (λ s, EpubType s ∈ backKinds) back →
  ofKinds frontKinds (fixedThree ++ front ++ body ++ back) = front
  ∧ ofKinds bodyKinds (fixedThree ++ front ++ body ++ back) = body
  ∧ ofKinds backKinds (fixedThree ++ front ++ body ++ back) = back.
Proof.
  intros Hf Hb Hk. rewrite !ofKinds_app.
  rewrite (ofKinds_same _ front Hf), (ofKinds_same _ body Hb), (ofKinds_same _ back Hk).
  rewrite (ofKinds_other frontKinds fixedKinds fixedThree),
          (ofKinds_other frontKinds bodyKinds body),
          (ofKinds_other frontKinds backKinds back),
          (ofKinds_other bodyKinds fixedKinds fixedThree),
          (ofKinds_other bodyKinds frontKinds front),
          (ofKinds_other bodyKinds backKinds back),
          (ofKinds_other backKinds fixedKinds fixedThree),
          (ofKinds_other backKinds frontKinds front),
          (ofKinds_other backKinds bodyKinds body);
    try assumption; try apply fixedThree_kinds;
    try (repeat constructor; compute_done).
  by rewrite !app_nil_r.
Qed.

(** X4. In an accepted document the sections come in groups: the cover,
    title-page and copyright sections, then the front-matter sections, then
    at least one part or chapter, then the back-matter sections; the
    running number counts the sections after the first three. *)
Theorem parse_section_groups currTimeStamp lines0 b :
  parse currTimeStamp lines0 = Ok b →
  sections b = fixedThree ++ ofKinds frontKinds (sections b)
                 ++ ofKinds bodyKinds (sections b) ++ ofKinds backKinds (sections b)
  ∧ ofKinds bodyKinds (sections b) ≠ []
  ∧ length (sections b) = 3 + currSectionNo b.
Proof.
  intros H. apply parse_run in H as (b0 & k & c & front & body & back & _ & R).
  destruct (groups_ofKinds front body back (pr_front _ _ _ _ _ _ _ _ _ R)
              (pr_body _ _ _ _ _ _ _ _ _ R) (pr_back _ _ _ _ _ _ _ _ _ R))
    as (Hf & Hb & Hk).
  rewrite (pr_sections _ _ _ _ _ _ _ _ _ R), Hf, Hb, Hk.
  split; [reflexivity|]. split; [exact (pr_chapter _ _ _ _ _ _ _ _ _ R)|].
  rewrite (pr_currSectionNo _ _ _ _ _ _ _ _ _ R), length_app. reflexivity.
Qed.

(** The document with every group. *)
Lemma parse_section_groups_scenarioFull :
  sections (parsed scenarioFull)
    = fixedThree ++ ofKinds frontKinds (sections (parsed scenarioFull))
        ++ ofKinds bodyKinds (sections (parsed scenarioFull))
        ++ ofKinds backKinds (sections (parsed scenarioFull))
  ∧ ofKinds bodyKinds (sections (parsed scenarioFull)) ≠ []
  ∧ length (sections (parsed scenarioFull)) = 3 + currSectionNo (parsed scenarioFull).
Proof.
  apply (parse_section_groups timeStamp scenarioFull). vm_compute. reflexivity.
Defined.

(** X5. The guides of an accepted document are the cover, the title page,
    the first part or chapter and, when there is back matter, its first
    section: never the copyright section or a front-matter section. *)
Theorem parse_guides currTimeStamp lines0 b :
  parse currTimeStamp lines0 = Ok b →
  guides b = [coverSection; titlepageSection]
               ++ take 1 (ofKinds bodyKinds (sections b))
               ++ take 1 (ofKinds backKinds (sections b)).
Proof.
  intros H. apply parse_run in H as (b0 & k & c & front & body & back & _ & R).
  destruct (groups_ofKinds front body back (pr_front _ _ _ _ _ _ _ _ _ R)
              (pr_body _ _ _ _ _ _ _ _ _ R) (pr_back _ _ _ _ _ _ _ _ _ R))
    as (_ & Hb & Hk).
  rewrite (pr_sections _ _ _ _ _ _ _ _ _ R), Hb, Hk.
  exact (pr_guides _ _ _ _ _ _ _ _ _ R).
Qed.

Lemma parse_guides_scenarioFull :
  guides (parsed scenarioFull)
    = [coverSection; titlepageSection]
        ++ take 1 (ofKinds bodyKinds (sections (parsed scenarioFull)))
        ++ take 1 (ofKinds backKinds (sections (parsed scenarioFull))).
Proof.
  apply (parse_guides timeStamp scenarioFull). vm_compute. reflexivity.
Defined.

(** X6. The sections after the first three are the directive lines of the
    input, in order: from the first directive line after the line that
    follows the copyright directive up to the end directive, where the
    parser stops, every directive line made exactly one section of its
    kind.  The line right after the copyright directive is copyright text
    whatever it is. *)
Theorem parse_directive_lines currTimeStamp lines0 b :
  parse currTimeStamp lines0 = Ok b →
  ∃ k c,
    lines0 !! k = Some "<!--copyright-->"
    ∧ S k < c ≤ lineIndex b
    ∧ noDirective lines0 (S k) c
    ∧ directivesIn lines0 c (lineIndex b)
        = directiveOf <$> (EpubType <$> drop 3 (sections b))
    ∧ lines0 !! lineIndex b = Some "<!--end-->".
Proof.
  intros H. apply parse_run in H as (b0 & k & c & front & body & back & _ & R).
  exists k, c. destruct R. rewrite pr_sections0.
  change (drop 3 (fixedThree ++ front ++ body ++ back)) with (front ++ body ++ back).
  destruct pr_first0. repeat split; assumption.
Qed.

Lemma parse_directive_lines_scenarioFull :
  ∃ k c,
    scenarioFull !! k = Some "<!--copyright-->"
    ∧ S k < c ≤ lineIndex (parsed scenarioFull)
    ∧ noDirective scenarioFull (S k) c
    ∧ directivesIn scenarioFull c (lineIndex (parsed scenarioFull))
        = directiveOf <$> (EpubType <$> drop 3 (sections (parsed scenarioFull)))
    ∧ scenarioFull !! lineIndex (parsed scenarioFull) = Some "<!--end-->".
Proof.
  apply (parse_directive_lines timeStamp scenarioFull). vm_compute. reflexivity.
Defined.

Lemma stamped_lookup_ne currTimeStamp attrs key :
  key ≠ "created" → key ≠ "modified" →
  stamped currTimeStamp attrs !! key = attrs !! key.
Proof.
  intros Hc Hm. unfold stamped. rewrite lookup_insert_ne by congruence.
  destruct (_ == _); [|reflexivity]. by rewrite lookup_insert_ne by congruence.
Qed.

Lemma stamped_created currTimeStamp attrs :
  currTimeStamp ≠ "" → default "" (stamped currTimeStamp attrs !! "created") ≠ "".
Proof.
  intros Hts. unfold stamped. rewrite lookup_insert_ne by discriminate.
  destruct (String.eqb_spec (default "" (attrs !! "created")) ""); [|assumption].
  by rewrite lookup_insert_eq.
Qed.

(** X7. An accepted document has its markers in this order: the first
    [<head>] after the first line, the first [</head>] after it, the first
    [<body>] after that, the copyright directive, and the end directive at
    which the parser stops; the first line of the input is not among them.
    Unless the title page is a custom one, the copyright directive is the
    line right after [<body>].  With a custom title page, the title-page
    directive is the second line after [<body>], and the copyright
    directive is the first directive line after the line that follows the
    title-page directive. *)
Theorem parse_markers currTimeStamp lines0 b :
  parse currTimeStamp lines0 = Ok b →
  ∃ h e d k,
    firstAfter lines0 "<head>" 0 h
    ∧ firstAfter lines0 "</head>" h e
    ∧ firstAfter lines0 "<body>" e d
    ∧ d < k < lineIndex b
    ∧ lines0 !! k = Some "<!--copyright-->"
    ∧ (titlePageOf b ≠ "custom" → k = S d)
    ∧ (titlePageOf b = "custom" →
       lines0 !! S (S d) = Some "<!--titlepage-->"
       ∧ S (S (S d)) < k
       ∧ noDirective lines0 (S (S (S d))) k)
    ∧ lines0 !! lineIndex b = Some "<!--end-->".
Proof.
  intros H. apply parse_run in H as (b0 & k & c & front & body & back & H0 & R).
  apply header_run in H0 as (h & e & d & loaded & R0).
  exists h, e, d, k. destruct R, R0.
  assert (Htp : titlePageOf b = titlePageOf b0)
    by (unfold titlePageOf, GetAttribute; by rewrite pr_attributes0).
  rewrite Htp, <- hr_lineIndex0.
  split; [assumption|]. split; [assumption|]. split; [assumption|].
  split; [lia|]. split; [assumption|]. split; [assumption|]. split; assumption.
Qed.

(** A document with a custom title page. *)
Lemma parse_markers_scenarioCustomTitle :
  ∃ h e d k,
    firstAfter scenarioCustomTitle "<head>" 0 h
    ∧ firstAfter scenarioCustomTitle "</head>" h e
    ∧ firstAfter scenarioCustomTitle "<body>" e d
    ∧ d < k < lineIndex (parsed scenarioCustomTitle)
    ∧ scenarioCustomTitle !! k = Some "<!--copyright-->"
    ∧ (titlePageOf (parsed scenarioCustomTitle) ≠ "custom" → k = S d)
    ∧ (titlePageOf (parsed scenarioCustomTitle) = "custom" →
       scenarioCustomTitle !! S (S d) = Some "<!--titlepage-->"
       ∧ S (S (S d)) < k
       ∧ noDirective scenarioCustomTitle (S (S (S d))) k)
    ∧ scenarioCustomTitle !! lineIndex (parsed scenarioCustomTitle) = Some "<!--end-->".
Proof.
  apply (parse_markers timeStamp scenarioCustomTitle). vm_compute. reflexivity.
Defined.

(** The title-page directive right after [<body>] is passed over: the
    line after it is taken for the directive. *)
Example scenarioCustomTitleFirst_rejected :
  parse timeStamp scenarioCustomTitleFirst
    = Err (Panic "epubgen: <!--titlepage--> directive expected").
Proof. vm_compute. reflexivity. Qed.

(** X8. The attributes of an accepted document: the version is "epub3";
    title, title-sort, author, author-sort, published, publisher, language
    and cover-image have a value; "modified" is the time stamp of the run
    and "created" has a value; the cover image is the cover-image
    attribute with what follows its first dot as media type, which is
    "png" or "jpeg". *)
Theorem parse_attributes currTimeStamp lines0 b :
  parse currTimeStamp lines0 = Ok b →
  GetAttribute b "version" = "epub3"
  ∧ Forall (λ key, GetAttribute b key ≠ "") (requiredKeys ++ ["cover-image"; "created"])
  ∧ GetAttribute b "modified" = currTimeStamp
  ∧ coverImage b = mkImage (GetAttribute b "cover-image")
                           (mediaTypeOf (GetAttribute b "cover-image"))
  ∧ (MediaType (coverImage b) = "png" ∨ MediaType (coverImage b) = "jpeg").
Proof.
  intros H. apply parse_run in H as (b0 & k & c & front & body & back & H0 & R).
  apply header_run in H0 as (h & e & d & loaded & R0).
  destruct R, R0. unfold GetAttribute.
  rewrite pr_attributes0, hr_attributes0, pr_coverImage0, hr_coverImage0.
  rewrite (stamped_lookup_ne _ _ "version"), (stamped_lookup_ne _ _ "cover-image")
    by discriminate.
  split; [assumption|]. split; [|split; [|split; [reflexivity|]]].
  - apply Forall_app. split.
    + eapply Forall_impl; [exact hr_required0|]. intros key Hkey. simpl in Hkey.
      destruct (decide (key = "created")) as [->|Hc].
      { apply stamped_created. intros ->. simpl in pr_stamp0. lia. }
      destruct (decide (key = "modified")) as [->|Hm].
      { unfold stamped. rewrite lookup_insert_eq. simpl.
        intros ->. simpl in pr_stamp0. lia. }
      by rewrite stamped_lookup_ne.
    + constructor; [by rewrite stamped_lookup_ne|].
      constructor; [|constructor].
      apply stamped_created. intros ->. simpl in pr_stamp0. lia.
  - unfold stamped. by rewrite lookup_insert_eq.
  - simpl. by apply acceptedMediaType_cases.
Qed.

Lemma parse_attributes_scenarioFull :
  GetAttribute (parsed scenarioFull) "version" = "epub3"
  ∧ Forall (λ key, GetAttribute (parsed scenarioFull) key ≠ "")
           (requiredKeys ++ ["cover-image"; "created"])
  ∧ GetAttribute (parsed scenarioFull) "modified" = timeStamp
  ∧ coverImage (parsed scenarioFull)
      = mkImage (GetAttribute (parsed scenarioFull) "cover-image")
                (mediaTypeOf (GetAttribute (parsed scenarioFull) "cover-image"))
  ∧ (MediaType (coverImage (parsed scenarioFull)) = "png"
     ∨ MediaType (coverImage (parsed scenarioFull)) = "jpeg").
Proof.
  apply (parse_attributes timeStamp scenarioFull). vm_compute. reflexivity.
Defined.

(** X9. The images of an accepted document are exactly the entries of the
    comma-separated images attribute, each recorded under its name with what
    follows its first dot as media type, "png" or "jpeg" for every entry;
    without the attribute there are none. *)
Theorem parse_images currTimeStamp lines0 b :
  parse currTimeStamp lines0 = Ok b →
  (GetAttribute b "images" ≠ "" →
   Forall (λ f, mediaTypeOf f = "png" ∨ mediaTypeOf f = "jpeg")
          (Split (GetAttribute b "images") ","))
  ∧ ∀ f, images b !! f =
         if decide (GetAttribute b "images" ≠ "" ∧ f ∈ Split (GetAttribute b "images") ",")
         then Some (mkImage f (mediaTypeOf f)) else None.
Proof.
  intros H. apply parse_run in H as (b0 & k & c & front & body & back & H0 & R).
  apply header_run in H0 as (h & e & d & loaded & R0).
  destruct R, R0. unfold GetAttribute.
  rewrite pr_attributes0, hr_attributes0, pr_images0.
  rewrite (stamped_lookup_ne _ _ "images") by discriminate.
  split; [|exact hr_images0].
  intros Hne. eapply Forall_impl; [exact (hr_imagesTypes0 Hne)|].
  intros f. apply acceptedMediaType_cases.
Qed.

Lemma parse_images_scenarioFull :
  (GetAttribute (parsed scenarioFull) "images" ≠ "" →
   Forall (λ f, mediaTypeOf f = "png" ∨ mediaTypeOf f = "jpeg")
          (Split (GetAttribute (parsed scenarioFull) "images") ","))
  ∧ ∀ f, images (parsed scenarioFull) !! f =
         if decide (GetAttribute (parsed scenarioFull) "images" ≠ ""
                    ∧ f ∈ Split (GetAttribute (parsed scenarioFull) "images") ",")
         then Some (mkImage f (mediaTypeOf f)) else None.
Proof.
  apply (parse_images timeStamp scenarioFull). vm_compute. reflexivity.
Defined.

(** ** Reading a declaration back *)

(** A byte that is not in the pattern ends every match attempt. *)
Lemma prefix_append_sep (pat s y : string) (c : ascii) :
  Index pat (String c "") = None →
  String.prefix pat (s +:+ String c y) = String.prefix pat s.
Proof.
  revert s. induction pat as [|a pat IH]; intros s Hc.
  - by rewrite !prefix_empty.
  - rewrite Index_cons, prefix_char in Hc.
    destruct (Ascii.eqb_spec c a) as [|Hne]; [discriminate|].
    destruct (Index pat (String c "")) eqn:E; [discriminate|].
    destruct s as [|b s].
    + change (String.prefix (String a pat) (String c y) = false).
      rewrite prefix_cons. apply not_eq_sym, Ascii.eqb_neq in Hne. by rewrite Hne.
    + change (String.prefix (String a pat) (String b (s +:+ String c y))
              = String.prefix (String a pat) (String b s)).
      rewrite !prefix_cons, IH by reflexivity. reflexivity.
Qed.

(** The first occurrence of a pattern that is not in [x] and does not
    contain the byte [c] is looked for after [x] and [c]. *)
Lemma Index_append_sep (pat x y : string) (a c : ascii) :
  Index (String a pat) (String c "") = None →
  Index x (String a pat) = None →
  Index (x +:+ String c y) (String a pat)
    = (λ n, String.length x + 1 + n) <$> Index y (String a pat).
Proof.
  intros Hc. induction x as [|b x IH]; intros Hx.
  - change (Index (String c y) (String a pat) = (λ n, 1 + n) <$> Index y (String a pat)).
    rewrite Index_cons.
    pose proof (prefix_append_sep (String a pat) "" y c Hc) as Hp.
    change (String.prefix (String a pat) (String c y) = false) in Hp. rewrite Hp.
    by destruct (Index y (String a pat)).
  - change (Index (String b (x +:+ String c y)) (String a pat)
            = (λ n, S (String.length x + 1 + n)) <$> Index y (String a pat)).
    rewrite Index_cons in Hx |- *.
    pose proof (prefix_append_sep (String a pat) (String b x) y c Hc) as Hp.
    change (String.prefix (String a pat) (String b (x +:+ String c y))
            = String.prefix (String a pat) (String b x)) in Hp. rewrite Hp.
    destruct (String.prefix (String a pat) (String b x)); [discriminate|].
    destruct (Index x (String a pat)) eqn:E; [discriminate|].
    rewrite IH by reflexivity. by destruct (Index y (String a pat)).
Qed.

Lemma sliceFrom_append (p x : string) :
  sliceFrom (p +:+ x) (String.length p) = Ok x.
Proof.
  unfold sliceFrom. rewrite decide_True by (rewrite length_append; lia).
  by rewrite substring_append.
Qed.

Lemma metaLine_shape name content :
  metaLine name content
    = "<meta name=" +:+ String (ascii_of_nat 34)
        (name +:+ String (ascii_of_nat 34)
           (" content=" +:+ String (ascii_of_nat 34)
              (content +:+ String (ascii_of_nat 34) "/>"))).
Proof. reflexivity. Qed.

Lemma loadMeta_readable b name content :
  CurrLine b = metaLine name content →
  readable (name, content) →
  loadMeta b = Ok (setAttributes b (declare (attributes b) (name, content))).
Proof.
  intros Hline (Hname & Hnc & Hcontent). simpl in Hname, Hnc, Hcontent.
  unfold dquote in Hname, Hcontent.
  set (dq := ascii_of_nat 34) in *.
  set (tail := content +:+ String dq "/>").
  set (rest := name +:+ String dq (" content=" +:+ String dq tail)).
  assert (Hshape : CurrLine b = "<meta name=" +:+ String dq rest)
    by (rewrite Hline; apply metaLine_shape).
  assert (Hi1 : Index (CurrLine b) "name=" = Some 6) by (by rewrite Hshape).
  assert (Hs1 : sliceFrom (CurrLine b) 12 = Ok rest).
  { rewrite Hshape. exact (sliceFrom_append (String.append "<meta name=" (String dq "")) rest). }
  assert (Hi2 : Index rest (String dq "") = Some (String.length name))
    by (by apply Index_char_append).
  assert (Hn : sliceTo rest (String.length name) = name)
    by (apply substring_prefix).
  assert (Hi3 : Index (CurrLine b) "content=" = Some (String.length name + 14)).
  { rewrite Hshape.
    rewrite (Index_append_sep "ontent=" "<meta name=" rest "c" dq) by reflexivity.
    unfold rest.
    rewrite (Index_append_sep "ontent=" name _ "c" dq) by (reflexivity || assumption).
    change (Index (" content=" +:+ String dq tail) "content=") with (Some 1).
    simpl. f_equal. lia. }
  assert (Hs2 : sliceFrom (CurrLine b) (String.length name + 14 + 8 + 1) = Ok tail).
  { rewrite Hshape.
    set (p := ("<meta name=" +:+ String dq "") +:+ (name +:+ String dq " content=")
              +:+ String dq "").
    assert (Hp : "<meta name=" +:+ String dq rest = p +:+ tail).
    { unfold p, rest. rewrite !append_assoc.
      change (String dq "" +:+ tail) with (String dq tail).
      change ("<meta name=" +:+ String dq "" +:+ ?x) with ("<meta name=" +:+ String dq x).
      reflexivity. }
    assert (Hlen : String.length p = String.length name + 14 + 8 + 1).
    { unfold p. rewrite !length_append. simpl. lia. }
    rewrite Hp, <- Hlen. apply sliceFrom_append. }
  assert (Hi4 : Index tail (String dq "") = Some (String.length content))
    by (by apply Index_char_append).
  assert (Hc : sliceTo tail (String.length content) = content)
    by (apply substring_prefix).
  unfold loadMeta, declare. simpl.
  rewrite Hi1. change (6 + 5 + 1) with 12. rewrite Hs1.
  simpl. unfold dquote. fold dq. rewrite Hi2, Hn, Hi3, Hs2.
  simpl. rewrite Hi4, Hc.
  destruct (name == ""); [by destruct b|reflexivity].
Qed.

Lemma metaLine_not_headEnd name content : (metaLine name content == "</head>") = false.
Proof. reflexivity. Qed.

Lemma metaLine_isMeta name content : HasPrefix (metaLine name content) "<meta" = true.
Proof.
  rewrite metaLine_shape. unfold HasPrefix.
  exact (prefix_append "<meta" (" name=" +:+ String (ascii_of_nat 34) _)).
Qed.

Lemma LoadAttributesLoop_declarations declarations :
  ∀ fuel b pre post,
    lines b = pre ++ (uncurry metaLine <$> declarations) ++ "</head>" :: post →
    S (lineIndex b) = length pre →
    Forall readable declarations →
    length declarations < fuel →
    LoadAttributesLoop fuel b
      = Ok (setCursor (setAttributes b (foldl declare (attributes b) declarations))
                      (length pre + length declarations) "</head>").
Proof.
  induction declarations as [|[name content] declarations IH];
    intros fuel b pre post Hlines Hidx Hread Hfuel;
    (destruct fuel as [|fuel]; [simpl in Hfuel; lia|]); cbn [LoadAttributesLoop].
  - simpl in Hlines.
    assert (HN : NextLine b = Ok (setCursor b (length pre) "</head>")).
    { unfold NextLine. rewrite Hidx, Hlines, length_app. simpl.
      rewrite decide_False by lia. by rewrite list_lookup_middle. }
    rewrite (bind_Ok_l _ _ _ HN). simpl.
    destruct b; simpl. do 2 f_equal. lia.
  - simpl in Hlines.
    assert (HN : NextLine b = Ok (setCursor b (length pre) (metaLine name content))).
    { unfold NextLine. rewrite Hidx, Hlines, length_app. simpl.
      rewrite decide_False by lia. by rewrite list_lookup_middle. }
    rewrite (bind_Ok_l _ _ _ HN).
    change (CurrLine (setCursor b (length pre) (metaLine name content)))
      with (metaLine name content).
    rewrite metaLine_not_headEnd, metaLine_isMeta.
    inversion Hread as [|? ? Hr Hrest]; subst.
    rewrite (bind_Ok_l _ _ _
               (loadMeta_readable (setCursor b (length pre) (metaLine name content))
                                  name content eq_refl Hr)).
    rewrite (IH fuel _ (pre ++ [metaLine name content]) post); try assumption.
    + simpl. f_equal. unfold setCursor, setAttributes. simpl. f_equal.
      rewrite length_app. simpl. lia.
    + simpl. by rewrite Hlines, <- app_assoc.
    + simpl. rewrite length_app. simpl. lia.
    + simpl in Hfuel. lia.
Qed.

(** X10. A head section made of well-formed declarations, closed by
    [</head>]: [LoadAttributes] stops on [</head>] with every declaration
    entered under its name, in the order of the lines, so that a later
    declaration of a name replaces an earlier one and a declaration with
    an empty name adds nothing. *)
Theorem LoadAttributes_declarations b pre declarations post :
  lines b = pre ++ (uncurry metaLine <$> declarations) ++ "</head>" :: post →
  S (lineIndex b) = length pre →
  Forall readable declarations →
  LoadAttributes b
    = Ok (setCursor (setAttributes b (foldl declare (attributes b) declarations))
                    (length pre + length declarations) "</head>").
Proof.
  intros Hlines Hidx Hread. unfold LoadAttributes.
  apply (LoadAttributesLoop_declarations declarations _ b pre post); try assumption.
  rewrite Hlines, !length_app, length_fmap. lia.
Qed.

(** Two declarations of the title and one with an empty name. *)
Lemma LoadAttributes_declarations_headBuffer :
  LoadAttributes headBuffer
    = Ok (setCursor (setAttributes headBuffer {[ "title" := "Another" ]}) 4 "</head>").
Proof.
  apply (LoadAttributes_declarations headBuffer ["<head>"]
           [("title", "A Book"); ("title", "Another"); ("", "x")] ["<body>"]).
  - reflexivity.
  - reflexivity.
  - repeat constructor.
Defined.

(** ** The partition of the sections *)

Lemma slice_from_0 {A} (l : list A) j : slice l 0 j = take j l.
Proof. unfold slice. by rewrite Nat.sub_0_r. Qed.

Lemma slice_to_end {A} (l : list A) i j :
  i ≤ j → slice l i j ++ drop j l = drop i l.
Proof.
  intros Hij. unfold slice.
  rewrite <- (take_drop (j - i) (drop i l)) at 2. rewrite drop_drop.
  do 2 f_equal. lia.
Qed.

Lemma flattenParts_snoc partSections g :
  flattenParts (partSections ++ [g]) = flattenParts partSections ++ Part g :: Chapters g.
Proof. unfold flattenParts. rewrite flat_map_app. simpl. by rewrite app_nil_r. Qed.

(** The range loop of [GenNAVFile] on a sequence that is not empty: it
    ends on the first part or chapter, or on the last section. *)
Lemma rangeSections_cases l i index section :
  l ≠ [] →
  ∃ j s, rangeSections l i index section = (i + j, s)
         ∧ l !! j = Some s
         ∧ Forall (λ x, isBodyMatter x = false) (take j l)
         ∧ (isBodyMatter s = false → S j = length l).
Proof.
  revert i index section. induction l as [|s0 l IH]; intros i index section Hne;
    [contradiction|].
  simpl. destruct (isBodyMatter s0) eqn:E0.
  - exists 0, s0. rewrite Nat.add_0_r. repeat split; [constructor|congruence].
  - destruct l as [|s1 l].
    + exists 0, s0. rewrite Nat.add_0_r. repeat split. constructor.
    + destruct (IH (S i) i s0 ltac:(discriminate)) as (j & s & Hr & Hl & Hall & Hlast).
      exists (S j), s. rewrite Hr. split; [f_equal; lia|]. split; [exact Hl|].
      split; [by constructor|]. intros Hs. by rewrite (Hlast Hs).
Qed.

(** The scan of the parts branch, from a state in which a part is open:
    the groups cover the sections from [i0] to the position where the scan
    ends, which holds a section that is neither part nor chapter. *)
Lemma partsLoop_groups fuel secs i0 :
  ∀ index currPart startIndex partSections parts j,
    i0 < startIndex ≤ index →
    secs !! (startIndex - 1) = Some currPart →
    EpubType currPart = "part" →
    (∀ i s, startIndex ≤ i < index → secs !! i = Some s → EpubType s = "chapter") →
    flattenParts partSections = slice secs i0 (startIndex - 1) →
    Forall partGroup partSections →
    partsLoop fuel secs index false currPart startIndex partSections = Ok (parts, j) →
    flattenParts parts = slice secs i0 j
    ∧ Forall partGroup parts
    ∧ parts ≠ []
    ∧ index ≤ j
    ∧ ∃ s, secs !! j = Some s ∧ isBodyMatter s = false.
Proof.
  induction fuel as [|fuel IH];
    intros index currPart startIndex ps parts j Hidx Hcur Hpart Hchap Hflat Hgroups H;
    [discriminate|].
  cbn [partsLoop] in H.
  destruct (secs !! index) as [section|] eqn:E; [|discriminate].
  assert (Hgroup : partGroup (mkPart currPart (slice secs startIndex index))).
  { split; [exact Hpart|]. simpl. apply Forall_lookup. intros k s Hk.
    apply slice_lookup in Hk as [Hk Hlt]. apply (Hchap (startIndex + k)); [lia|done]. }
  assert (Hflat' : flattenParts (ps ++ [mkPart currPart (slice secs startIndex index)])
                   = slice secs i0 index).
  { rewrite flattenParts_snoc, Hflat. simpl.
    rewrite (slice_app secs i0 (startIndex - 1) index) by lia. f_equal.
    rewrite (slice_cons secs (startIndex - 1) index currPart) by (done || lia).
    do 2 f_equal. lia. }
  destruct (String.eqb_spec (EpubType section) "part") as [Hp|Hp].
  - destruct (IH (S index) section (S index)
                (ps ++ [mkPart currPart (slice secs startIndex index)]) parts j)
      as (H1 & H2 & H3 & H4 & H5); [lia| | | | | |exact H|].
    + by replace (S index - 1) with index by lia.
    + exact Hp.
    + intros i s Hi. lia.
    + replace (S index - 1) with index by lia. exact Hflat'.
    + apply Forall_app. split; [assumption|by constructor].
    + repeat split; auto. lia.
  - destruct (String.eqb_spec (EpubType section) "chapter") as [Hc|Hc]; simpl in H.
    + destruct (IH (S index) currPart startIndex ps parts j) as (H1 & H2 & H3 & H4 & H5);
        [lia|assumption|assumption| |assumption|assumption|exact H|].
      * intros i s Hi Hlook. destruct (decide (i = index)) as [->|Hne].
        -- congruence.
        -- apply (Hchap i); [lia|assumption].
      * repeat split; auto. lia.
    + injection H as <- <-. split; [exact Hflat'|].
      split; [apply Forall_app; split; [assumption|by constructor]|].
      split; [by destruct ps|]. split; [lia|].
      exists section. split; [assumption|].
      unfold isBodyMatter. apply String.eqb_neq in Hp, Hc. by rewrite Hp, Hc.
Qed.

(** The parts branch as [GenNAVFile] enters it: on a part, with no part
    open yet. *)
Lemma partsLoop_first fuel secs index p parts j :
  secs !! index = Some p → EpubType p = "part" →
  partsLoop fuel secs index true zeroSection 0 [] = Ok (parts, j) →
  flattenParts parts = slice secs index j
  ∧ Forall partGroup parts
  ∧ parts ≠ []
  ∧ index < j
  ∧ ∃ s, secs !! j = Some s ∧ isBodyMatter s = false.
Proof.
  intros Hp Hpart H. destruct fuel as [|fuel]; [discriminate|].
  cbn [partsLoop] in H. rewrite Hp, Hpart in H. simpl in H.
  apply (partsLoop_groups fuel secs index) in H.
  - destruct H as (? & ? & ? & ? & ?). repeat split; auto.
  - lia.
  - by replace (S index - 1) with index by lia.
  - exact Hpart.
  - intros i s Hi. lia.
  - replace (S index - 1) with index by lia. by rewrite slice_nil.
  - constructor.
Qed.

(** X11. Whenever [GenNAVFile] returns, the front list, the part groups
    and the back list are the section sequence cut in three, nothing lost
    and nothing repeated; the chapter list is empty, also in a book without
    parts, whose chapters are in the back list; the front list has no part
    or chapter; every group is a part with chapters; with parts there is
    at least one group and the back list starts with a section that is
    neither part nor chapter. *)
Theorem GenNAVFile_partition b nav :
  GenNAVFile b = Ok nav →
  FrontSections nav ++ flattenParts (PartSections nav) ++ BackSections nav = sections b
  ∧ ChapterSections nav = []
  ∧ Forall (λ s, isBodyMatter s = false) (FrontSections nav)
  ∧ Forall partGroup (PartSections nav)
  ∧ BackSections nav ≠ []
  ∧ (if HasParts nav
     then PartSections nav ≠ []
          ∧ ∃ s, head (BackSections nav) = Some s ∧ isBodyMatter s = false
     else PartSections nav = [])
  ∧ Title nav = GetAttribute b "title"
  ∧ Guides nav = guides b.
Proof.
  unfold GenNAVFile. intros H.
  destruct (decide (sections b = [])) as [Hnil|Hne].
  { rewrite Hnil in H. discriminate. }
  destruct (rangeSections_cases (sections b) 0 0 zeroSection Hne)
    as (j & s & Hr & Hs & Hfront & Hlast).
  simpl in Hr. rewrite Hr in H. cbv beta iota zeta in H.
  destruct (String.eqb_spec (EpubType s) "part") as [Hp|Hp].
  - apply bind_Ok in H as ([[parts chapters] index] & HL & H).
    apply bind_Ok in HL as ([parts' index'] & HL & Heq).
    injection Heq as <- <- <-. injection H as <-. simpl.
    apply (partsLoop_first _ _ _ s) in HL as (Hflat & Hgroups & Hnotnil & Hlt & x & Hx & Hnb);
      try assumption.
    rewrite Hflat, (drop_S _ _ _ Hx).
    repeat split; auto; try discriminate.
    + rewrite <- (drop_S _ _ _ Hx), slice_to_end by lia. apply take_drop.
    + eauto.
  - apply bind_Ok in H as ([[parts chapters] index] & HL & H).
    apply bind_Ok in HL as (index' & HL & Heq).
    injection Heq as <- <- <-. injection H as <-. simpl.
    unfold chaptersLoop in HL. rewrite Hs in HL.
    assert (index' = j) as -> by (by destruct (negb _); injection HL).
    rewrite slice_nil, (drop_S _ _ _ Hs).
    repeat split; auto; try discriminate.
    rewrite <- (drop_S _ _ _ Hs). apply take_drop.
Qed.

(** The book with two parts and an afterword. *)
Lemma GenNAVFile_partition_scenarioBAfterword :
  let nav := navigation (parsed scenarioBAfterword) in
  FrontSections nav ++ flattenParts (PartSections nav) ++ BackSections nav
    = sections (parsed scenarioBAfterword)
  ∧ ChapterSections nav = []
  ∧ Forall (λ s, isBodyMatter s = false) (FrontSections nav)
  ∧ Forall partGroup (PartSections nav)
  ∧ BackSections nav ≠ []
  ∧ (if HasParts nav
     then PartSections nav ≠ []
          ∧ ∃ s, head (BackSections nav) = Some s ∧ isBodyMatter s = false
     else PartSections nav = [])
  ∧ Title nav = GetAttribute (parsed scenarioBAfterword) "title"
  ∧ Guides nav = guides (parsed scenarioBAfterword).
Proof.
  apply (GenNAVFile_partition (parsed scenarioBAfterword)
           (navigation (parsed scenarioBAfterword))).
  vm_compute. reflexivity.
Defined.

(** ** The navigation of an accepted document *)

Lemma kinds_not_body (kinds : list string) (l : list SectionData) :
  Forall (λ k, k ∉ bodyKinds) kinds →
  Forall (λ s, EpubType s ∈ kinds) l → Forall (λ s, isBodyMatter s = false) l.
Proof.
  intros Hapart Hl. eapply Forall_impl; [exact Hl|]. intros s Hs. simpl in Hs.
  destruct (isBodyMatter s) eqn:E; [|reflexivity].
  exfalso. apply (kinds_apart kinds bodyKinds (EpubType s) Hapart Hs).
  apply isBodyMatter_cases in E as [->| ->]; compute_done.
Qed.

Lemma bodyKinds_isBodyMatter (l : list SectionData) :
  Forall (λ s, EpubType s ∈ bodyKinds) l → Forall (λ s, isBodyMatter s = true) l.
Proof.
  intros Hl. eapply Forall_impl; [exact Hl|]. intros s Hs. unfold bodyKinds in Hs.
  rewrite !elem_of_cons, elem_of_nil in Hs.
  destruct Hs as [?|[?|[]]]; [by apply isBodyMatter_part|by apply isBodyMatter_chapter].
Qed.

(** [GenNAVFile] on a sequence with its part-and-chapter run [s :: body]
    between [pre] and [back]. *)
Lemma GenNAVFile_groups b pre s body back :
  sections b = pre ++ (s :: body) ++ back →
  Forall (λ x, isBodyMatter x = false) pre →
  Forall (λ x, isBodyMatter x = true) (s :: body) →
  Forall (λ x, isBodyMatter x = false) back →
  (EpubType s = "chapter" →
   GenNAVFile b = Ok (mkNav (GetAttribute b "title") pre false [] []
                            ((s :: body) ++ back) (guides b)))
  ∧ (EpubType s = "part" → back = [] → GenNAVFile b = Err IndexOutOfRange)
  ∧ (EpubType s = "part" → back ≠ [] →
     ∃ parts, GenNAVFile b = Ok (mkNav (GetAttribute b "title") pre true parts []
                                       back (guides b))
              ∧ flattenParts parts = s :: body
              ∧ Forall partGroup parts).
Proof.
  intros Hsecs Hpre Hbody Hback.
  assert (Hs : isBodyMatter s = true) by (by inversion Hbody).
  assert (Hlen : length (sections b) = length pre + S (length body) + length back)
    by (rewrite Hsecs, !length_app; simpl; lia).
  assert (Hat : ∀ i x, length pre ≤ i < length pre + S (length body) →
                       sections b !! i = Some x → isBodyMatter x = true).
  { intros i x Hi Hlook. rewrite Hsecs, lookup_app_r in Hlook by lia.
    rewrite lookup_app_l in Hlook by (simpl; lia).
    rewrite Forall_lookup in Hbody. eapply Hbody, Hlook. }
  split; [|split].
  - intros Hc. unfold GenNAVFile. rewrite Hsecs. simpl app.
    rewrite rangeSections_first by assumption.
    rewrite Hc. simpl (_ == _). cbv iota.
    unfold chaptersLoop. rewrite lookup_middle, Hc. simpl.
    unfold slice. by rewrite Nat.sub_diag, take_0, take_app_length, drop_app_length.
  - intros Hp ->. unfold GenNAVFile. rewrite Hsecs at 1. simpl app at 1.
    rewrite rangeSections_first by assumption.
    rewrite Hp. simpl (_ == _). cbv iota.
    rewrite partsLoop_overrun; [reflexivity| |lia|lia].
    intros i x Hi Hlook. apply (Hat i); [|assumption].
    apply lookup_lt_Some in Hlook. simpl in *. lia.
  - intros Hp Hne. destruct back as [|x back]; [contradiction|].
    assert (Hx : sections b !! (length pre + S (length body)) = Some x).
    { rewrite Hsecs, lookup_app_r by lia.
      replace (length pre + S (length body) - length pre) with (length (s :: body) + 0)
        by (simpl; lia).
      by rewrite lookup_app_r, Nat.add_comm, Nat.add_sub by lia. }
    destruct (partsLoop_stops (S (length (sections b))) (sections b) (0 + length pre)
                true zeroSection 0 [] (length pre + S (length body)) x)
      as [parts Hparts]; try lia; try assumption.
    { by inversion Hback. }
    exists parts.
    assert (Hp0 : sections b !! (0 + length pre) = Some s)
      by (rewrite Hsecs; apply lookup_middle).
    destruct (partsLoop_first _ _ _ s _ _ Hp0 Hp Hparts) as (Hflat & Hgroups & _).
    split; [|split; [|exact Hgroups]].
    + unfold GenNAVFile. rewrite Hsecs at 1. simpl app at 1.
      rewrite rangeSections_first by assumption.
      rewrite Hp. simpl (_ == _). cbv iota. rewrite Hparts. simpl.
      do 2 f_equal.
      * by rewrite Hsecs, take_app_length.
      * rewrite Hsecs, app_assoc.
        replace (length pre + S (length body)) with (length (pre ++ s :: body))
          by (rewrite length_app; reflexivity).
        by rewrite drop_app_length.
    + rewrite Hflat. unfold slice. rewrite Hsecs. simpl (0 + _).
      rewrite drop_app_length.
      replace (length pre + S (length body) - length pre) with (length (s :: body))
        by (simpl; lia).
      by rewrite take_app_length.
Qed.

(** X12. What becomes of an accepted document in [main]: its body matter
    starts with a chapter or with a part.  With a chapter first, the front
    list is every section before it, there are no groups, and the back
    list is the whole body matter followed by the back matter.  With a
    part first and some back matter, the front list is the same, the groups
    are the body matter and the back list is the back matter.  With a part
    first and no back matter, [main] stops with an index out of range. *)
Theorem main_navigation currTimeStamp lines0 b :
  parse currTimeStamp lines0 = Ok b →
  let front := ofKinds frontKinds (sections b) in
  let body := ofKinds bodyKinds (sections b) in
  let back := ofKinds backKinds (sections b) in
  (EpubType <$> head body = Some "chapter" ∨ EpubType <$> head body = Some "part")
  ∧ (EpubType <$> head body = Some "chapter" →
     main currTimeStamp lines0
       = Ok (b, mkNav (GetAttribute b "title") (fixedThree ++ front) false [] []
                      (body ++ back) (guides b)))
  ∧ (EpubType <$> head body = Some "part" → back ≠ [] →
     ∃ parts, main currTimeStamp lines0
                = Ok (b, mkNav (GetAttribute b "title") (fixedThree ++ front) true parts []
                               back (guides b))
              ∧ flattenParts parts = body
              ∧ Forall partGroup parts)
  ∧ (EpubType <$> head body = Some "part" → back = [] →
     main currTimeStamp lines0 = Err IndexOutOfRange).
Proof.
  intros H. unfold main. rewrite H. simpl.
  apply parse_run in H as (b0 & k & c & front & body & back & _ & R).
  destruct R.
  destruct (groups_ofKinds front body back pr_front0 pr_body0 pr_back0) as (Hf & Hb & Hk).
  rewrite pr_sections0, Hf, Hb, Hk.
  destruct body as [|s body]; [contradiction|].
  destruct (GenNAVFile_groups b (fixedThree ++ front) s body back)
    as (Hchapter & Hoverrun & Hparts).
  { by rewrite pr_sections0, <- app_assoc. }
  { apply Forall_app. split.
    - apply (kinds_not_body fixedKinds); [repeat constructor; compute_done|].
      apply fixedThree_kinds.
    - apply (kinds_not_body frontKinds); [repeat constructor; compute_done|assumption]. }
  { by apply bodyKinds_isBodyMatter. }
  { apply (kinds_not_body backKinds); [repeat constructor; compute_done|assumption]. }
  simpl. split; [|split; [|split]].
  - inversion pr_body0 as [|? ? Hs _]; subst. unfold bodyKinds in Hs.
    rewrite !elem_of_cons, elem_of_nil in Hs.
    destruct Hs as [->|[->|[]]]; auto.
  - intros [= Hc]. by rewrite (Hchapter Hc).
  - intros [= Hp] Hne. destruct (Hparts Hp Hne) as (parts & Hnav & Hflat & Hgroups).
    exists parts. by rewrite Hnav.
  - intros [= Hp] Hnil. by rewrite (Hoverrun Hp Hnil).
Qed.

(** The document with every group: a part first, and back matter. *)
Lemma main_navigation_scenarioFull :
  let b := parsed scenarioFull in
  let front := ofKinds frontKinds (sections b) in
  let body := ofKinds bodyKinds (sections b) in
  let back := ofKinds backKinds (sections b) in
  (EpubType <$> head body = Some "chapter" ∨ EpubType <$> head body = Some "part")
  ∧ (EpubType <$> head body = Some "chapter" →
     main timeStamp scenarioFull
       = Ok (b, mkNav (GetAttribute b "title") (fixedThree ++ front) false [] []
                      (body ++ back) (guides b)))
  ∧ (EpubType <$> head body = Some "part" → back ≠ [] →
     ∃ parts, main timeStamp scenarioFull
                = Ok (b, mkNav (GetAttribute b "title") (fixedThree ++ front) true parts []
                               back (guides b))
              ∧ flattenParts parts = body
              ∧ Forall partGroup parts)
  ∧ (EpubType <$> head body = Some "part" → back = [] →
     main timeStamp scenarioFull = Err IndexOutOfRange).
Proof.
  apply (main_navigation timeStamp scenarioFull (parsed scenarioFull)).
  vm_compute. reflexivity.
Defined.

(** ** The run as a whole *)

(** X13. [main] never reaches the bound of a loop of the model: every
    loop of the parser and of the partitioner moves forward in the input
    lines, respectively the sections, at each iteration, so a run ends with
    a result or with one of the panics of the program. *)
Theorem main_terminates currTimeStamp lines0 : main currTimeStamp lines0 ≠ Err OutOfFuel.
Proof.
  unfold main.
  destruct (parse currTimeStamp lines0) as [b|e] eqn:E; simpl.
  - destruct (GenNAVFile b) as [nav|e] eqn:En; simpl; [discriminate|].
    intros [= ->]. by apply (GenNAVFile_fuel b).
  - intros [= ->]. by apply (parse_fuel currTimeStamp lines0).
Qed.

(** ** Arguments and configuration *)

(** X14. [CheckArgsAndParms] prints the usage text and exits with status
    1 exactly for the argument lists that are neither a program name with
    a book name nor a program name with [-c], a path and a book name,
    whatever the configuration.  Otherwise the book name is the last
    argument, the configuration is read from the given path, or from
    [./config.yaml] when none or an empty one is given, and the call
    returns exactly when the file is a map that has the four directory
    parameters; a parameter that is present with an empty value is
    accepted, and of the missing ones the first in the order source,
    target, resource, templates is reported. *)
Theorem CheckArgsAndParms_outcome (args : list string)
    (readConfig : string → parm.configFile) :
  (¬ parm.wellFormedArgs args → parm.CheckArgsAndParms args readConfig = parm.Exit 1)
  ∧ (parm.wellFormedArgs args →
     ∃ bookName, last args = Some bookName
     ∧ match readConfig (parm.configPath args) with
       | parm.Config cfgMap =>
           match list_find (λ key, cfgMap !! key = None) parm.configKeys with
           | Some (_, key) =>
               parm.CheckArgsAndParms args readConfig
                 = parm.Panicked ("epubgen: config parameter '" +:+ key +:+ "' required")
           | None =>
               parm.CheckArgsAndParms args readConfig
                 = parm.Done (parm.mkParms bookName
                                (default "" (cfgMap !! "source_dir"))
                                (default "" (cfgMap !! "target_dir"))
                                (default "" (cfgMap !! "resource_dir"))
                                (default "" (cfgMap !! "templates_dir")))
           end
       | parm.Invalid err =>
           parm.CheckArgsAndParms args readConfig
             = parm.Panicked ("epubgen: error unmarshalling config file "
                              +:+ parm.configPath args +:+ ": " +:+ err)
       | parm.Unreadable err =>
           parm.CheckArgsAndParms args readConfig
             = parm.Panicked ("epubgen: cannot read config file "
                              +:+ parm.configPath args +:+ ": " +:+ err)
       end).
Proof.
  assert (Hconfig : ∀ path bookName,
    match readConfig path with
    | parm.Config cfgMap =>
        match list_find (λ key, cfgMap !! key = None) parm.configKeys with
        | Some (_, key) =>
            (sourceDir ← parm.requiredParameter cfgMap "source_dir";
             targetDir ← parm.requiredParameter cfgMap "target_dir";
             resourceDir ← parm.requiredParameter cfgMap "resource_dir";
             templatesDir ← parm.requiredParameter cfgMap "templates_dir";
             parm.Done (parm.mkParms bookName sourceDir targetDir resourceDir templatesDir))
            = parm.Panicked ("epubgen: config parameter '" +:+ key +:+ "' required")
        | None =>
            (sourceDir ← parm.requiredParameter cfgMap "source_dir";
             targetDir ← parm.requiredParameter cfgMap "target_dir";
             resourceDir ← parm.requiredParameter cfgMap "resource_dir";
             templatesDir ← parm.requiredParameter cfgMap "templates_dir";
             parm.Done (parm.mkParms bookName sourceDir targetDir resourceDir templatesDir))
            = parm.Done (parm.mkParms bookName
                           (default "" (cfgMap !! "source_dir"))
                           (default "" (cfgMap !! "target_dir"))
                           (default "" (cfgMap !! "resource_dir"))
                           (default "" (cfgMap !! "templates_dir")))
        end
    | _ => True
    end).
  { intros path bookName. destruct (readConfig path) as [| |cfgMap]; try exact I.
    unfold parm.requiredParameter, parm.configKeys. cbn [list_find].
    destruct (cfgMap !! "source_dir") as [v1|];
      [rewrite decide_False by discriminate|by rewrite decide_True].
    destruct (cfgMap !! "target_dir") as [v2|];
      [rewrite decide_False by discriminate|by rewrite decide_True].
    destruct (cfgMap !! "resource_dir") as [v3|];
      [rewrite decide_False by discriminate|by rewrite decide_True].
    destruct (cfgMap !! "templates_dir") as [v4|];
      [rewrite decide_False by discriminate|by rewrite decide_True].
    reflexivity. }
  unfold parm.wellFormedArgs, parm.configPath, parm.CheckArgsAndParms.
  destruct args as [|a0 [|a1 [|a2 [|a3 [|a4 args]]]]]; simpl length; simpl lookup.
  - split; [reflexivity|]. intros [?|[? _]]; lia.
  - split; [reflexivity|]. intros [?|[? _]]; lia.
  - split; [intros Hn; destruct Hn; by left|]. intros _. exists a1.
    split; [reflexivity|]. simpl.
    specialize (Hconfig "./config.yaml" a1).
    by destruct (readConfig "./config.yaml").
  - split; [reflexivity|]. intros [?|[? _]]; lia.
  - destruct (String.eqb_spec a1 "-c") as [->|Hne].
    + split; [intros Hn; destruct Hn; by right|]. intros _. exists a3.
      split; [reflexivity|]. simpl.
      specialize (Hconfig (if a2 == "" then "./config.yaml" else a2) a3).
      by destruct (readConfig (if a2 == "" then "./config.yaml" else a2)).
    + split; [reflexivity|]. intros [?|[_ [= ?]]]; [lia|contradiction].
  - split; [reflexivity|]. intros [?|[? _]]; lia.
Qed.

(** An empty path after [-c] stands for the default file, and empty
    directories are accepted. *)
Example CheckArgsAndParms_empty_path :
  parm.CheckArgsAndParms ["epubgen"; "-c"; ""; "MyBook"] parm.sampleConfig
    = parm.Done (parm.mkParms "MyBook" "./source" "./target" "" "").
Proof. vm_compute. reflexivity. Qed.

(** ** The package file *)

Lemma Index_char_app (c : ascii) (x y : string) :
  Index x (String c "") = None → Index y (String c "") = None →
  Index (x +:+ y) (String c "") = None.
Proof.
  intros Hx Hy. induction x as [|a x IH]; [exact Hy|].
  change (Index (String a (x +:+ y)) (String c "") = None).
  rewrite Index_cons, prefix_char in Hx |- *.
  destruct (Ascii.eqb c a); [discriminate|].
  destruct (Index x (String c "")); [discriminate|]. by rewrite IH.
Qed.

(** After the replacement of a byte by a text without it, the byte is gone. *)
Lemma ReplaceAll_gone (s : string) (old : ascii) (new : string) :
  Index new (String old "") = None →
  Index (ReplaceAll s old new) (String old "") = None.
Proof.
  intros Hnew. induction s as [|a s IH]; [reflexivity|].
  cbn [ReplaceAll]. destruct (Ascii.eqb_spec a old) as [->|Hne].
  - by apply Index_char_app.
  - rewrite Index_cons, prefix_char.
    apply not_eq_sym, Ascii.eqb_neq in Hne. by rewrite Hne, IH.
Qed.

(** A byte that is neither in the string nor in the new text is not
    brought in by the replacement. *)
Lemma ReplaceAll_absent (s : string) (old c : ascii) (new : string) :
  Index new (String c "") = None →
  Index s (String c "") = None →
  Index (ReplaceAll s old new) (String c "") = None.
Proof.
  intros Hnew. induction s as [|a s IH]; intros Hs; [reflexivity|].
  rewrite Index_cons, prefix_char in Hs.
  destruct (Ascii.eqb c a) eqn:Eca; [discriminate|].
  destruct (Index s (String c "")) eqn:Es; [discriminate|].
  cbn [ReplaceAll]. destruct (Ascii.eqb a old).
  - apply Index_char_app; [assumption|by apply IH].
  - by rewrite Index_cons, prefix_char, Eca, IH.
Qed.

(** Without the byte the replacement changes nothing. *)
Lemma ReplaceAll_id (s : string) (old : ascii) (new : string) :
  Index s (String old "") = None → ReplaceAll s old new = s.
Proof.
  induction s as [|a s IH]; intros Hs; [reflexivity|].
  rewrite Index_cons, prefix_char in Hs.
  destruct (Ascii.eqb old a) eqn:E; [discriminate|].
  destruct (Index s (String old "")) eqn:Es; [discriminate|].
  cbn [ReplaceAll]. rewrite Ascii.eqb_sym, E. by rewrite IH.
Qed.

(** X15. The description handed to the package template has no angle
    bracket, whatever the description attribute; a description without
    angle brackets is handed over as it is, its ampersands included.
    Without a subject attribute the template receives one subject, the
    empty one. *)
Theorem GenOPFFile_description (BookUUID : string) (b : InputBuffer) :
  Index (Description (GenOPFFile BookUUID b)) "<" = None
  ∧ Index (Description (GenOPFFile BookUUID b)) ">" = None
  ∧ (Index (GetAttribute b "description") "<" = None →
     Index (GetAttribute b "description") ">" = None →
     Description (GenOPFFile BookUUID b) = GetAttribute b "description")
  ∧ (GetAttribute b "subject" = "" → Subjects (GenOPFFile BookUUID b) = [""]).
Proof.
  simpl. split; [|split; [|split]].
  - apply ReplaceAll_absent; [reflexivity|]. by apply ReplaceAll_gone.
  - by apply ReplaceAll_gone.
  - intros Hlt Hgt. by rewrite (ReplaceAll_id _ "<"), (ReplaceAll_id _ ">").
  - by intros ->.
Qed.

(** ** Well-formed source text is accepted *)

Lemma extractHeading_h1 heading :
  extractHeading ("<h1>" +:+ heading +:+ "</h1>")
    = Ok (if heading == "&#160;" then "" else heading).
Proof.
  unfold extractHeading.
  change (HasPrefix ("<h1>" +:+ heading +:+ "</h1>") "<h1") with true.
  assert (Hidx : Index ("<h1>" +:+ heading +:+ "</h1>") ">" = Some 3).
  { change ("<h1>" +:+ heading +:+ "</h1>")
      with (String "<" (String "h" (String "1" (String ">" (heading +:+ "</h1>"))))).
    by rewrite !Index_cons, !prefix_char. }
  rewrite Hidx. simpl (true || _ || _). cbv iota.
  assert (Hlen : String.length ("<h1>" +:+ heading +:+ "</h1>")
                 = 4 + String.length heading + 5)
    by (rewrite !length_append; simpl; lia).
  rewrite decide_True by lia. rewrite Hlen.
  replace (4 + String.length heading + 5 - 5 - (3 + 1)) with (String.length heading)
    by lia.
  change (3 + 1) with (String.length "<h1>").
  rewrite (substring_middle "<h1>" heading "</h1>").
  by destruct (heading == "&#160;").
Qed.

Lemma NextLine_at b pre line rest :
  lines b = pre ++ line :: rest → S (lineIndex b) = length pre →
  NextLine b = Ok (setCursor b (length pre) line).
Proof.
  intros Hlines Hidx. unfold NextLine. cbv zeta.
  rewrite Hidx, Hlines, length_app. simpl.
  rewrite decide_False by lia. by rewrite list_lookup_middle.
Qed.

(** The lines of a section are read up to the next directive. *)
Lemma readSectionLines_plain content :
  ∀ fuel acc b pre next rest,
    lines b = pre ++ content ++ next :: rest →
    S (lineIndex b) = length pre →
    Forall (λ line, HasPrefix line "<!--" = false) content →
    HasPrefix next "<!--" = true →
    length content < fuel →
    readSectionLines fuel acc b
      = Ok (acc ++ CurrLine b :: content,
            setCursor b (length pre + length content) next).
Proof.
  induction content as [|c content IH];
    intros fuel acc b pre next rest Hlines Hidx Hplain Hnext Hfuel;
    (destruct fuel as [|fuel]; [simpl in Hfuel; lia|]); cbn [readSectionLines].
  - simpl in Hlines. rewrite (NextLine_at b pre next rest) by auto.
    rewrite (bind_Ok_l _ _ _ eq_refl). simpl. rewrite Hnext.
    by rewrite Nat.add_0_r.
  - simpl in Hlines. rewrite (NextLine_at b pre c (content ++ next :: rest)) by auto.
    rewrite (bind_Ok_l _ _ _ eq_refl).
    inversion Hplain as [|? ? Hc Hrest]; subst.
    change (CurrLine (setCursor b (length pre) c)) with c. rewrite Hc.
    rewrite (IH fuel _ _ (pre ++ [c]) next rest); try assumption.
    + rewrite <- app_assoc. simpl. do 2 f_equal. unfold setCursor. simpl.
      f_equal. rewrite length_app. simpl. lia.
    + simpl. by rewrite Hlines, <- app_assoc.
    + simpl. rewrite length_app. simpl. lia.
    + simpl in Hfuel. lia.
Qed.

(** The common part of the cases of the three loops on the source lines
    of a section: the heading line is read, and whatever heading the
    section is given, its text is consumed up to the next directive. *)
Lemma builderCase_accepts b pre x next rest :
  lines b = pre ++ sourceLines x ++ next :: rest →
  lineIndex b = length pre →
  plainText x →
  HasPrefix next "<!--" = true →
  let b1 := setCursor b (S (lineIndex b)) ("<h1>" +:+ srcHeading x +:+ "</h1>") in
  NextLine b = Ok b1
  ∧ extractHeading (CurrLine b1) = Ok (headingRead x)
  ∧ ∀ kind heading,
      GenFrontMatterSection
        (AddSection (NewSectionData b1 kind heading).2 (NewSectionData b1 kind heading).1)
        (NewSectionData b1 kind heading).1
      = Ok (mkBuffer next (lineIndex b + length (sourceLines x)) (lines b) (attributes b)
                     (coverImage b) (images b)
                     (sections b ++ [mkSection (Sprintf_section03d (S (currSectionNo b)))
                                               kind heading])
                     (guides b) (S (currSectionNo b))).
Proof.
  intros Hlines Hidx Hplain Hnext b1.
  unfold sourceLines in Hlines. simpl in Hlines.
  split; [|split].
  - rewrite (NextLine_at b (pre ++ [directiveOf (srcKind x)])
               ("<h1>" +:+ srcHeading x +:+ "</h1>") (srcLines x ++ next :: rest));
      [|by rewrite <- app_assoc|rewrite length_app; simpl; lia].
    unfold b1. do 2 f_equal. rewrite length_app. simpl. lia.
  - apply extractHeading_h1.
  - intros kind heading. unfold GenFrontMatterSection.
    rewrite (readSectionLines_plain (srcLines x) _ _ _
               (pre ++ [directiveOf (srcKind x); "<h1>" +:+ srcHeading x +:+ "</h1>"])
               next rest); try assumption.
    + simpl. unfold setCursor. simpl. do 2 f_equal.
      rewrite Hidx, !length_app. simpl. lia.
    + simpl. by rewrite Hlines, <- app_assoc.
    + simpl. rewrite !length_app. simpl. lia.
    + simpl. rewrite Hlines, !length_app. simpl. rewrite length_app. simpl. lia.
Qed.

Lemma frontMatterCase_accepts b pre x next rest label :
  lines b = pre ++ sourceLines x ++ next :: rest →
  lineIndex b = length pre →
  plainText x →
  HasPrefix next "<!--" = true →
  frontMatterCase (srcKind x) label b
    = Ok (mkBuffer next (lineIndex b + length (sourceLines x)) (lines b) (attributes b)
                   (coverImage b) (images b)
                   (sections b ++ [mkSection (Sprintf_section03d (S (currSectionNo b)))
                                             (srcKind x)
                                             (if headingRead x == "" then label
                                              else headingRead x)])
                   (guides b) (S (currSectionNo b))).
Proof.
  intros Hlines Hidx Hplain Hnext.
  destruct (builderCase_accepts b pre x next rest Hlines Hidx Hplain Hnext)
    as (HN & HH & HG).
  unfold frontMatterCase. rewrite (bind_Ok_l _ _ _ HN), (bind_Ok_l _ _ _ HH).
  apply HG.
Qed.

Lemma bodyMatterCase_accepts b pre x next rest first :
  lines b = pre ++ sourceLines x ++ next :: rest →
  lineIndex b = length pre →
  plainText x →
  HasPrefix next "<!--" = true →
  let section :=
    mkSection (Sprintf_section03d (S (currSectionNo b))) (srcKind x) (headingRead x) in
  bodyMatterCase (srcKind x) first b
    = Ok (false,
          mkBuffer next (lineIndex b + length (sourceLines x)) (lines b) (attributes b)
                   (coverImage b) (images b) (sections b ++ [section])
                   (if first then guides b ++ [section] else guides b)
                   (S (currSectionNo b))).
Proof.
  intros Hlines Hidx Hplain Hnext section.
  destruct (builderCase_accepts b pre x next rest Hlines Hidx Hplain Hnext)
    as (HN & HH & HG).
  unfold bodyMatterCase. rewrite (bind_Ok_l _ _ _ HN), (bind_Ok_l _ _ _ HH).
  specialize (HG (srcKind x) (headingRead x)).
  unfold GenBodyMatterSection. cbv zeta.
  destruct (NewSectionData _ _ _) as [sec b2] eqn:E. simpl in HG.
  rewrite (bind_Ok_l _ _ _ HG). injection E as <- <-.
  by destruct first.
Qed.

Lemma backMatterCase_accepts b pre x next rest label first :
  lines b = pre ++ sourceLines x ++ next :: rest →
  lineIndex b = length pre →
  plainText x →
  HasPrefix next "<!--" = true →
  let section :=
    mkSection (Sprintf_section03d (S (currSectionNo b))) (srcKind x)
              (if headingRead x == "" then label else headingRead x) in
  backMatterCase (srcKind x) label first b
    = Ok (false,
          mkBuffer next (lineIndex b + length (sourceLines x)) (lines b) (attributes b)
                   (coverImage b) (images b) (sections b ++ [section])
                   (if first then guides b ++ [section] else guides b)
                   (S (currSectionNo b))).
Proof.
  intros Hlines Hidx Hplain Hnext section.
  destruct (builderCase_accepts b pre x next rest Hlines Hidx Hplain Hnext)
    as (HN & HH & HG).
  unfold backMatterCase. rewrite (bind_Ok_l _ _ _ HN), (bind_Ok_l _ _ _ HH).
  specialize (HG (srcKind x) (if headingRead x == "" then label else headingRead x)).
  unfold GenBackMatterSection. cbv zeta.
  destruct (NewSectionData _ _ _) as [sec b2] eqn:E. simpl in HG.
  rewrite (bind_Ok_l _ _ _ HG). injection E as <- <-.
  by destruct first.
Qed.

(** The lines after a run of sections start with a directive. *)
Lemma bookLines_next xs next rest :
  HasPrefix next "<!--" = true →
  ∃ d rest', bookLines xs ++ next :: rest = d :: rest' ∧ HasPrefix d "<!--" = true.
Proof.
  intros Hnext. destruct xs as [|x xs].
  - by exists next, rest.
  - eexists _, _. split; [reflexivity|]. apply directiveOf_isDirective.
Qed.

Lemma bookLines_cons x xs : bookLines (x :: xs) = sourceLines x ++ bookLines xs.
Proof. reflexivity. Qed.

Lemma frontKinds_cases kind :
  kind ∈ frontKinds → kind ∈ frontOnce ∨ kind = "preamble".
Proof.
  unfold frontKinds. rewrite elem_of_app, list_elem_of_singleton. tauto.
Qed.

Lemma backKinds_cases kind :
  kind ∈ backKinds → kind ∈ backOnce ∨ kind = "appendix".
Proof.
  unfold backKinds. rewrite elem_of_app, list_elem_of_singleton. tauto.
Qed.

(** One directive of loop 1 whose flag is clear. *)
Lemma loop1_step fuel g b kind :
  kind ∈ frontKinds → CurrLine b = directiveOf kind → frontFlag kind g = false →
  loop1 (S fuel) g b
    = frontMatterCase kind (defaultHeadingOf kind) b ≫= loop1 fuel (markFront kind g).
Proof.
  intros Hk Hline Hflag. apply list_elem_of_In in Hk. simpl in Hk.
  unfold frontFlag in Hflag. destruct g.
  repeat (destruct Hk as [<-|Hk];
    [cbn [loop1]; rewrite Hline; simpl in Hflag |- *; rewrite ?Hflag;
     unfold markFront; simpl; rewrite ?Hflag, ?orb_false_r; reflexivity|]).
  destruct Hk.
Qed.

Lemma frontFlag_markFront_ne k kind g :
  k ≠ kind → frontFlag k (markFront kind g) = frontFlag k g.
Proof.
  intros Hne. unfold frontFlag, markFront. simpl.
  repeat (match goal with
          | |- context [k == ?d] =>
              destruct (String.eqb_spec k d) as [->|?];
              [rewrite (eqb_false kind d) by congruence; apply orb_false_r|]
          end).
  reflexivity.
Qed.

Lemma backFlag_markBack_ne k kind first g :
  k ≠ kind → backFlag k (markBack kind first g) = backFlag k g.
Proof.
  intros Hne. unfold backFlag, markBack. simpl.
  repeat (match goal with
          | |- context [k == ?d] =>
              destruct (String.eqb_spec k d) as [->|?];
              [rewrite (eqb_false kind d) by congruence; apply orb_false_r|]
          end).
  reflexivity.
Qed.

(** The flags stay clear for the kinds still to come. *)
Lemma atMostOnce_tail once kind kinds :
  atMostOnce once (kind :: kinds) →
  atMostOnce once kinds ∧ (kind ∈ once → kind ∉ kinds).
Proof.
  unfold atMostOnce. rewrite filter_cons.
  destruct (decide (kind ∈ once)) as [Hin|Hin].
  - intros Hnd. apply NoDup_cons in Hnd as [Hnot Hnd]. split; [assumption|].
    intros _ Hk. apply Hnot. by apply list_elem_of_filter.
  - intros Hnd. split; [assumption|contradiction].
Qed.

Lemma afterSections_nil b next :
  CurrLine b = next → afterSections b [] next [] = b.
Proof.
  intros <-. unfold afterSections. destruct b; simpl.
  by rewrite !app_nil_r, !Nat.add_0_r.
Qed.

Lemma cursorOK_at b pre d rest :
  lines b = pre ++ d :: rest → lineIndex b = length pre → cursorOK b → CurrLine b = d.
Proof.
  unfold cursorOK. intros -> ->. rewrite list_lookup_middle by reflexivity. congruence.
Qed.

Lemma loop1_accepts xs :
  ∀ fuel g b pre next rest,
    lines b = pre ++ bookLines xs ++ next :: rest →
    lineIndex b = length pre →
    cursorOK b →
    Forall plainText xs →
    Forall (λ x, srcKind x ∈ frontKinds) xs →
    atMostOnce frontOnce (srcKind <$> xs) →
    Forall (λ x, frontFlag (srcKind x) g = false) xs →
    HasPrefix next "<!--" = true →
    next ∉ frontDirectives →
    length xs < fuel →
    loop1 fuel g b = Ok (afterSections b xs next []).
Proof.
  induction xs as [|x xs IH];
    intros fuel g b pre next rest Hlines Hidx Hcur Hplain Hkinds Honce Hflags Hnext Hstop
           Hfuel;
    (destruct fuel as [|fuel]; [simpl in Hfuel; lia|]);
    pose proof (cursorOK_at b pre _ _ Hlines Hidx Hcur) as Hline.
  - rewrite afterSections_nil by assumption.
    cbn [loop1]. rewrite Hline.
    rewrite !eqb_false; [reflexivity|..]; intros Heq; apply Hstop; rewrite Heq;
      compute_done.
  - inversion Hplain as [|? ? Hp Hplain']; subst.
    inversion Hkinds as [|? ? Hk Hkinds']; subst.
    inversion Hflags as [|? ? Hf Hflags']; subst.
    rewrite fmap_cons in Honce. apply atMostOnce_tail in Honce as [Honce' Hfresh].
    rewrite (loop1_step fuel g b (srcKind x)) by (assumption || congruence).
    rewrite bookLines_cons, <- app_assoc in Hlines.
    destruct (bookLines_next xs next rest Hnext) as (d & rest' & Hd & Hdir).
    rewrite Hd in Hlines.
    rewrite (frontMatterCase_accepts b pre x d rest') by assumption.
    rewrite (bind_Ok_l _ _ _ eq_refl).
    rewrite (IH fuel _ _ (pre ++ sourceLines x) next rest); try assumption.
    + unfold afterSections. rewrite bookLines_cons, length_app. simpl.
      do 2 f_equal; [lia|by rewrite <- app_assoc|lia].
    + simpl. by rewrite Hlines, <- app_assoc, Hd.
    + simpl. rewrite length_app, Hidx. simpl. lia.
    + unfold cursorOK. simpl. rewrite Hlines, Hidx, app_assoc.
      replace (length pre + S (S (length (srcLines x))))
        with (length (pre ++ sourceLines x)) by (rewrite length_app; simpl; lia).
      by rewrite list_lookup_middle.
    + apply Forall_forall. intros y Hy.
      rewrite Forall_forall in Hflags'.
      destruct (decide (srcKind y = srcKind x)) as [Heq|Hne].
      * rewrite Heq. destruct (frontKinds_cases _ Hk) as [Hin| ->]; [|reflexivity].
        exfalso. apply (Hfresh Hin). rewrite <- Heq. by apply list_elem_of_fmap_2.
      * rewrite frontFlag_markFront_ne by assumption. by apply Hflags'.
    + simpl in Hfuel. lia.
Qed.

Lemma loop2_step fuel first b kind :
  kind ∈ bodyKinds → CurrLine b = directiveOf kind →
  loop2 (S fuel) first b = bodyMatterCase kind first b ≫= λ r, loop2 fuel r.1 r.2.
Proof.
  intros Hk Hline. apply list_elem_of_In in Hk. simpl in Hk.
  destruct Hk as [<-|[<-|[]]]; cbn [loop2]; rewrite Hline; simpl;
    by destruct (bodyMatterCase _ _ _) as [[]|].
Qed.

Lemma loop3_step fuel g b kind :
  kind ∈ backKinds → CurrLine b = directiveOf kind → backFlag kind g = false →
  loop3 (S fuel) g b
    = backMatterCase kind (defaultHeadingOf kind) (firstBackmatter g) b
        ≫= λ r, loop3 fuel (markBack kind r.1 g) r.2.
Proof.
  intros Hk Hline Hflag. apply list_elem_of_In in Hk. simpl in Hk.
  unfold backFlag in Hflag. destruct g.
  destruct Hk as [<-|[<-|[<-|[]]]]; cbn [loop3]; rewrite Hline; simpl in Hflag |- *;
    rewrite ?Hflag; unfold markBack; simpl; rewrite ?Hflag, ?orb_false_r;
    by destruct (backMatterCase _ _ _ _) as [[]|].
Qed.

(** A part or chapter keeps the heading that was read. *)
Lemma builtSection_body n x :
  srcKind x ∈ bodyKinds →
  builtSection n x = mkSection (Sprintf_section03d n) (srcKind x) (headingRead x).
Proof.
  intros Hk. apply list_elem_of_In in Hk. simpl in Hk. unfold builtSection.
  destruct Hk as [<-|[<-|[]]]; simpl;
    by destruct (String.eqb_spec (headingRead x) "") as [->|].
Qed.

Lemma loop2_accepts xs :
  ∀ fuel first b pre next rest,
    lines b = pre ++ bookLines xs ++ next :: rest →
    lineIndex b = length pre →
    cursorOK b →
    Forall plainText xs →
    Forall (λ x, srcKind x ∈ bodyKinds) xs →
    HasPrefix next "<!--" = true →
    next ∉ bodyDirectives →
    length xs < fuel →
    loop2 fuel first b
      = Ok (first && bool_decide (xs = []),
            afterSections b xs next
              (if first then take 1 (builtSections (currSectionNo b) xs) else [])).
Proof.
  induction xs as [|x xs IH];
    intros fuel first b pre next rest Hlines Hidx Hcur Hplain Hkinds Hnext Hstop Hfuel;
    (destruct fuel as [|fuel]; [simpl in Hfuel; lia|]);
    pose proof (cursorOK_at b pre _ _ Hlines Hidx Hcur) as Hline.
  - replace (if first then take 1 (builtSections (currSectionNo b) []) else [])
      with (@nil SectionData) by (by destruct first).
    rewrite afterSections_nil by assumption.
    cbn [loop2]. rewrite Hline.
    rewrite !eqb_false; [by rewrite andb_true_r|..]; intros Heq; apply Hstop;
      rewrite Heq; compute_done.
  - inversion Hplain as [|? ? Hp Hplain']; subst.
    inversion Hkinds as [|? ? Hk Hkinds']; subst.
    rewrite (loop2_step fuel first b (srcKind x)) by assumption.
    rewrite bookLines_cons, <- app_assoc in Hlines.
    destruct (bookLines_next xs next rest Hnext) as (d & rest' & Hd & Hdir).
    rewrite Hd in Hlines.
    rewrite (bodyMatterCase_accepts b pre x d rest') by assumption.
    rewrite (bind_Ok_l _ _ _ eq_refl). cbn [fst snd].
    rewrite (IH fuel _ _ (pre ++ sourceLines x) next rest); try assumption.
    + rewrite (bool_decide_eq_false_2 (x :: xs = [])) by discriminate.
      rewrite andb_false_r. cbn [andb].
      unfold afterSections. rewrite bookLines_cons, length_app. simpl.
      rewrite (builtSection_body _ x Hk).
      do 3 f_equal;
        [lia|by rewrite <- app_assoc|by destruct first; rewrite ?app_nil_r|lia].
    + simpl. by rewrite Hlines, <- app_assoc, Hd.
    + simpl. rewrite length_app, Hidx. simpl. lia.
    + unfold cursorOK. simpl. rewrite Hlines, Hidx, app_assoc.
      replace (length pre + S (S (length (srcLines x))))
        with (length (pre ++ sourceLines x)) by (rewrite length_app; simpl; lia).
      by rewrite list_lookup_middle.
    + simpl in Hfuel. lia.
Qed.

Lemma loop3_accepts xs :
  ∀ fuel g b pre rest,
    lines b = pre ++ bookLines xs ++ "<!--end-->" :: rest →
    lineIndex b = length pre →
    cursorOK b →
    Forall plainText xs →
    Forall (λ x, srcKind x ∈ backKinds) xs →
    atMostOnce backOnce (srcKind <$> xs) →
    Forall (λ x, backFlag (srcKind x) g = false) xs →
    length xs < fuel →
    loop3 fuel g b
      = Ok (afterSections b xs "<!--end-->"
              (if firstBackmatter g then take 1 (builtSections (currSectionNo b) xs)
               else [])).
Proof.
  induction xs as [|x xs IH];
    intros fuel g b pre rest Hlines Hidx Hcur Hplain Hkinds Honce Hflags Hfuel;
    (destruct fuel as [|fuel]; [simpl in Hfuel; lia|]);
    pose proof (cursorOK_at b pre _ _ Hlines Hidx Hcur) as Hline.
  - replace (if firstBackmatter g then take 1 (builtSections (currSectionNo b) []) else [])
      with (@nil SectionData) by (by destruct (firstBackmatter g)).
    rewrite afterSections_nil by assumption.
    cbn [loop3]. by rewrite Hline.
  - inversion Hplain as [|? ? Hp Hplain']; subst.
    inversion Hkinds as [|? ? Hk Hkinds']; subst.
    inversion Hflags as [|? ? Hf Hflags']; subst.
    rewrite fmap_cons in Honce. apply atMostOnce_tail in Honce as [Honce' Hfresh].
    rewrite (loop3_step fuel g b (srcKind x)) by assumption.
    rewrite bookLines_cons, <- app_assoc in Hlines.
    destruct (bookLines_next xs "<!--end-->" rest eq_refl) as (d & rest' & Hd & Hdir).
    rewrite Hd in Hlines.
    rewrite (backMatterCase_accepts b pre x d rest') by assumption.
    rewrite (bind_Ok_l _ _ _ eq_refl). cbn [fst snd].
    rewrite (IH fuel _ _ (pre ++ sourceLines x) rest); try assumption.
    + unfold afterSections. rewrite bookLines_cons, length_app. simpl.
      do 2 f_equal;
        [lia|by rewrite <- app_assoc
        |by destruct (firstBackmatter g); rewrite ?app_nil_r|lia].
    + simpl. by rewrite Hlines, <- app_assoc, Hd.
    + simpl. rewrite length_app, Hidx. simpl. lia.
    + unfold cursorOK. simpl. rewrite Hlines, Hidx, app_assoc.
      replace (length pre + S (S (length (srcLines x))))
        with (length (pre ++ sourceLines x)) by (rewrite length_app; simpl; lia).
      by rewrite list_lookup_middle.
    + apply Forall_forall. intros y Hy.
      rewrite Forall_forall in Hflags'.
      destruct (decide (srcKind y = srcKind x)) as [Heq|Hne].
      * rewrite Heq. destruct (backKinds_cases _ Hk) as [Hin|Happ].
        -- exfalso. apply (Hfresh Hin). rewrite <- Heq. by apply list_elem_of_fmap_2.
        -- by rewrite Happ.
      * rewrite backFlag_markBack_ne by assumption. by apply Hflags'.
    + simpl in Hfuel. lia.
Qed.

Lemma bookLines_app xs ys : bookLines (xs ++ ys) = bookLines xs ++ bookLines ys.
Proof. unfold bookLines. by rewrite fmap_app, concat_app. Qed.

Lemma bookLines_length xs : length xs ≤ length (bookLines xs).
Proof.
  induction xs as [|x xs IH]; [reflexivity|].
  rewrite bookLines_cons, length_app. simpl. lia.
Qed.

Lemma builtSections_app n xs ys :
  builtSections n (xs ++ ys) = builtSections n xs ++ builtSections (n + length xs) ys.
Proof.
  revert n. induction xs as [|x xs IH]; intros n; simpl.
  - by rewrite Nat.add_0_r.
  - rewrite IH. do 3 f_equal. lia.
Qed.

Lemma builtSections_length n xs : length (builtSections n xs) = length xs.
Proof. revert n. induction xs as [|x xs IH]; intros n; simpl; [|rewrite IH]; reflexivity. Qed.

Lemma afterSections_app b xs ys d1 d2 g1 g2 :
  afterSections (afterSections b xs d1 g1) ys d2 g2
    = afterSections b (xs ++ ys) d2 (g1 ++ g2).
Proof.
  unfold afterSections. simpl.
  rewrite bookLines_app, builtSections_app, !length_app, <- !app_assoc.
  f_equal; lia.
Qed.

Lemma frontFlag_noneGiven kind : frontFlag kind noneGiven = false.
Proof. unfold frontFlag. repeat (destruct (kind == _); [reflexivity|]). reflexivity. Qed.

Lemma backFlag_clear kind first : backFlag kind (mkBackGiven false false first) = false.
Proof. unfold backFlag. repeat (destruct (kind == _); [reflexivity|]). reflexivity. Qed.

Lemma bodyDirective_not_front kind :
  kind ∈ bodyKinds → directiveOf kind ∉ frontDirectives.
Proof.
  intros Hk. apply list_elem_of_In in Hk. simpl in Hk.
  destruct Hk as [<-|[<-|[]]]; compute_done.
Qed.

(** The line after the body matter: a back-matter directive or the end
    directive. *)
Lemma backLines_next back rest :
  Forall (λ x, srcKind x ∈ backKinds) back →
  ∃ d rest', bookLines back ++ "<!--end-->" :: rest = d :: rest'
             ∧ HasPrefix d "<!--" = true ∧ d ∉ bodyDirectives.
Proof.
  intros Hback. destruct back as [|z back].
  - exists "<!--end-->", rest. split; [reflexivity|]. split; [reflexivity|compute_done].
  - eexists _, _. split; [reflexivity|]. split; [apply directiveOf_isDirective|].
    inversion Hback as [|? ? Hk _]; subst.
    apply list_elem_of_In in Hk. simpl in Hk.
    destruct Hk as [<-|[<-|[<-|[]]]]; compute_done.
Qed.

(** Loops 1 to 3 on a well-formed body. *)
Lemma directiveLoops_run b pre front body back rest :
  lines b = pre ++ bookLines (front ++ body ++ back) ++ "<!--end-->" :: rest →
  lineIndex b = length pre →
  cursorOK b →
  Forall plainText (front ++ body ++ back) →
  Forall (λ x, srcKind x ∈ frontKinds) front →
  Forall (λ x, srcKind x ∈ bodyKinds) body →
  Forall (λ x, srcKind x ∈ backKinds) back →
  atMostOnce frontOnce (srcKind <$> front) →
  atMostOnce backOnce (srcKind <$> back) →
  body ≠ [] →
  directiveLoops b
    = Ok (afterSections b (front ++ body ++ back) "<!--end-->"
            (take 1 (builtSections (currSectionNo b + length front) body)
             ++ take 1 (builtSections (currSectionNo b + length front + length body) back))).
Proof.
  intros Hlines Hidx Hcur Hplain Hfront Hbody Hback Honce1 Honce3 Hne.
  apply Forall_app in Hplain as [Hplain1 Hplain]. apply Forall_app in Hplain as [Hplain2 Hplain3].
  destruct body as [|y body]; [contradiction|].
  destruct (backLines_next back rest Hback) as (d2 & rest2 & Hd2 & Hdir2 & Hstop2).
  assert (Hl1 : lines b = pre ++ bookLines front ++ directiveOf (srcKind y)
                  :: (("<h1>" +:+ srcHeading y +:+ "</h1>") :: srcLines y)
                  ++ bookLines body ++ bookLines back ++ "<!--end-->" :: rest).
  { rewrite Hlines, !bookLines_app, bookLines_cons, <- !app_assoc. reflexivity. }
  assert (Hl2 : lines b = (pre ++ bookLines front) ++ bookLines (y :: body) ++ d2 :: rest2).
  { rewrite Hlines, !bookLines_app, <- !app_assoc, Hd2. reflexivity. }
  assert (Hl3 : lines b = (pre ++ bookLines front ++ bookLines (y :: body))
                  ++ bookLines back ++ "<!--end-->" :: rest).
  { rewrite Hlines, !bookLines_app, <- !app_assoc. reflexivity. }
  assert (Hlen : length front + S (length body) + length back ≤ length (lines b)).
  { rewrite Hlines, !length_app.
    pose proof (bookLines_length (front ++ (y :: body) ++ back)) as Hb.
    rewrite !length_app in Hb. simpl in Hb |- *. lia. }
  inversion Hbody as [|? ? Hky _]; subst.
  unfold directiveLoops.
  rewrite (loop1_accepts front _ noneGiven b pre _ _ Hl1 Hidx Hcur Hplain1 Hfront Honce1);
    [|apply Forall_forall; intros; apply frontFlag_noneGiven
     |apply directiveOf_isDirective
     |by apply bodyDirective_not_front
     |lia].
  rewrite (bind_Ok_l _ _ _ eq_refl).
  set (b1 := afterSections b front (directiveOf (srcKind y)) []).
  assert (Hi1 : lineIndex b1 = length (pre ++ bookLines front))
    by (simpl; rewrite Hidx, length_app; lia).
  assert (Hc1 : cursorOK b1).
  { unfold cursorOK. rewrite Hi1. change (lines b1) with (lines b).
    rewrite Hl1, app_assoc. by rewrite list_lookup_middle. }
  assert (Hf1 : length (y :: body) < S (length (lines b1))) by (simpl; lia).
  rewrite (loop2_accepts (y :: body) _ true b1 _ d2 rest2 Hl2 Hi1 Hc1 Hplain2 Hbody
             Hdir2 Hstop2 Hf1).
  rewrite (bind_Ok_l _ _ _ eq_refl). cbn [andb].
  rewrite (bool_decide_eq_false_2 (y :: body = [])) by discriminate. cbv iota.
  set (b2 := afterSections b1 (y :: body) d2 _).
  assert (Hi2 : lineIndex b2 = length (pre ++ bookLines front ++ bookLines (y :: body)))
    by (unfold b2, b1, afterSections; cbn [lineIndex]; rewrite Hidx, !length_app; lia).
  assert (Hc2 : cursorOK b2).
  { unfold cursorOK. rewrite Hi2. change (lines b2) with (lines b).
    rewrite Hl3, Hd2. by rewrite list_lookup_middle. }
  assert (Hf2 : length back < S (length (lines b2))) by (simpl; lia).
  rewrite (loop3_accepts back _ (mkBackGiven false false true) b2 _ rest Hl3 Hi2 Hc2
             Hplain3 Hback Honce3);
    [|apply Forall_forall; intros; apply backFlag_clear|exact Hf2].
  cbn [firstBackmatter]. unfold b2, b1. rewrite !afterSections_app.
  assert (Hn : ∀ b xs d g,
            currSectionNo (afterSections b xs d g) = currSectionNo b + length xs)
    by reflexivity.
  rewrite !Hn, length_app, Nat.add_assoc. reflexivity.
Qed.

(** X16. Loops 1 to 3 accept every well-formed body: front-matter sections,
    at least one part or chapter, back-matter sections, each written as its
    directive, a heading line [<h1>...</h1>] and text lines that do not
    start like a directive, no kind among the at-most-once kinds given
    twice, closed by the end directive.  They stop on the end directive
    with one section per source section, in order, numbered on from the
    running number, with the heading read from the heading line or, for the
    sentinel heading of a front-matter or back-matter section, the default
    label of its kind; the first part or chapter and the first back-matter
    section go to the guides. *)
Theorem directiveLoops_accepts b pre front body back rest :
  lines b = pre ++ bookLines (front ++ body ++ back) ++ "<!--end-->" :: rest →
  lineIndex b = length pre →
  cursorOK b →
  Forall plainText (front ++ body ++ back) →
  Forall (λ x, srcKind x ∈ frontKinds) front →
  Forall (λ x, srcKind x ∈ bodyKinds) body →
  Forall (λ x, srcKind x ∈ backKinds) back →
  atMostOnce frontOnce (srcKind <$> front) →
  atMostOnce backOnce (srcKind <$> back) →
  body ≠ [] →
  directiveLoops b
    = Ok (afterSections b (front ++ body ++ back) "<!--end-->"
            (take 1 (builtSections (currSectionNo b + length front) body)
             ++ take 1 (builtSections (currSectionNo b + length front + length body) back))).
Proof. apply directiveLoops_run. Qed.

(** The sample book. *)
Lemma directiveLoops_accepts_sampleBuffer :
  directiveLoops sampleBuffer
    = Ok (afterSections sampleBuffer (sampleFront ++ sampleBody ++ sampleBack) "<!--end-->"
            (take 1 (builtSections 1 sampleBody) ++ take 1 (builtSections 3 sampleBack))).
Proof.
  apply (directiveLoops_accepts sampleBuffer ["<html>"; "<body>"]
           sampleFront sampleBody sampleBack ["</body>"]).
  - reflexivity.
  - reflexivity.
  - reflexivity.
  - repeat constructor.
  - repeat constructor; compute_done.
  - repeat constructor; compute_done.
  - repeat constructor; compute_done.
  - compute_done.
  - compute_done.
  - discriminate.
Defined.

(** ** Well-formed documents are accepted *)

(** The length of a list written with [++], [::] and [<$>]. *)
Ltac list_length :=
  repeat first [rewrite length_app | rewrite length_fmap | progress cbn [length]].

(** A list written with [++] and [::], associated to the right. *)
Ltac list_assoc := repeat first [rewrite <- app_assoc | progress cbn [app]].

Lemma skipTo_accepts skipped :
  ∀ fuel b pre marker rest,
    lines b = pre ++ skipped ++ marker :: rest →
    S (lineIndex b) = length pre →
    marker ∉ skipped →
    length skipped < fuel →
    skipTo fuel marker b = Ok (setCursor b (length pre + length skipped) marker).
Proof.
  induction skipped as [|line skipped IH];
    intros fuel b pre marker rest Hlines Hidx Hnot Hfuel;
    (destruct fuel as [|fuel]; [simpl in Hfuel; lia|]); cbn [skipTo].
  - simpl in Hlines. rewrite (NextLine_at b pre marker rest) by assumption.
    rewrite (bind_Ok_l _ _ _ eq_refl). simpl. rewrite String.eqb_refl.
    by rewrite Nat.add_0_r.
  - simpl in Hlines. rewrite (NextLine_at b pre line (skipped ++ marker :: rest))
      by assumption.
    rewrite (bind_Ok_l _ _ _ eq_refl).
    change (CurrLine (setCursor b (length pre) line)) with line.
    rewrite not_elem_of_cons in Hnot. destruct Hnot as [Hne Hnot].
    rewrite (eqb_false line marker) by congruence.
    rewrite (IH fuel _ (pre ++ [line]) marker rest); try assumption.
    + unfold setCursor. simpl. do 2 f_equal. rewrite length_app. simpl. lia.
    + simpl. by rewrite Hlines, <- app_assoc.
    + simpl. rewrite length_app. simpl. lia.
    + simpl in Hfuel. lia.
Qed.

Lemma checkRequiredAttributes_accepts b :
  GetAttribute b "version" = "epub3" →
  Forall (λ key, GetAttribute b key ≠ "") requiredKeys →
  checkRequiredAttributes b = Ok ().
Proof.
  intros Hv Hreq. rewrite Forall_forall in Hreq.
  unfold checkRequiredAttributes, requireAttribute. rewrite Hv. simpl.
  rewrite !eqb_false; [reflexivity|..]; apply Hreq; compute_done.
Qed.

Lemma CheckCoverImage_accepts b :
  GetAttribute b "cover-image" ≠ "" →
  acceptedMediaType (mediaTypeOf (GetAttribute b "cover-image")) = true →
  CheckCoverImage b
    = Ok (setCoverImage b (mkImage (GetAttribute b "cover-image")
                                   (mediaTypeOf (GetAttribute b "cover-image")))).
Proof.
  intros Hne Hacc. unfold CheckCoverImage, mediaTypeOf, acceptedMediaType in *.
  cbv zeta. rewrite (eqb_false _ _ Hne).
  destruct (Cut (GetAttribute b "cover-image") ".") as [[before mediaType] found].
  simpl in *. apply negb_true_iff in Hacc. by rewrite Hacc.
Qed.

Lemma CheckImageFiles_accepts b :
  Forall (λ f, acceptedMediaType (mediaTypeOf f) = true)
         (if GetAttribute b "images" == "" then [] else Split (GetAttribute b "images") ",") →
  ∃ imgs, CheckImageFiles b = Ok (setImages b imgs).
Proof.
  intros Hall. unfold CheckImageFiles. cbv zeta.
  destruct (GetAttribute b "images" == "").
  - exists (images b). by destruct b.
  - destruct (checkImageFilesLoop_records _ ∅ Hall) as (imgs & -> & _).
    by exists imgs.
Qed.

(** The head of a document, up to its first directive. *)
Lemma header_accepts currTimeStamp first skipped declarations between next tail :
  "<head>" ∉ skipped →
  Forall readable declarations →
  "<body>" ∉ between →
  acceptableHead (declared declarations) →
  let lines0 := (first :: skipped) ++ "<head>" :: (uncurry metaLine <$> declarations)
                ++ "</head>" :: between ++ "<body>" :: next :: tail in
  ∃ imgs,
    header currTimeStamp lines0
      = Ok (mkBuffer next
              (length skipped + length declarations + length between + 4)
              lines0 (stamped currTimeStamp (declared declarations))
              (mkImage (default "" (declared declarations !! "cover-image"))
                       (mediaTypeOf (default "" (declared declarations !! "cover-image"))))
              imgs [] [] 0).
Proof.
  intros Hhead Hread Hbody [Hv Hreq Hcover Hctype Himages _] lines0.
  unfold header. cbv zeta.
  rewrite (skipTo_accepts skipped _ (NewInputBuffer lines0) [first] "<head>"
             ((uncurry metaLine <$> declarations) ++ "</head>" :: between
              ++ "<body>" :: next :: tail));
    [|reflexivity|reflexivity|assumption|simpl; unfold lines0; rewrite length_app; simpl; lia].
  rewrite (bind_Ok_l _ _ _ eq_refl).
  set (b1 := setCursor (NewInputBuffer lines0) _ "<head>").
  unfold LoadAttributes.
  rewrite (LoadAttributesLoop_declarations declarations _ b1 ((first :: skipped) ++ ["<head>"])
             (between ++ "<body>" :: next :: tail));
    [|unfold b1, lines0; simpl; rewrite <- !app_assoc; reflexivity
     |unfold b1; simpl; rewrite length_app; simpl; lia
     |assumption
     |unfold b1, lines0; simpl; rewrite !length_app; simpl; rewrite !length_app, length_fmap;
      simpl; lia].
  rewrite (bind_Ok_l _ _ _ eq_refl).
  set (b2 := setCursor (setAttributes b1 _) _ "</head>").
  assert (Ha2 : attributes b2 = declared declarations) by reflexivity.
  assert (Hg2 : ∀ key, GetAttribute b2 key = default "" (declared declarations !! key))
    by reflexivity.
  rewrite (checkRequiredAttributes_accepts b2) by (by rewrite ?Hg2).
  rewrite (bind_Ok_l _ _ _ eq_refl).
  rewrite (CheckCoverImage_accepts b2) by (by rewrite Hg2).
  rewrite (bind_Ok_l _ _ _ eq_refl).
  set (b3 := setCoverImage b2 _).
  destruct (CheckImageFiles_accepts b3) as [imgs Himgs]; [exact Himages|].
  rewrite Himgs, (bind_Ok_l _ _ _ eq_refl).
  exists imgs.
  set (b5 := SetAttribute _ "modified" currTimeStamp).
  assert (Hl5 : lines b5 = ((first :: skipped) ++ "<head>"
                            :: (uncurry metaLine <$> declarations) ++ ["</head>"])
                           ++ between ++ "<body>" :: next :: tail).
  { unfold b5. cbn [SetAttribute setAttributes lines].
    destruct (GetAttribute _ "created" == ""); simpl; unfold lines0;
      rewrite <- !app_assoc; simpl; by rewrite <- !app_assoc. }
  assert (Hi5 : S (lineIndex b5) = length ((first :: skipped) ++ "<head>"
                            :: (uncurry metaLine <$> declarations) ++ ["</head>"])).
  { unfold b5. cbn [SetAttribute setAttributes lineIndex].
    destruct (GetAttribute _ "created" == ""); simpl;
      rewrite !length_app; simpl; rewrite !length_app, length_fmap; simpl; lia. }
  rewrite (skipTo_accepts between _ b5 _ "<body>" (next :: tail) Hl5 Hi5 Hbody);
    [|unfold lines0; list_length; lia].
  rewrite (bind_Ok_l _ _ _ eq_refl).
  rewrite (NextLine_at _ (((first :: skipped) ++ "<head>"
                            :: (uncurry metaLine <$> declarations) ++ ["</head>"])
                           ++ between ++ ["<body>"]) next tail);
    [|unfold setCursor; cbn [lines]; rewrite Hl5, <- !app_assoc; cbn [app];
      by rewrite <- !app_assoc
     |unfold setCursor; cbn [lineIndex]; list_length; lia].
  f_equal. unfold setCursor, b5, stamped.
  change (GetAttribute (setImages b3 imgs) "created")
    with (default "" (declared declarations !! "created")).
  destruct (default "" (declared declarations !! "created") == "");
    cbn [SetAttribute setAttributes setImages CurrLine lineIndex lines attributes coverImage
         images sections guides currSectionNo];
    f_equal; list_length; lia.
Qed.

Lemma fixedSections_accepts currTimeStamp b pre copyrightFirst copyrightText next rest :
  lines b = pre ++ "<!--copyright-->" :: copyrightFirst :: copyrightText ++ next :: rest →
  lineIndex b = length pre →
  CurrLine b = "<!--copyright-->" →
  titlePageOf b = "default" →
  Forall (λ line, HasPrefix line "<!--" = false) copyrightText →
  HasPrefix next "<!--" = true →
  10 ≤ String.length currTimeStamp →
  fixedSections currTimeStamp b
    = Ok (mkBuffer next (lineIndex b + 2 + length copyrightText) (lines b) (attributes b)
                   (coverImage b) (images b) (sections b ++ fixedThree)
                   (guides b ++ [coverSection; titlepageSection]) (currSectionNo b)).
Proof.
  intros Hlines Hidx Hline Htp Hplain Hnext Hlen.
  unfold fixedSections. cbv zeta.
  assert (HT : GenTitlePageSection (GenCoverSection b)
               = Ok (AddGuide (AddSection (GenCoverSection b) titlepageSection)
                              titlepageSection)).
  { unfold GenTitlePageSection. cbv zeta.
    change (if GetAttribute (GenCoverSection b) "titlepage" == "" then "default"
            else GetAttribute (GenCoverSection b) "titlepage") with (titlePageOf b).
    by rewrite Htp. }
  rewrite (bind_Ok_l _ _ _ HT). rewrite decide_True by assumption.
  rewrite (bind_Ok_l _ _ _ eq_refl).
  unfold GenCopyrightSection.
  change (CurrLine (AddGuide (AddSection (GenCoverSection b) titlepageSection)
                             titlepageSection)) with (CurrLine b).
  rewrite Hline. cbn [String.eqb negb].
  change (negb ("<!--copyright-->" == "<!--copyright-->")) with false. cbv iota.
  rewrite (NextLine_at _ (pre ++ ["<!--copyright-->"]) copyrightFirst
             (copyrightText ++ next :: rest));
    [|simpl; by rewrite Hlines, <- app_assoc|simpl; rewrite length_app; simpl; lia].
  rewrite (bind_Ok_l _ _ _ eq_refl). cbv zeta.
  rewrite (readSectionLines_plain copyrightText _ _ _
             (pre ++ ["<!--copyright-->"; copyrightFirst]) next rest);
    [|simpl; by rewrite Hlines, <- app_assoc
     |simpl; rewrite !length_app; simpl; lia
     |assumption|assumption
     |simpl; rewrite Hlines; list_length; lia].
  simpl. unfold setCursor. simpl. do 2 f_equal.
  - rewrite Hidx, length_app. simpl. lia.
  - by rewrite <- !app_assoc.
  - by rewrite <- !app_assoc.
Qed.

(** X17. [parse] accepts every well-formed document: a first line and
    lines without [<head>], the head section with readable declarations
    whose attributes pass the checks of [main] (default title page), lines
    without [<body>], the body marker, the copyright directive with its
    text, a well-formed run of front-matter, body-matter and back-matter
    sections, and the end directive, whatever follows it and whatever the
    first line and the first copyright line are.  It stops on the end
    directive with the declared attributes and the two time stamps, the
    three fixed sections followed by one section per source section, and
    the guides cover, title page, first part or chapter, first back-matter
    section. *)
Theorem parse_accepts currTimeStamp first skipped declarations between
    copyrightFirst copyrightText front body back rest :
  10 ≤ String.length currTimeStamp →
  "<head>" ∉ skipped →
  Forall readable declarations →
  "<body>" ∉ between →
  acceptableHead (declared declarations) →
  Forall (λ line, HasPrefix line "<!--" = false) copyrightText →
  Forall plainText (front ++ body ++ back) →
  Forall (λ x, srcKind x ∈ frontKinds) front →
  Forall (λ x, srcKind x ∈ bodyKinds) body →
  Forall (λ x, srcKind x ∈ backKinds) back →
  atMostOnce frontOnce (srcKind <$> front) →
  atMostOnce backOnce (srcKind <$> back) →
  body ≠ [] →
  let lines0 := bookDocument first skipped declarations between copyrightFirst
                             copyrightText (front ++ body ++ back) rest in
  ∃ imgs,
    parse currTimeStamp lines0
      = Ok (mkBuffer "<!--end-->"
              (length skipped + length declarations + length between
               + length copyrightText + length (bookLines (front ++ body ++ back)) + 6)
              lines0
              (stamped currTimeStamp (declared declarations))
              (mkImage (default "" (declared declarations !! "cover-image"))
                       (mediaTypeOf (default "" (declared declarations !! "cover-image"))))
              imgs
              (fixedThree ++ builtSections 0 (front ++ body ++ back))
              ([coverSection; titlepageSection]
               ++ take 1 (builtSections (length front) body)
               ++ take 1 (builtSections (length front + length body) back))
              (length (front ++ body ++ back))).
Proof.
  intros Hlen Hhead Hread Hbody Hacc Hctext Hplain Hfront Hbodyk Hback Honce1 Honce3 Hne
         lines0.
  destruct (bookLines_next (front ++ body ++ back) "<!--end-->" rest eq_refl)
    as (d & rest' & Hd & Hdir).
  destruct (header_accepts currTimeStamp first skipped declarations between
              "<!--copyright-->"
              (copyrightFirst :: copyrightText ++ bookLines (front ++ body ++ back)
               ++ "<!--end-->" :: rest) Hhead Hread Hbody Hacc) as [imgs Hheader].
  exists imgs. unfold parse.
  change (header currTimeStamp lines0) with
    (header currTimeStamp
       ((first :: skipped) ++ "<head>" :: (uncurry metaLine <$> declarations)
        ++ "</head>" :: between ++ "<body>" :: "<!--copyright-->"
        :: copyrightFirst :: copyrightText ++ bookLines (front ++ body ++ back)
        ++ "<!--end-->" :: rest)).
  rewrite Hheader, (bind_Ok_l _ _ _ eq_refl).
  match goal with |- context [fixedSections _ ?x] => set (b0 := x) end.
  set (pre := (first :: skipped) ++ "<head>" :: (uncurry metaLine <$> declarations)
              ++ "</head>" :: between ++ ["<body>"]).
  assert (Hl0 : lines b0 = pre ++ "<!--copyright-->" :: copyrightFirst
                  :: copyrightText ++ d :: rest').
  { unfold b0, pre, lines0, bookDocument. cbn [lines]. rewrite <- Hd.
    by list_assoc. }
  assert (Hi0 : lineIndex b0 = length pre).
  { unfold b0, pre. cbn [lineIndex]. list_length. lia. }
  assert (Htp : titlePageOf b0 = "default").
  { unfold titlePageOf, GetAttribute, b0. cbn [attributes].
    rewrite stamped_lookup_ne by discriminate.
    by destruct (ah_titlepage _ Hacc) as [-> | ->]. }
  rewrite (fixedSections_accepts currTimeStamp b0 pre copyrightFirst copyrightText d rest'
             Hl0 Hi0 eq_refl Htp Hctext Hdir Hlen).
  rewrite (bind_Ok_l _ _ _ eq_refl).
  match goal with |- context [directiveLoops ?x] => set (b1 := x) end.
  set (pre1 := pre ++ "<!--copyright-->" :: copyrightFirst :: copyrightText).
  assert (Hl1 : lines b1 = pre1 ++ bookLines (front ++ body ++ back)
                  ++ "<!--end-->" :: rest).
  { unfold b1, pre1. cbn [lines]. rewrite Hl0, Hd. by list_assoc. }
  assert (Hi1 : lineIndex b1 = length pre1).
  { unfold b1, pre1. cbn [lineIndex]. rewrite Hi0. list_length. lia. }
  assert (Hc1 : cursorOK b1).
  { unfold cursorOK. rewrite Hi1, Hl1, Hd. by rewrite list_lookup_middle. }
  rewrite (directiveLoops_run b1 pre1 front body back rest Hl1 Hi1 Hc1 Hplain Hfront
             Hbodyk Hback Honce1 Honce3 Hne).
  f_equal. unfold afterSections, b1, b0, pre1, pre.
  cbn [CurrLine lineIndex lines attributes coverImage images sections guides currSectionNo].
  f_equal.
  list_length. lia.
Qed.

(** The sample book under the sample head. *)
Lemma parse_accepts_sample :
  ∃ imgs,
    parse timeStamp
          (bookDocument "<!DOCTYPE html>" ["<html>"] sampleDeclarations []
                        "<p>All rights reserved.</p>" []
                        (sampleFront ++ sampleBody ++ sampleBack) ["</body>"])
      = Ok (mkBuffer "<!--end-->"
              (length ["<html>"] + length sampleDeclarations + 0 + 0
               + length (bookLines (sampleFront ++ sampleBody ++ sampleBack)) + 6)
              (bookDocument "<!DOCTYPE html>" ["<html>"] sampleDeclarations []
                            "<p>All rights reserved.</p>" []
                            (sampleFront ++ sampleBody ++ sampleBack) ["</body>"])
              (stamped timeStamp (declared sampleDeclarations))
              (mkImage "cover.jpeg" "jpeg")
              imgs
              (fixedThree ++ builtSections 0 (sampleFront ++ sampleBody ++ sampleBack))
              ([coverSection; titlepageSection]
               ++ take 1 (builtSections 1 sampleBody)
               ++ take 1 (builtSections 3 sampleBack))
              5).
Proof.
  apply (parse_accepts timeStamp "<!DOCTYPE html>" ["<html>"] sampleDeclarations []
           "<p>All rights reserved.</p>" [] sampleFront sampleBody sampleBack ["</body>"]).
  - vm_compute. lia.
  - compute_done.
  - repeat constructor.
  - apply not_elem_of_nil.
  - split.
    + vm_compute. reflexivity.
    + repeat constructor; vm_compute; discriminate.
    + vm_compute. discriminate.
    + vm_compute. reflexivity.
    + vm_compute. repeat constructor.
    + left. vm_compute. reflexivity.
  - constructor.
  - repeat constructor.
  - repeat constructor; compute_done.
  - repeat constructor; compute_done.
  - repeat constructor; compute_done.
  - compute_done.
  - compute_done.
  - discriminate.
Defined.
